(** * Structured (2:4) sparse linear: metadata kernels and CUTLASS dispatch

    A shallow embedding of
    [aten/src/ATen/native/sparse/cuda/StructuredSparseLinearCUTLASS.cu]:

    - [CreateMeta]: the kernel [two_four_create_meta_kernel], which turns a
      boolean mask into packed 4-bit codes;
    - [ReorderMeta]: the kernel [two_four_reorder_meta_kernel], which moves
      every metadata element to the place CUTLASS expects it at;
    - [Dispatch]: the host functions [two_four_sgemm_cutlass] and
      [_structured_sparse_linear], as computations in a small monad that
      records device operations and may raise an error.

    Machine integers are values of [Z]; conversions between C++ integer
    types are written out ([to_int], [to_unsigned], [to_width]).  C++ [/]
    and [%] truncate towards zero and are [Z.quot] and [Z.rem]. *)

From Stdlib Require Import ZArith List Bool Lia String.
Import ListNotations.
Local Open Scope Z_scope.

(** ** Machine integers *)

(** Conversion to [int] (32 bits, two's complement). *)
Definition to_int (x : Z) : Z := (x + 2 ^ 31) mod 2 ^ 32 - 2 ^ 31.

(** Conversion to [unsigned int] (32 bits). *)
Definition to_unsigned (x : Z) : Z := x mod 2 ^ 32.

(** Conversion to an unsigned integer type of [bytes] bytes. *)
Definition to_width (bytes : Z) (x : Z) : Z := x mod 2 ^ (8 * bytes).

(** The integers [0, 1, ..., n-1]; empty when [n <= 0]. *)
Definition range (n : Z) : list Z := map Z.of_nat (seq 0 (Z.to_nat n)).

(** ** Device memory

    A buffer is a function from element offsets to contents; [None] is a
    cell that holds no defined value (never written, or written with an
    undefined value). *)

Definition Buffer := Z -> option Z.

Definition empty_buffer : Buffer := fun _ => None.

Definition store (buf : Buffer) (addr : Z) (v : option Z) : Buffer :=
  fun a => if a =? addr then v else buf a.

(** ** Kernel launches

    Both kernels are launched on a two-dimensional grid of two-dimensional
    blocks.  A thread is named by its block and its place in the block. *)

Record Thread := mkThread {
  blockIdx_x : Z;
  blockIdx_y : Z;
  threadIdx_x : Z;
  threadIdx_y : Z
}.

Record LaunchConfig := mkLaunch {
  gridDim_x : Z;
  gridDim_y : Z;
  blockDim_x : Z;
  blockDim_y : Z
}.

Definition warpSize : Z := 32.

(** All threads of a launch, block after block.  The order of this list is
    the order in which the kernels below let the threads take effect. *)
Definition threads (cfg : LaunchConfig) : list Thread :=
  flat_map (fun by_ =>
  flat_map (fun bx =>
  flat_map (fun ty =>
  map (fun tx => mkThread bx by_ tx ty)
      (range (blockDim_x cfg)))
      (range (blockDim_y cfg)))
      (range (gridDim_x cfg)))
      (range (gridDim_y cfg)).

(** The value whose [j]-th group of four bits, counted from the least
    significant one, is [codes j], for [j] below [n]. *)
Fixpoint packed (codes : Z -> Z) (n : nat) : Z :=
  match n with
  | O => 0
  | S n' => codes 0 + 16 * packed (fun j => codes (j + 1)) n'
  end.

(** ** The metadata builder: [two_four_create_meta_kernel] *)

Module CreateMeta.

(** A [bool] loaded from the mask is given by the [int] it is promoted
    to when it is compared: 1 for [true], 0 for [false], and, for a byte of
    the mask that is neither, that byte. *)

(** [pos_tuple == std::make_tuple(a, b, c, d)]: the four loaded [bool]s
    are promoted to [int] and compared with the four constants component
    by component. *)
Definition tuple_eq (p : Z * Z * Z * Z) (q : Z * Z * Z * Z) : bool :=
  let '(p0, p1, p2, p3) := p in
  let '(q0, q1, q2, q3) := q in
  (p0 =? q0) && (p1 =? q1) && (p2 =? q2) && (p3 =? q3).

(** The [if]/[else if] chain of the kernel.  The result is the value left
    in [val] and whether [atomicExch(error, 1)] is executed. *)
Definition encode (pos0 pos1 pos2 pos3 : Z) : Z * bool :=
  let pos_tuple := (pos0, pos1, pos2, pos3) in
  if tuple_eq pos_tuple (1, 1, 0, 0) then (4, false)
  else if tuple_eq pos_tuple (1, 0, 1, 0) then (8, false)
  else if tuple_eq pos_tuple (0, 1, 1, 0) then (9, false)
  else if tuple_eq pos_tuple (1, 0, 0, 1) then (12, false)
  else if tuple_eq pos_tuple (0, 1, 0, 1) then (13, false)
  else if tuple_eq pos_tuple (0, 0, 1, 1) then (14, false)
  else (0, true).

(** Number of [true] entries (1) and of [false] entries (0) of a group of
    four. *)
Definition count_true (pos0 pos1 pos2 pos3 : Z) : Z :=
  Z.b2z (pos0 =? 1) + Z.b2z (pos1 =? 1) + Z.b2z (pos2 =? 1) + Z.b2z (pos3 =? 1).
Definition count_false (pos0 pos1 pos2 pos3 : Z) : Z :=
  Z.b2z (pos0 =? 0) + Z.b2z (pos1 =? 0) + Z.b2z (pos2 =? 0) + Z.b2z (pos3 =? 0).

(** A group of four with exactly two [true] entries, the other two being
    [false]. *)
Definition two_true (pos0 pos1 pos2 pos3 : Z) : bool :=
  (count_true pos0 pos1 pos2 pos3 =? 2) && (count_false pos0 pos1 pos2 pos3 =? 2).

Section Kernel.

(** The kernel's arguments.  [mask] is the memory behind the [bool*]
    pointer, each [bool] given by the [int] it is promoted to; [sizeof_T]
    is the size in bytes of the template type [T]. *)
Variable sizeof_T : Z.
Variables length_m length_k mask_stride : Z.
Variable mask : Z -> Z.
Variable meta_stride : Z.

Variable cfg : LaunchConfig.

(** [k] and [m] are [unsigned int]. *)
Definition k_of (t : Thread) : Z :=
  to_unsigned (blockDim_x cfg * blockIdx_x t + threadIdx_x t).
Definition m_of (t : Thread) : Z :=
  to_unsigned (blockDim_y cfg * blockIdx_y t + threadIdx_y t).

(** [m < length_m && k < length_k / 4], the [int] operands being converted
    to [unsigned]. *)
Definition in_range (t : Thread) : bool :=
  (m_of t <? to_unsigned length_m) && (k_of t <? to_unsigned (Z.quot length_k 4)).

(** [mask[m * mask_stride + k * 4 + j]], the index computed in
    [unsigned int]. *)
Definition pos (t : Thread) (j : Z) : Z :=
  mask (to_unsigned (m_of t * mask_stride + k_of t * 4 + j)).

Definition thread_code (t : Thread) : Z * bool :=
  encode (pos t 0) (pos t 1) (pos t 2) (pos t 3).

(** The code of group [k] of row [m] of the mask, as the worker with these
    [m] and [k] computes it. *)
Definition group_code (m k : Z) : Z :=
  fst (encode (mask (to_unsigned (m * mask_stride + k * 4 + 0)))
              (mask (to_unsigned (m * mask_stride + k * 4 + 1)))
              (mask (to_unsigned (m * mask_stride + k * 4 + 2)))
              (mask (to_unsigned (m * mask_stride + k * 4 + 3)))).

(** Whether group [k] of row [m] of the mask, as the worker with these
    [m] and [k] reads it, has exactly two [true] entries and two [false]
    ones. *)
Definition group_two_true (m k : Z) : bool :=
  two_true (mask (to_unsigned (m * mask_stride + k * 4 + 0)))
           (mask (to_unsigned (m * mask_stride + k * 4 + 1)))
           (mask (to_unsigned (m * mask_stride + k * 4 + 2)))
           (mask (to_unsigned (m * mask_stride + k * 4 + 3))).

(** [auto tile_size = 2 * sizeof(T)]. *)
Definition tile_size : Z := 2 * sizeof_T.

(** Threads of a block are numbered along x first; consecutive runs of
    [warpSize] of them form a warp. *)
Definition linear_id (t : Thread) : Z :=
  threadIdx_x t + threadIdx_y t * blockDim_x cfg.
Definition lane (t : Thread) : Z := Z.rem (linear_id t) warpSize.

(** The thread of the same block whose linear id is larger by [delta]. *)
Definition thread_down (t : Thread) (delta : Z) : Thread :=
  let id := linear_id t + delta in
  mkThread (blockIdx_x t) (blockIdx_y t)
           (Z.rem id (blockDim_x cfg)) (Z.quot id (blockDim_x cfg)).

(** [val] of every thread before the loop: threads out of range have
    returned and hold nothing. *)
Definition val0 (t : Thread) : option Z :=
  if in_range t then Some (fst (thread_code t)) else None.

(** [__shfl_down_sync(active_mask, val, i)]: the value of the lane [i]
    lanes further down in the warp; a lane at the end of the warp gets its
    own value back, and the value of a lane that has returned is
    undefined. *)
Definition shfl_down (vals : Thread -> option Z) (i : Z) (t : Thread) : option Z :=
  if lane t + i <? warpSize then vals (thread_down t i) else vals t.

(** [val |= shfl << (4 * i)], stored back into a variable of type [T]. *)
Definition shfl_step (vals : Thread -> option Z) (i : Z) (t : Thread) : option Z :=
  match vals t, shfl_down vals i t with
  | Some v, Some w => Some (to_width sizeof_T (Z.lor v (Z.shiftl w (4 * i))))
  | _, _ => None
  end.

(** [for (auto i = 1; i < tile_size; i *= 2)]; all lanes of a warp run the
    loop in lockstep. *)
Fixpoint shfl_loop (fuel : nat) (i : Z) (vals : Thread -> option Z) : Thread -> option Z :=
  match fuel with
  | O => vals
  | S fuel' =>
      if i <? tile_size then shfl_loop fuel' (i * 2) (shfl_step vals i) else vals
  end.

(** [i] doubles from 1, so the loop is over after at most [tile_size]
    rounds. *)
Definition val_final : Thread -> option Z :=
  shfl_loop (Z.to_nat tile_size) 1 val0.

(** The store of a thread, if it does one: offset into [meta] and value. *)
Definition thread_store (t : Thread) : option (Z * option Z) :=
  if in_range t && (Z.rem (k_of t) tile_size =? 0)
  then Some (to_unsigned (m_of t * meta_stride) + Z.quot (k_of t) tile_size,
             val_final t)
  else None.

(** State of the kernel's outputs: the [meta] buffer and [*error]. *)
Record State := mkState { meta : Buffer; error : Z }.

Definition thread_effect (s : State) (t : Thread) : State :=
  if in_range t then
    let s1 := if snd (thread_code t) then mkState (meta s) 1 else s in
    match thread_store t with
    | Some (addr, v) => mkState (store (meta s1) addr v) (error s1)
    | None => s1
    end
  else s.

Definition two_four_create_meta_kernel (s : State) : State :=
  fold_left thread_effect (threads cfg) s.

(** A worker raises the flag when it is in range and its group is not one
    of the six. *)
Definition raises_flag (t : Thread) : bool :=
  in_range t && snd (thread_code t).

(** The store of a worker as the data model of the specification words
    it, with the codes "packed two-per-storage-unit": every second worker
    writes its own code and, four bits up, the code of the next worker,
    to the column that is half its [k]. *)
Definition thread_store_two_per_unit (t : Thread) : option (Z * option Z) :=
  let next := mkThread (blockIdx_x t) (blockIdx_y t)
                       (threadIdx_x t + 1) (threadIdx_y t) in
  if in_range t && (Z.rem (k_of t) 2 =? 0)
  then Some (to_unsigned (m_of t * meta_stride) + Z.quot (k_of t) 2,
             Some (fst (thread_code t) + 16 * fst (thread_code next)))
  else None.

(** The workers of one row of a block of 16 x 16 each hold, after [n]
    rounds of the loop, the codes of the [2^n] workers starting with
    themselves, provided those are all in range and in that row. *)
Definition holds_codes (bx by_ ty : Z) (n : nat) (vals : Thread -> option Z) : Prop :=
  forall x, 0 <= x -> x + Z.of_nat (2 ^ n) <= 16 ->
    (forall j, 0 <= j < Z.of_nat (2 ^ n) ->
       in_range (mkThread bx by_ (x + j) ty) = true) ->
    vals (mkThread bx by_ x ty)
    = Some (packed (fun j => fst (thread_code (mkThread bx by_ (x + j) ty))) (2 ^ n)).

End Kernel.

End CreateMeta.

(** ** The metadata reorderer: [two_four_reorder_meta_kernel] *)

(** A [cutlass::TensorRef]: a pointer and a layout, the layout being the
    function from (row, column) to the offset of that element. *)
Record TensorRef := mkTensorRef {
  ref_data : Buffer;
  ref_offset : Z * Z -> Z
}.

(** [ref.at({row, column})] *)
Definition ref_at (r : TensorRef) (coord : Z * Z) : option Z :=
  ref_data r (ref_offset r coord).

(** [cutlass::layout::RowMajor::packed({rows, columns})] *)
Definition RowMajor_packed (extent : Z * Z) : Z * Z -> Z :=
  fun coord => fst coord * snd extent + snd coord.

(** Stores of a list of threads taking effect one after the other. *)
Definition run_stores {T : Type} (st : T -> option (Z * option Z))
    (ts : list T) (buf : Buffer) : Buffer :=
  fold_left (fun b t => match st t with
                        | Some (addr, v) => store b addr v
                        | None => b
                        end) ts buf.

Module ReorderMeta.

Section Kernel.

(** [sizeof(Element)], in bytes. *)
Variable sizeof_Element : Z.

(** [int group = (sizeof(Element) == 2) ? 32 : 16] *)
Definition group : Z := if sizeof_Element =? 2 then 32 else 16.

(** [int interweave = (sizeof(Element) == 2) ? 4 : 2] *)
Definition interweave : Z := if sizeof_Element =? 2 then 4 else 2.

(** "First reorder the rows."  The arithmetic is on [int]; the result is
    below [m + 32], and no wrap-around is written out. *)
Definition reorder_row (m : Z) : Z :=
  Z.quot m group * group + Z.rem m 8 * interweave + Z.quot (Z.rem m group) 8.

(** "Next swizzle the 2x2 blocks from Z to N." *)
Definition swizzle (dst_row dst_col : Z) : Z * Z :=
  if (Z.rem dst_row 2 =? 0) && (Z.rem dst_col 2 =? 1) then
    (dst_row + 1, dst_col - 1)
  else if (Z.rem dst_row 2 =? 1) && (Z.rem dst_col 2 =? 0) then
    (dst_row - 1, dst_col + 1)
  else (dst_row, dst_col).

(** Where the element at [(m, k)] of [src] goes in [dst]. *)
Definition dst_coord (m k : Z) : Z * Z := swizzle (reorder_row m) k.

Variables length_m length_k : Z.
Variable src : TensorRef.
Variable dst_layout : Z * Z -> Z.
Variable cfg : LaunchConfig.

(** [k] and [m] are [int], initialised from [unsigned] expressions. *)
Definition k_of (t : Thread) : Z :=
  to_int (to_unsigned (blockDim_x cfg * blockIdx_x t + threadIdx_x t)).
Definition m_of (t : Thread) : Z :=
  to_int (to_unsigned (blockDim_y cfg * blockIdx_y t + threadIdx_y t)).

(** The assignment [dst.at({dst_row, dst_col}) = src.at({m, k})] of a
    thread that passes the bounds test. *)
Definition thread_store (t : Thread) : option (Z * option Z) :=
  let k := k_of t in
  let m := m_of t in
  if (m >=? length_m) || (k >=? length_k) then None
  else Some (dst_layout (dst_coord m k), ref_at src (m, k)).

Definition two_four_reorder_meta_kernel (dst : Buffer) : Buffer :=
  run_stores thread_store (threads cfg) dst.

(** The permutation that undoes [dst_coord]: undo the swizzle (which is
    its own inverse), then undo the row interleave.  It is not part of the
    source; the theorems below show that it inverts [dst_coord]. *)
Definition restore_row (d : Z) : Z :=
  Z.quot d group * group + Z.rem d interweave * 8 + Z.quot (Z.rem d group) interweave.

Definition src_coord (dst_row dst_col : Z) : Z * Z :=
  let '(r, c) := swizzle dst_row dst_col in (restore_row r, c).

End Kernel.

(** The cells of an [M] x [N] matrix. *)
Definition in_grid (M N : Z) (coord : Z * Z) : Prop :=
  0 <= fst coord < M /\ 0 <= snd coord < N.

(** [dst_coord] is a bijection of the [M] x [N] grid onto itself. *)
Definition bijection_on_grid (sizeof_Element M N : Z) : Prop :=
  (forall m k, in_grid M N (m, k) -> in_grid M N (dst_coord sizeof_Element m k)) /\
  (forall r c, in_grid M N (r, c) ->
     exists m k, in_grid M N (m, k) /\ dst_coord sizeof_Element m k = (r, c) /\
       forall m' k', in_grid M N (m', k') ->
         dst_coord sizeof_Element m' k' = (r, c) -> (m', k') = (m, k)).

End ReorderMeta.

(** ** The host side *)

Module Dispatch.

(** *** Tensors *)

(** [c10::ScalarType] (the real and boolean types). *)
Inductive ScalarType :=
| kByte | kChar | kShort | kInt | kLong
| kHalf | kFloat | kDouble | kBool | kBFloat16.

(** [c10::Layout] *)
Inductive Layout :=
| Strided | Sparse | SparseCsr | Mkldnn | SparseCsc | SparseBsr | SparseBsc.

Record Tensor := mkTensor {
  scalar_type : ScalarType;
  layout : Layout;
  sizes : list Z;
  strides : list Z;
  data : Buffer
}.

Definition dim (t : Tensor) : Z := Z.of_nat (List.length (sizes t)).
Definition size (t : Tensor) (i : nat) : Z := nth i (sizes t) 0.
Definition stride (t : Tensor) (i : nat) : Z := nth i (strides t) 0.

Definition ScalarType_eqb (a b : ScalarType) : bool :=
  match a, b with
  | kByte, kByte | kChar, kChar | kShort, kShort | kInt, kInt | kLong, kLong
  | kHalf, kHalf | kFloat, kFloat | kDouble, kDouble | kBool, kBool
  | kBFloat16, kBFloat16 => true
  | _, _ => false
  end.

Definition Layout_eqb (a b : Layout) : bool :=
  match a, b with
  | Strided, Strided | Sparse, Sparse | SparseCsr, SparseCsr | Mkldnn, Mkldnn
  | SparseCsc, SparseCsc | SparseBsr, SparseBsr | SparseBsc, SparseBsc => true
  | _, _ => false
  end.

(** Strides of a freshly allocated (contiguous) tensor of the given sizes:
    the last stride is 1, and every other stride is the product of the
    sizes after it, a size below 1 counting as 1. *)
Fixpoint contiguous_strides (szs : list Z) : list Z :=
  match szs with
  | [] => []
  | _ :: rest =>
      let tail := contiguous_strides rest in
      Z.max (hd 1 rest) 1 * hd 1 tail :: tail
  end.

(** *** CUTLASS *)

(** Element types used as template arguments. *)
Inductive Element := int8_t | int32_t | half_t | float_t.

(** [cutlass::sizeof_bits<T>::value] *)
Definition sizeof_bits (e : Element) : Z :=
  match e with
  | int8_t => 8 | int32_t => 32 | half_t => 16 | float_t => 32
  end.

(** [cutlass::layout::RowMajor] and [cutlass::layout::ColumnMajor] *)
Inductive MatrixLayout := RowMajor | ColumnMajor.

(** [cutlass::gemm::GemmShape<M, N, K>] *)
Record GemmShape := mkShape { kM : Z; kN : Z; kK : Z }.

(** [cutlass::epilogue::thread::LinearCombination<...>] *)
Record LinearCombination := mkLinearCombination {
  lc_ElementOutput : Element;
  lc_Count : Z;
  lc_ElementAccumulator : Element;
  lc_ElementCompute : Element
}.

(** The template arguments of [two_four_sgemm_cutlass]. *)
Record TemplateArgs := mkTemplateArgs {
  ElementInputA : Element;
  ElementInputB : Element;
  ElementOutput : Element;
  ElementAccumulator : Element;
  ElementComputeEpilogue : Element;
  ThreadblockShape : GemmShape;
  WarpShape : GemmShape;
  InstructionShape : GemmShape;
  EpilogueOp : LinearCombination;
  LayoutInputA : MatrixLayout;
  LayoutInputB : MatrixLayout
}.

(** [cutlass::Status] *)
Inductive Status :=
| kSuccess
| kErrorMisalignedOperand
| kErrorInvalidDataType
| kErrorInvalidLayout
| kErrorInvalidProblem
| kErrorNotSupported
| kErrorWorkspaceNull
| kErrorInternal
| kErrorArchMismatch
| kErrorInsufficientDriver
| kErrorMemoryAllocation
| kInvalid.

Definition is_success (s : Status) : bool :=
  match s with kSuccess => true | _ => false end.

(** A reference to an operand in a row-major or column-major layout: the
    pointer and the stride of the layout. *)
Record OperandRef := mkOperandRef {
  op_layout : MatrixLayout;
  op_data : Buffer;
  op_stride : Z
}.

(** [Gemm::Arguments] *)
Record Arguments := mkArguments {
  problem_size : Z * Z * Z;
  ref_A : OperandRef;
  ref_B : OperandRef;
  ref_C : OperandRef;
  ref_D : OperandRef;
  ref_E : TensorRef;
  epilogue : Z * Z;
  split_k_slices : Z
}.

(** What the file uses of an instance of
    [cutlass::gemm::device::SparseGemm]: three constants, the layout of
    the reordered metadata, and the four entry points.  [run] yields its
    status and the contents of the output operand afterwards. *)
Record SparseGemm := mkSparseGemm {
  sizeof_ElementE : Z;
  kSparse : Z;
  kElementsPerElementE : Z;
  LayoutE_packed : Z * Z -> Z * Z -> Z;
  can_implement : Arguments -> Status;
  get_workspace_size : Arguments -> Z;
  initialize : Arguments -> Status;
  run : Arguments -> Status * Buffer
}.

(** *** Errors and device operations *)

Inductive Kernel := create_meta_kernel | reorder_meta_kernel | sparse_gemm_kernel.

Inductive Argument := arg_tensor_a | arg_tensor_b | arg_mask.

Inductive Error :=
| NotSm8x
| ExpectedStrided (arg : Argument) (got : Layout)
| Expected2D (arg : Argument) (got : Z)
| InvalidStrides (arg : Argument) (row_stride column_stride : Z)
| SparseRowsNotDivisible
| DenseRowsNotDivisible (by_ : Z)
| DenseColumnsNotDivisible (by_ : Z)
| InvalidOutputDatatype
| InvalidMetaDatatypeSize
| MaskNotTwoFourSparse
| CombinationNotSupported (tensor_a_row_major tensor_b_row_major : bool)
| CutlassError (status : Status)
| CudaLaunchError (k : Kernel)
| NotImplementedFor (st : ScalarType).

(** [NotImplementedFor] is the error of ATen's dispatch for a datatype
    without a case; the functions of this file raise the others. *)

(** The fixed part of each message. *)
Definition what (e : Error) : string :=
  match e with
  | NotSm8x =>
      "torch._structured_sparse_linear: Supported only on GPUs with compute capability 8.x"
  | ExpectedStrided arg_tensor_a _ =>
      "torch._structured_sparse_linear: Expected tensor_a argument to be strided, but got layout "
  | ExpectedStrided arg_tensor_b _ =>
      "torch._structured_sparse_linear: Expected tensor_b argument to be strided, but got layout "
  | ExpectedStrided arg_mask _ =>
      "torch._structured_sparse_linear: Expected mask argument to be strided, but got layout "
  | Expected2D arg_tensor_a _ =>
      "torch._structured_sparse_linear: Expected tensor_a argument to be 2D tensor, got "
  | Expected2D arg_tensor_b _ =>
      "torch._structured_sparse_linear: Expected tensor_b argument to be 2D tensor, got "
  | Expected2D arg_mask _ =>
      "torch._structured_sparse_linear: Expected mask argument to be 2D tensor, got "
  | InvalidStrides arg_tensor_a _ _ =>
      "torch._structured_sparse_linear: Invalid strides for tensor_a argument: row stride = "
  | InvalidStrides arg_tensor_b _ _ =>
      "torch._structured_sparse_linear: Invalid strides for tensor_b argument: row stride = "
  | InvalidStrides arg_mask _ _ =>
      "torch._structured_sparse_linear: Invalid strides for mask_or_meta argument: row stride = "
  | SparseRowsNotDivisible =>
      "torch._structured_sparse_linear: Number of rows of sparse matrix must be divisible by 32"
  | DenseRowsNotDivisible _ =>
      "torch._structured_sparse_linear: Number of rows of dense matrix must be divisible by "
  | DenseColumnsNotDivisible _ =>
      "torch._structured_sparse_linear: Number of columns of dense matrix must be divisible by "
  | InvalidOutputDatatype =>
      "torch._structured_sparse_linear: invalid sparse GEMM output datatype encountered"
  | InvalidMetaDatatypeSize =>
      "torch._structured_sparse_linear: invalid size of meta tensor datatype encountered"
  | MaskNotTwoFourSparse =>
      "torch._structured_sparse_linear: Mask matrix is not 2:4 sparse"
  | CombinationNotSupported _ _ =>
      "torch._structured_sparse_linear: Combination of tensor_a in "
  | CutlassError _ => "Got CUTLASS error: "
  | CudaLaunchError _ => "CUDA error: "
  | NotImplementedFor _ => "_structured_sparse_linear"
  end.

(** What the host asks of the device, in the order it asks. *)
Inductive Event :=
| ev_new_empty (szs : list Z) (dtype : ScalarType)
| ev_new_zeros (szs : list Z) (dtype : ScalarType)
| ev_launch (k : Kernel)
| ev_item
| ev_gemm_initialize (args : Arguments)
| ev_gemm_run (args : Arguments).

(** A host computation: the device operations done so far, and either an
    error (a C++ exception that ends the call) or a value. *)
Definition M (A : Type) : Type := list Event * (Error + A).

Definition ret {A} (x : A) : M A := ([], inr x).
Definition throw {A} (e : Error) : M A := ([], inl e).
Definition tell (ev : Event) : M unit := ([ev], inr tt).

Definition bind {A B} (c : M A) (f : A -> M B) : M B :=
  match c with
  | (evs, inl e) => (evs, inl e)
  | (evs, inr x) => let '(evs', r) := f x in (evs ++ evs', r)
  end.

(** [TORCH_CHECK(cond, ...)] *)
Definition TORCH_CHECK (cond : bool) (e : Error) : M unit :=
  if cond then ret tt else throw e.

(** [CUTLASS_STATUS_CHECK(status)] *)
Definition CUTLASS_STATUS_CHECK (status : Status) : M unit :=
  TORCH_CHECK (is_success status) (CutlassError status).

Declare Scope host_scope.
Delimit Scope host_scope with host.
Notation "x <- c ;; k" := (bind c (fun x => k))
  (at level 61, c at next level, right associativity) : host_scope.
Notation "c ;; k" := (bind c (fun _ => k))
  (at level 61, right associativity) : host_scope.
Local Open Scope host_scope.

(** *** The environment of a call *)

(** What a call reads from outside the file: the compute capability of
    the current device, which of the launches the driver reports as
    failed, the instance of the CUTLASS template for the given template
    arguments, and the error with which the dispatch on the datatype
    rejects a datatype that none of its cases matches. *)
Record Env := mkEnv {
  major : Z;
  launch_failed : Kernel -> bool;
  Gemm : TemplateArgs -> SparseGemm;
  unmatched_dtype : ScalarType -> Error
}.

(** [C10_CUDA_KERNEL_LAUNCH_CHECK()] *)
Definition C10_CUDA_KERNEL_LAUNCH_CHECK (env : Env) (k : Kernel) : M unit :=
  TORCH_CHECK (negb (launch_failed env k)) (CudaLaunchError k).

(** Modelled from the spec: [Tensor::new_empty] of ATen, which is not
    among the sources ("tensor memory allocation" is an external
    collaborator).  It returns a fresh contiguous strided tensor of the
    given sizes and datatype whose contents are not initialised. *)
Definition new_empty (szs : list Z) (dtype : ScalarType) : M Tensor :=
  tell (ev_new_empty szs dtype) ;;
  ret (mkTensor dtype Strided szs (contiguous_strides szs) empty_buffer).

(** Modelled from the spec: [Tensor::new_zeros] of ATen, as [new_empty]
    but with every element zero. *)
Definition new_zeros (szs : list Z) (dtype : ScalarType) : M Tensor :=
  tell (ev_new_zeros szs dtype) ;;
  ret (mkTensor dtype Strided szs (contiguous_strides szs) (fun _ => Some 0)).

(** [mask.data_ptr()] cast to a pointer to [bool]: a cell of a boolean
    tensor read through that pointer, as the [int] the loaded [bool] is
    promoted to.  That is the byte in the cell: 1 for [true], 0 for
    [false], and whatever else the cell holds when it is not a well-formed
    [bool].  A cell without a defined value reads as 0. *)
Definition as_bool (buf : Buffer) (a : Z) : Z :=
  match buf a with
  | Some v => v
  | None => 0
  end.

(** The launch configurations [<<<dim3(..), dim3(16, 16), ...>>>].  The
    sums are [int] sums; for lengths that have passed the size checks
    they stay below [2^31], and no wrap-around is written out. *)
Definition create_meta_launch (length_m length_k : Z) : LaunchConfig :=
  mkLaunch (Z.quot (length_k + 63) 64) (Z.quot (length_m + 15) 16) 16 16.

Definition reorder_meta_launch (length_m meta_ncols : Z) : LaunchConfig :=
  mkLaunch (Z.quot (meta_ncols + 15) 16) (Z.quot (length_m + 15) 16) 16 16.

Definition with_data (t : Tensor) (d : Buffer) : Tensor :=
  mkTensor (scalar_type t) (layout t) (sizes t) (strides t) d.

(** *** [two_four_sgemm_cutlass] *)

Section Wrapper.

Variable env : Env.
Variable targs : TemplateArgs.

(** [using Gemm = cutlass::gemm::device::SparseGemm<...>] *)
Let G : SparseGemm := Gemm env targs.

(** "If mask matrix passed as an argument, create metadata matrix ...
    perform the reordering in that case too." *)
Definition meta_from_mask (length_m length_k meta_ncols : Z) (mask : Tensor) : M Tensor :=
  TORCH_CHECK (Layout_eqb (layout mask) Strided)
              (ExpectedStrided arg_mask (layout mask)) ;;
  TORCH_CHECK (dim mask =? 2) (Expected2D arg_mask (dim mask)) ;;
  let strides_mask := strides mask in
  TORCH_CHECK (nth 1 strides_mask 0 =? 1)
              (InvalidStrides arg_mask (nth 0 strides_mask 0) (nth 1 strides_mask 0)) ;;
  meta_dtype <- (if sizeof_ElementE G =? 1 then ret kChar
                 else if sizeof_ElementE G =? 2 then ret kShort
                 else if sizeof_ElementE G =? 4 then ret kInt
                 else throw InvalidMetaDatatypeSize) ;;
  meta <- new_empty [length_m; meta_ncols] meta_dtype ;;
  error <- new_zeros [1] kInt ;;
  tell (ev_launch create_meta_kernel) ;;
  let s := CreateMeta.two_four_create_meta_kernel
             (sizeof_ElementE G) length_m length_k
             (to_int (nth 0 strides_mask 0)) (as_bool (data mask))
             (to_int (stride meta 0))
             (create_meta_launch length_m length_k)
             (CreateMeta.mkState (data meta)
                (match data error 0 with Some v => v | None => 0 end)) in
  C10_CUDA_KERNEL_LAUNCH_CHECK env create_meta_kernel ;;
  tell ev_item ;;
  TORCH_CHECK (CreateMeta.error s =? 0) MaskNotTwoFourSparse ;;
  let meta := with_data meta (CreateMeta.meta s) in
  meta_reordered <- new_empty (sizes meta) (scalar_type meta) ;;
  let meta_device_ref :=
    mkTensorRef (data meta) (RowMajor_packed (length_m, meta_ncols)) in
  let ReorderedLayoutInputE_packed := LayoutE_packed G (length_m, meta_ncols) in
  tell (ev_launch reorder_meta_kernel) ;;
  let reordered :=
    ReorderMeta.two_four_reorder_meta_kernel
      (sizeof_ElementE G) length_m meta_ncols meta_device_ref
      ReorderedLayoutInputE_packed
      (reorder_meta_launch length_m meta_ncols)
      (data meta_reordered) in
  C10_CUDA_KERNEL_LAUNCH_CHECK env reorder_meta_kernel ;;
  ret (with_data meta_reordered reordered).

(** "Prepare arguments for CUTLASS sparse GEMM kernel" up to the end of
    the function. *)
Definition sparse_gemm (length_m length_n length_k meta_ncols : Z)
    (tensor_a : Tensor) (tensor_a_stride : Z)
    (tensor_b : Tensor) (tensor_b_stride : Z)
    (tensor_d meta_reordered : Tensor) : M (Tensor * Tensor) :=
  let tensor_a_device_ref :=
    mkOperandRef (LayoutInputA targs) (data tensor_a) tensor_a_stride in
  let tensor_b_device_ref :=
    mkOperandRef (LayoutInputB targs) (data tensor_b) tensor_b_stride in
  (* using LayoutOutput = cutlass::layout::RowMajor *)
  let tensor_d_device_ref :=
    mkOperandRef RowMajor (data tensor_d) (stride tensor_d 0) in
  let tensor_e_reordered_device_ref :=
    mkTensorRef (data meta_reordered) (LayoutE_packed G (length_m, meta_ncols)) in
  let arguments :=
    mkArguments (length_m, length_n, length_k)
                tensor_a_device_ref tensor_b_device_ref
                tensor_d_device_ref tensor_d_device_ref
                tensor_e_reordered_device_ref (1, 0) 1 in
  CUTLASS_STATUS_CHECK (can_implement G arguments) ;;
  let workspace_size := get_workspace_size G arguments in
  workspace <- new_empty [workspace_size] kByte ;;
  tell (ev_gemm_initialize arguments) ;;
  CUTLASS_STATUS_CHECK (initialize G arguments) ;;
  tell (ev_gemm_run arguments) ;;
  let '(status, d) := run G arguments in
  CUTLASS_STATUS_CHECK status ;;
  C10_CUDA_KERNEL_LAUNCH_CHECK env sparse_gemm_kernel ;;
  ret (with_data tensor_d d, meta_reordered).

Definition two_four_sgemm_cutlass
    (tensor_a : Tensor) (tensor_a_stride : Z)
    (tensor_b : Tensor) (tensor_b_stride : Z)
    (mask_or_meta : Tensor) : M (Tensor * Tensor) :=
  (* Operand sizes. *)
  let length_m := to_int (size tensor_a 0) in
  let length_k := to_int (size tensor_b 0) in
  let length_n := to_int (size tensor_b 1) in
  let meta_ncols := Z.quot (Z.quot length_k (kSparse G)) (kElementsPerElementE G) in
  (* Check for current CUTLASS limitations w.r.t. input sizes. *)
  let input_a_is_half :=
    match ElementInputA targs with half_t => true | _ => false end in
  TORCH_CHECK (Z.rem length_m 32 =? 0) SparseRowsNotDivisible ;;
  TORCH_CHECK (Z.rem length_k (if input_a_is_half then 64 else 128) =? 0)
              (DenseRowsNotDivisible (if input_a_is_half then 64 else 128)) ;;
  TORCH_CHECK (Z.rem length_n (if input_a_is_half then 8 else 16) =? 0)
              (DenseColumnsNotDivisible (if input_a_is_half then 8 else 16)) ;;
  (* Determine PyTorch datatype for the output matrix. *)
  tensor_d_dtype <- match ElementOutput targs with
                    | int32_t => ret kInt
                    | half_t => ret kHalf
                    | _ => throw InvalidOutputDatatype
                    end ;;
  (* Create output matrix. *)
  tensor_d <- new_empty [length_m; length_n] tensor_d_dtype ;;
  (* If mask matrix passed as an argument, create metadata matrix. *)
  meta_reordered <- (if ScalarType_eqb (scalar_type mask_or_meta) kBool
                     then meta_from_mask length_m length_k meta_ncols mask_or_meta
                     else ret mask_or_meta) ;;
  sparse_gemm length_m length_n length_k meta_ncols
              tensor_a tensor_a_stride tensor_b tensor_b_stride
              tensor_d meta_reordered.

End Wrapper.

(** *** [_structured_sparse_linear] *)

(** The two sets of template arguments fixed by the dispatch, up to the
    layouts of the operands. *)
Definition char_args (la lb : MatrixLayout) : TemplateArgs :=
  mkTemplateArgs int8_t int8_t int32_t int32_t int32_t
    (mkShape 128 128 128) (mkShape 64 64 128) (mkShape 16 8 64)
    (mkLinearCombination int32_t (Z.quot 128 (sizeof_bits int32_t)) int32_t int32_t)
    la lb.

Definition half_args (la lb : MatrixLayout) : TemplateArgs :=
  mkTemplateArgs half_t half_t half_t float_t half_t
    (mkShape 128 128 64) (mkShape 64 64 64) (mkShape 16 8 32)
    (mkLinearCombination half_t (Z.quot 128 (sizeof_bits half_t)) float_t half_t)
    la lb.

(** Modelled from the spec: the default branch of [AT_DISPATCH_SWITCH]
    ([ATen/Dispatch.h] is not among the sources).  For a datatype that
    matches no case "unmatched cases are an explicit error branch, never a
    default silent case"; which error that is, is left to the
    environment. *)
Definition AT_DISPATCH_default {A} (env : Env) (st : ScalarType) : M A :=
  throw (unmatched_dtype env st).

(** A default-constructed [Tensor]. *)
Definition undefined_tensor : Tensor := mkTensor kFloat Strided [] [] empty_buffer.

Definition _structured_sparse_linear (env : Env)
    (tensor_a tensor_b mask_or_meta : Tensor) : M (Tensor * Tensor) :=
  (* For now, only CC 8.x devices are supported. *)
  let is_sm8x := major env =? 8 in
  TORCH_CHECK is_sm8x NotSm8x ;;
  (* Validate layouts of input tensors. *)
  TORCH_CHECK (Layout_eqb (layout tensor_a) Strided)
              (ExpectedStrided arg_tensor_a (layout tensor_a)) ;;
  TORCH_CHECK (dim tensor_a =? 2) (Expected2D arg_tensor_a (dim tensor_a)) ;;
  let strides_a := strides tensor_a in
  TORCH_CHECK (((nth 0 strides_a 0 =? 1) || (nth 1 strides_a 0 =? 1))
               && negb (nth 0 strides_a 0 =? nth 1 strides_a 0))
              (InvalidStrides arg_tensor_a (nth 0 strides_a 0) (nth 1 strides_a 0)) ;;
  TORCH_CHECK (Layout_eqb (layout tensor_b) Strided)
              (ExpectedStrided arg_tensor_b (layout tensor_b)) ;;
  TORCH_CHECK (dim tensor_b =? 2) (Expected2D arg_tensor_b (dim tensor_b)) ;;
  let strides_b := strides tensor_b in
  TORCH_CHECK (((nth 0 strides_b 0 =? 1) || (nth 1 strides_b 0 =? 1))
               && negb (nth 0 strides_b 0 =? nth 1 strides_b 0))
              (InvalidStrides arg_tensor_b (nth 0 strides_b 0) (nth 1 strides_b 0)) ;;
  (* Determine layout (row-major or column-major) of input tensors. *)
  let tensor_a_row_major := nth 1 strides_a 0 =? 1 in
  let tensor_a_stride := if tensor_a_row_major then nth 0 strides_a 0 else nth 1 strides_a 0 in
  let tensor_b_row_major := nth 1 strides_b 0 =? 1 in
  let tensor_b_stride := if tensor_b_row_major then nth 0 strides_b 0 else nth 1 strides_b 0 in
  let call targs :=
    two_four_sgemm_cutlass env targs tensor_a tensor_a_stride
                           tensor_b tensor_b_stride mask_or_meta in
  (* AT_DISPATCH_SWITCH(tensor_a.scalar_type(), ...) *)
  match scalar_type tensor_a with
  | kChar =>
      if tensor_a_row_major && negb tensor_b_row_major then
        call (char_args RowMajor ColumnMajor)
      else
        throw (CombinationNotSupported tensor_a_row_major tensor_b_row_major)
  | kHalf =>
      if tensor_a_row_major && tensor_b_row_major then
        call (half_args RowMajor RowMajor)
      else if tensor_a_row_major && negb tensor_b_row_major then
        call (half_args RowMajor ColumnMajor)
      else if negb tensor_a_row_major && tensor_b_row_major then
        call (half_args ColumnMajor RowMajor)
      else if negb tensor_a_row_major && negb tensor_b_row_major then
        call (half_args ColumnMajor ColumnMajor)
      else ret (undefined_tensor, undefined_tensor)
  | st => AT_DISPATCH_default env st
  end.

(** *** Vocabulary of the properties *)

(** The three checks made on each operand: strided, two-dimensional, and
    a unit stride in exactly one dimension. *)
Definition operand_ok (t : Tensor) : bool :=
  Layout_eqb (layout t) Strided
  && (dim t =? 2)
  && (((nth 0 (strides t) 0 =? 1) || (nth 1 (strides t) 0 =? 1))
      && negb (nth 0 (strides t) 0 =? nth 1 (strides t) 0)).

Definition row_major (t : Tensor) : bool := nth 1 (strides t) 0 =? 1.

Definition matrix_layout (t : Tensor) : MatrixLayout :=
  if row_major t then RowMajor else ColumnMajor.

(** The stride handed to the CUTLASS layout of an operand. *)
Definition leading_stride (t : Tensor) : Z :=
  if row_major t then nth 0 (strides t) 0 else nth 1 (strides t) 0.

(** The table of supported combinations, as the specification words it:
    the byte-integer specialization for a row-major sparse operand with a
    column-major dense operand only, the half-precision specialization
    for all four pairings, and nothing else. *)
Definition specialization (st : ScalarType) (la lb : MatrixLayout)
  : option TemplateArgs :=
  match st, la, lb with
  | kChar, RowMajor, ColumnMajor => Some (char_args RowMajor ColumnMajor)
  | kHalf, _, _ => Some (half_args la lb)
  | _, _, _ => None
  end.

(** The element type of the operands that go with a tensor datatype. *)
Definition element_of (st : ScalarType) : option Element :=
  match st with
  | kChar => Some int8_t
  | kHalf => Some half_t
  | _ => None
  end.

(** The divisors of the size checks for a set of template arguments. *)
Definition k_divisor (targs : TemplateArgs) : Z :=
  match ElementInputA targs with half_t => 64 | _ => 128 end.
Definition n_divisor (targs : TemplateArgs) : Z :=
  match ElementInputA targs with half_t => 8 | _ => 16 end.

(** The errors that reject the arguments of a call for their datatype,
    layout, shape, strides or sizes, or the device for its generation. *)
Definition precondition_error (e : Error) : bool :=
  match e with
  | NotSm8x
  | ExpectedStrided _ _
  | Expected2D _ _
  | InvalidStrides _ _ _
  | SparseRowsNotDivisible
  | DenseRowsNotDivisible _
  | DenseColumnsNotDivisible _
  | CombinationNotSupported _ _
  | NotImplementedFor _ => true
  | InvalidOutputDatatype
  | InvalidMetaDatatypeSize
  | MaskNotTwoFourSparse
  | CutlassError _
  | CudaLaunchError _ => false
  end.

(** The three errors of the size checks. *)
Definition size_error (e : Error) : bool :=
  match e with
  | SparseRowsNotDivisible
  | DenseRowsNotDivisible _
  | DenseColumnsNotDivisible _ => true
  | _ => false
  end.

(** The checks made on a boolean mask. *)
Definition mask_ok (mask : Tensor) : bool :=
  Layout_eqb (layout mask) Strided && (dim mask =? 2) && (nth 1 (strides mask) 0 =? 1).

(** The entry of a mask at a row and a column. *)
Definition mask_entry (mask : Tensor) (m c : Z) : Z :=
  as_bool (data mask) (m * stride mask 0 + c * stride mask 1).

(** A tensor with other sizes and everything else unchanged. *)
Definition with_sizes (t : Tensor) (szs : list Z) : Tensor :=
  mkTensor (scalar_type t) (layout t) szs (strides t) (data t).

(** Whether the group of four entries of row [m] of a mask that starts
    at column [4 * k] has exactly two [true] entries and two [false] ones,
    and the code of that group. *)
Definition entries_two_true (mask : Tensor) (m k : Z) : bool :=
  CreateMeta.two_true (mask_entry mask m (4 * k)) (mask_entry mask m (4 * k + 1))
                      (mask_entry mask m (4 * k + 2)) (mask_entry mask m (4 * k + 3)).

Definition entries_code (mask : Tensor) (m k : Z) : Z :=
  fst (CreateMeta.encode (mask_entry mask m (4 * k)) (mask_entry mask m (4 * k + 1))
                         (mask_entry mask m (4 * k + 2)) (mask_entry mask m (4 * k + 3))).

(** No launch of either metadata kernel. *)
Definition no_meta_kernel (ev : Event) : Prop :=
  ev <> ev_launch create_meta_kernel /\ ev <> ev_launch reorder_meta_kernel.

(** The datatype of the metadata tensor for an element size of 1, 2 or 4
    bytes. *)
Definition meta_dtype_of (sizeof : Z) : ScalarType :=
  if sizeof =? 1 then kChar else if sizeof =? 2 then kShort else kInt.

(** A computation whose device operations all satisfy [Pev] and whose
    error, if it ends in one, satisfies [Perr]. *)
Definition Sat {A} (Pev : Event -> Prop) (Perr : Error -> Prop) (c : M A) : Prop :=
  Forall Pev (fst c) /\
  match snd c with
  | inl e => Perr e
  | inr _ => True
  end.

(** An operand with a unit stride in exactly one of its two
    dimensions. *)
Definition one_unit_stride (t : Tensor) : Prop :=
  (nth 0 (strides t) 0 = 1 /\ nth 1 (strides t) 0 <> 1) \/
  (nth 0 (strides t) 0 <> 1 /\ nth 1 (strides t) 0 = 1).

(** A device and two operands that pass every check made before the
    product is allocated: the checks on the device and on each operand, a
    supported combination of datatype and layouts, with [targs] the
    template arguments chosen for it, and the three size checks. *)
Definition accepted (env : Env) (tensor_a tensor_b : Tensor) (targs : TemplateArgs)
  : Prop :=
  major env = 8 /\ operand_ok tensor_a = true /\ operand_ok tensor_b = true /\
  specialization (scalar_type tensor_a)
                 (matrix_layout tensor_a) (matrix_layout tensor_b) = Some targs /\
  size tensor_a 0 mod 32 = 0 /\
  size tensor_b 0 mod k_divisor targs = 0 /\
  size tensor_b 1 mod n_divisor targs = 0.

(** The datatype of the product for the two specializations. *)
Definition product_dtype (targs : TemplateArgs) : ScalarType :=
  match ElementOutput targs with int32_t => kInt | _ => kHalf end.

(** The allocation of the product: the first thing asked of the device. *)
Definition product_allocation (tensor_a tensor_b : Tensor) (targs : TemplateArgs)
  : Event :=
  ev_new_empty [to_int (size tensor_a 0); to_int (size tensor_b 1)] (product_dtype targs).

(** The product tensor as allocated, before the engine has run. *)
Definition product_empty (tensor_a tensor_b : Tensor) (targs : TemplateArgs) : Tensor :=
  mkTensor (product_dtype targs) Strided
           [to_int (size tensor_a 0); to_int (size tensor_b 1)]
           (contiguous_strides [to_int (size tensor_a 0); to_int (size tensor_b 1)])
           empty_buffer.

(** The number of columns of the metadata matrix of a call. *)
Definition meta_columns (G : SparseGemm) (tensor_b : Tensor) : Z :=
  Z.quot (Z.quot (to_int (size tensor_b 0)) (kSparse G)) (kElementsPerElementE G).

(** The arguments a call gives to the engine, for a product tensor [d]
    and reordered metadata [meta]. *)
Definition gemm_arguments (G : SparseGemm) (targs : TemplateArgs)
    (tensor_a tensor_b d meta : Tensor) : Arguments :=
  mkArguments
    (to_int (size tensor_a 0), to_int (size tensor_b 1), to_int (size tensor_b 0))
    (mkOperandRef (LayoutInputA targs) (data tensor_a) (leading_stride tensor_a))
    (mkOperandRef (LayoutInputB targs) (data tensor_b) (leading_stride tensor_b))
    (mkOperandRef RowMajor (data d) (stride d 0))
    (mkOperandRef RowMajor (data d) (stride d 0))
    (mkTensorRef (data meta)
                 (LayoutE_packed G (to_int (size tensor_a 0), meta_columns G tensor_b)))
    (1, 0) 1.

(** The builder as a call launches it on a mask: the state of the
    metadata buffer and of the flag after the kernel.  The metadata matrix
    is freshly allocated, with the row stride of a contiguous matrix of
    its sizes, and the flag is zeroed. *)
Definition built_meta (G : SparseGemm) (tensor_a tensor_b mask : Tensor)
  : CreateMeta.State :=
  CreateMeta.two_four_create_meta_kernel
    (sizeof_ElementE G) (to_int (size tensor_a 0)) (to_int (size tensor_b 0))
    (to_int (nth 0 (strides mask) 0)) (as_bool (data mask))
    (to_int (nth 0 (contiguous_strides [to_int (size tensor_a 0);
                                        meta_columns G tensor_b]) 0))
    (create_meta_launch (to_int (size tensor_a 0)) (to_int (size tensor_b 0)))
    (CreateMeta.mkState empty_buffer 0).

(** The device operations of a call that goes all the way, in their
    order: the allocation of the product; for a boolean mask the six
    operations that build the metadata; the workspace, the initialisation
    and the run of the engine on the metadata [meta]. *)
Definition full_record (G : SparseGemm) (targs : TemplateArgs)
    (tensor_a tensor_b mask_or_meta meta : Tensor) : list Event :=
  let length_m := to_int (size tensor_a 0) in
  let meta_ncols := meta_columns G tensor_b in
  let dtype := meta_dtype_of (sizeof_ElementE G) in
  let args := gemm_arguments G targs tensor_a tensor_b
                (product_empty tensor_a tensor_b targs) meta in
  product_allocation tensor_a tensor_b targs
  :: (if ScalarType_eqb (scalar_type mask_or_meta) kBool
      then [ev_new_empty [length_m; meta_ncols] dtype;
            ev_new_zeros [1] kInt;
            ev_launch create_meta_kernel;
            ev_item;
            ev_new_empty [length_m; meta_ncols] dtype;
            ev_launch reorder_meta_kernel]
      else [])
     ++ [ev_new_empty [get_workspace_size G args] kByte;
         ev_gemm_initialize args;
         ev_gemm_run args].

(** The reorderer as a call launches it on the metadata built from a
    mask: the reordered metadata tensor. *)
Definition reordered_meta (G : SparseGemm) (tensor_a tensor_b mask : Tensor) : Tensor :=
  let length_m := to_int (size tensor_a 0) in
  let meta_ncols := meta_columns G tensor_b in
  mkTensor (meta_dtype_of (sizeof_ElementE G)) Strided [length_m; meta_ncols]
    (contiguous_strides [length_m; meta_ncols])
    (ReorderMeta.two_four_reorder_meta_kernel
       (sizeof_ElementE G) length_m meta_ncols
       (mkTensorRef (CreateMeta.meta (built_meta G tensor_a tensor_b mask))
                    (RowMajor_packed (length_m, meta_ncols)))
       (LayoutE_packed G (length_m, meta_ncols))
       (reorder_meta_launch length_m meta_ncols)
       empty_buffer).

(** Whether a device operation is a step of the engine. *)
Definition is_engine_step (ev : Event) : bool :=
  match ev with
  | ev_gemm_initialize _ | ev_gemm_run _ => true
  | _ => false
  end.

(** The metadata a call gives to the engine: what the two kernels make
    of a boolean mask, and the third argument itself otherwise. *)
Definition call_meta (G : SparseGemm) (tensor_a tensor_b mask_or_meta : Tensor) : Tensor :=
  if ScalarType_eqb (scalar_type mask_or_meta) kBool
  then reordered_meta G tensor_a tensor_b mask_or_meta
  else mask_or_meta.

(** *** A small instance *)

(** An engine that accepts every problem and writes nothing, with the
    constants of the half-precision instance (16-bit metadata elements,
    each covering 16 elements of the reduction dimension). *)
Definition demo_gemm : SparseGemm :=
  mkSparseGemm 2 2 8 RowMajor_packed
    (fun _ => kSuccess) (fun _ => 0) (fun _ => kSuccess)
    (fun _ => (kSuccess, empty_buffer)).

Definition demo_env : Env :=
  mkEnv 8 (fun _ => false) (fun _ => demo_gemm) NotImplementedFor.

(** A mask whose groups of four repeat the pattern (1,1,0,0), (1,0,1,0),
    (0,1,1,0), (1,0,0,1). *)
Definition demo_mask (a : Z) : Z :=
  nth (Z.to_nat (Z.rem a 16))
      [1; 1; 0; 0;  1; 0; 1; 0;
       0; 1; 1; 0;  1; 0; 0; 1] 0.

(** Half-precision operands: a 32 x 32 row-major sparse operand and a
    64 x 8 row-major dense operand, and a 32 x 64 mask. *)
Definition demo_a : Tensor := mkTensor kHalf Strided [32; 32] [32; 1] (fun _ => Some 0).
Definition demo_b : Tensor := mkTensor kHalf Strided [64; 8] [8; 1] (fun _ => Some 0).
Definition demo_mask_tensor : Tensor :=
  mkTensor kBool Strided [32; 64] [64; 1] (fun a => Some (demo_mask a)).

(** A mask of the same shape with no [true] entry at all. *)
Definition demo_bad_mask_tensor : Tensor :=
  mkTensor kBool Strided [32; 64] [64; 1] (fun _ => Some 0).

(** A 32 x 64 mask whose rows lie [2^28] entries apart, such as the
    first 64 columns of a boolean matrix of 32 rows and [2^28] columns:
    rows 0 to 15 follow the pattern of [demo_mask], rows 16 to 31 have no
    [true] entry. *)
Definition far_mask_tensor : Tensor :=
  mkTensor kBool Strided [32; 64] [2 ^ 28; 1]
           (fun a => Some (if a <? 16 * 2 ^ 28 then demo_mask a else 0)).

(** Single-precision operands of the sizes of [demo_a] and [demo_b]. *)
Definition demo_float_a : Tensor := mkTensor kFloat Strided [32; 32] [32; 1] (fun _ => Some 0).
Definition demo_float_b : Tensor := mkTensor kFloat Strided [64; 8] [8; 1] (fun _ => Some 0).

(** The product tensor of a call on [demo_a] and [demo_b]: 32 x 8,
    half precision, contiguous, with whatever the engine left in it. *)
Definition demo_d : Tensor := mkTensor kHalf Strided [32; 8] [8; 1] empty_buffer.

(** A metadata matrix passed in place of a mask. *)
Definition demo_meta_tensor : Tensor :=
  mkTensor kShort Strided [32; 4] [4; 1] (fun _ => Some 17476).

End Dispatch.

(** * Properties *)

(** ** Ranges, threads and stores *)

Lemma in_range_iff (n x : Z) : In x (range n) <-> 0 <= x < n.
Proof.
  unfold range. rewrite in_map_iff. split.
  - intros [i [<- Hi]]. apply in_seq in Hi. lia.
  - intros H. exists (Z.to_nat x). split; [lia |]. apply in_seq. lia.
Qed.

Lemma in_threads_iff (cfg : LaunchConfig) (t : Thread) :
  In t (threads cfg) <->
  0 <= blockIdx_x t < gridDim_x cfg /\ 0 <= blockIdx_y t < gridDim_y cfg /\
  0 <= threadIdx_x t < blockDim_x cfg /\ 0 <= threadIdx_y t < blockDim_y cfg.
Proof.
  unfold threads. rewrite in_flat_map. split.
  - intros [by_ [Hby H]]. apply in_flat_map in H. destruct H as [bx [Hbx H]].
    apply in_flat_map in H. destruct H as [ty [Hty H]].
    apply in_map_iff in H. destruct H as [tx [<- Htx]]. simpl.
    rewrite in_range_iff in *. lia.
  - intros (Hbx & Hby & Htx & Hty). destruct t as [bx by_ tx ty]. simpl in *.
    exists by_. split; [apply in_range_iff; lia |].
    apply in_flat_map. exists bx. split; [apply in_range_iff; lia |].
    apply in_flat_map. exists ty. split; [apply in_range_iff; lia |].
    apply in_map_iff. exists tx. split; [reflexivity | apply in_range_iff; lia].
Qed.

Lemma to_unsigned_small (x : Z) : 0 <= x < 2 ^ 32 -> to_unsigned x = x.
Proof. intros H. unfold to_unsigned. apply Z.mod_small. exact H. Qed.

Lemma to_int_small (x : Z) : - 2 ^ 31 <= x < 2 ^ 31 -> to_int x = x.
Proof. intros H. unfold to_int. rewrite Z.mod_small; lia. Qed.

Lemma run_stores_app {T : Type} (st : T -> option (Z * option Z))
    (l1 l2 : list T) (buf : Buffer) :
  run_stores st (l1 ++ l2) buf = run_stores st l2 (run_stores st l1 buf).
Proof. unfold run_stores. apply fold_left_app. Qed.

(** A cell that no thread stores to keeps its contents. *)
Lemma run_stores_untouched {T : Type} (st : T -> option (Z * option Z))
    (ts : list T) (buf : Buffer) (a : Z) :
  (forall t v, In t ts -> st t <> Some (a, v)) ->
  run_stores st ts buf a = buf a.
Proof.
  revert buf. induction ts as [| x rest IH]; intros buf H; [reflexivity |].
  unfold run_stores in *. simpl.
  rewrite IH by (intros t v Ht; apply H; right; exact Ht).
  destruct (st x) as [[addr v] |] eqn:E; [| reflexivity].
  unfold store. destruct (a =? addr) eqn:Ea; [| reflexivity].
  apply Z.eqb_eq in Ea. subst addr. exfalso. apply (H x v); [left; reflexivity | exact E].
Qed.

(** A cell that some thread stores to, all threads storing to it agreeing
    on the value, ends up with that value, whatever the order. *)
Lemma run_stores_lookup {T : Type} (st : T -> option (Z * option Z))
    (ts : list T) (buf : Buffer) (a : Z) (v : option Z) (t : T) :
  In t ts -> st t = Some (a, v) ->
  (forall t' v', In t' ts -> st t' = Some (a, v') -> v' = v) ->
  run_stores st ts buf a = v.
Proof.
  revert t. induction ts as [| x l IH] using rev_ind; intros t Hin Hst Hagree.
  - destruct Hin.
  - rewrite run_stores_app. unfold run_stores at 1. simpl.
    destruct (st x) as [[addr v'] |] eqn:E.
    + unfold store. destruct (a =? addr) eqn:Ea.
      * apply Z.eqb_eq in Ea. subst addr.
        apply (Hagree x v'); [apply in_or_app; right; left; reflexivity | exact E].
      * apply in_app_or in Hin. destruct Hin as [Hin | [-> | []]].
        -- apply (IH t Hin Hst). intros t' w Ht'. apply Hagree, in_or_app. left. exact Ht'.
        -- rewrite Hst in E. inversion E. subst. rewrite Z.eqb_refl in Ea. discriminate.
    + apply in_app_or in Hin. destruct Hin as [Hin | [-> | []]].
      * apply (IH t Hin Hst). intros t' w Ht'. apply Hagree, in_or_app. left. exact Ht'.
      * rewrite Hst in E. discriminate.
Qed.

(** ** Truncating division on non-negative numbers *)

Ltac nonneg :=
  repeat first
    [ lia
    | apply Z.add_nonneg_nonneg
    | apply Z.mul_nonneg_nonneg
    | apply Z.quot_pos
    | apply Z.rem_nonneg
    | apply Z_div_nonneg_nonneg
    | apply Z_mod_nonneg_nonneg ].

(** Replace [Z.quot] and [Z.rem] of non-negative numbers by [/] and
    [mod], which [Z.div_mod_to_equations] and [lia] deal with. *)
Ltac quot_to_div :=
  repeat match goal with
  | |- context [Z.quot ?a ?b] => rewrite (Z.quot_div_nonneg a b) by nonneg
  | |- context [Z.rem ?a ?b] => rewrite (Z.rem_mod_nonneg a b) by nonneg
  | H : context [Z.quot ?a ?b] |- _ =>
      rewrite (Z.quot_div_nonneg a b) in H by nonneg
  | H : context [Z.rem ?a ?b] |- _ =>
      rewrite (Z.rem_mod_nonneg a b) in H by nonneg
  end.

Ltac div_lia := quot_to_div; Z.div_mod_to_equations; lia.

(** A truncated quotient is positive only for a positive dividend. *)
Lemma quot_pos_inv (a b : Z) : 0 < b -> 0 < Z.quot a b -> 0 <= a.
Proof.
  intros Hb Hq. destruct (Z.le_gt_cases 0 a) as [H | H]; [exact H |].
  exfalso. pose proof (Z.quot_opp_l a b ltac:(lia)) as E.
  assert (0 <= Z.quot (- a) b) by (apply Z.quot_pos; lia). lia.
Qed.

(** ** The reorderer's index map *)

Section ReorderIndex.

Import ReorderMeta.

Variable sizeof_Element : Z.

Lemma group_cases :
  (group sizeof_Element = 32 /\ interweave sizeof_Element = 4) \/
  (group sizeof_Element = 16 /\ interweave sizeof_Element = 2).
Proof. unfold group, interweave. destruct (sizeof_Element =? 2); auto. Qed.

Lemma reorder_row_bounds (M m : Z) :
  Z.rem M (group sizeof_Element) = 0 -> 0 <= m < M ->
  0 <= reorder_row sizeof_Element m < M.
Proof.
  intros HM Hm. assert (0 <= M) by lia. unfold reorder_row.
  destruct group_cases as [[E1 E2] | [E1 E2]]; rewrite ?E1, ?E2 in *; div_lia.
Qed.

Lemma restore_row_bounds (M d : Z) :
  Z.rem M (group sizeof_Element) = 0 -> 0 <= d < M ->
  0 <= restore_row sizeof_Element d < M.
Proof.
  intros HM Hd. assert (0 <= M) by lia. unfold restore_row.
  destruct group_cases as [[E1 E2] | [E1 E2]]; rewrite ?E1, ?E2 in *; div_lia.
Qed.

Lemma restore_reorder_row (m : Z) :
  0 <= m -> restore_row sizeof_Element (reorder_row sizeof_Element m) = m.
Proof.
  intros Hm. unfold restore_row, reorder_row.
  destruct group_cases as [[E1 E2] | [E1 E2]]; rewrite ?E1, ?E2 in *; div_lia.
Qed.

Lemma reorder_restore_row (d : Z) :
  0 <= d -> reorder_row sizeof_Element (restore_row sizeof_Element d) = d.
Proof.
  intros Hd. unfold restore_row, reorder_row.
  destruct group_cases as [[E1 E2] | [E1 E2]]; rewrite ?E1, ?E2 in *; div_lia.
Qed.

(** The group size is even, so a row count it divides is even. *)
Lemma group_even (M : Z) :
  0 <= M -> Z.rem M (group sizeof_Element) = 0 -> Z.rem M 2 = 0.
Proof.
  intros H0 HM. destruct group_cases as [[E _] | [E _]]; rewrite E in HM; div_lia.
Qed.

End ReorderIndex.

Section Swizzle.

Import ReorderMeta.

Lemma swizzle_cases (r c : Z) :
  0 <= r -> 0 <= c ->
  (Z.rem r 2 = 0 /\ Z.rem c 2 = 1 /\ swizzle r c = (r + 1, c - 1)) \/
  (Z.rem r 2 = 1 /\ Z.rem c 2 = 0 /\ swizzle r c = (r - 1, c + 1)) \/
  (Z.rem r 2 = Z.rem c 2 /\ swizzle r c = (r, c)).
Proof.
  intros Hr Hc. unfold swizzle.
  destruct (Z.rem r 2 =? 0) eqn:R0; destruct (Z.rem c 2 =? 1) eqn:C1; simpl.
  - left. rewrite Z.eqb_eq in *. auto.
  - right. right. rewrite Z.eqb_eq in R0. rewrite Z.eqb_neq in C1.
    rewrite R0. simpl. split; [| reflexivity]. revert C1. div_lia.
  - right. right. rewrite Z.eqb_neq in R0. rewrite Z.eqb_eq in C1.
    assert (R1 : Z.rem r 2 = 1) by (revert R0; div_lia).
    rewrite R1, C1. simpl. split; reflexivity.
  - right. left. rewrite Z.eqb_neq in R0, C1.
    assert (R1 : Z.rem r 2 = 1) by (revert R0; div_lia).
    assert (C0 : Z.rem c 2 = 0) by (revert C1; div_lia).
    rewrite R1, C0. simpl. auto.
Qed.

(** The swizzle exchanges the two off-diagonal cells of every 2x2 block:
    it is its own inverse. *)
Lemma swizzle_involutive (r c : Z) :
  0 <= r -> 0 <= c ->
  swizzle (fst (swizzle r c)) (snd (swizzle r c)) = (r, c).
Proof.
  intros Hr Hc.
  destruct (swizzle_cases r c Hr Hc) as [(R & C & E) | [(R & C & E) | (RC & E)]];
    rewrite E; simpl.
  - assert (0 <= c - 1) by (revert C; div_lia).
    destruct (swizzle_cases (r + 1) (c - 1)) as [(R' & _) | [(_ & _ & E') | (RC' & _)]];
      try lia.
    + exfalso. revert R R'. div_lia.
    + rewrite E'. f_equal; lia.
    + exfalso. revert R C RC'. div_lia.
  - assert (0 <= r - 1) by (revert R; div_lia).
    destruct (swizzle_cases (r - 1) (c + 1)) as [(_ & _ & E') | [(R' & _) | (RC' & _)]];
      try lia.
    + rewrite E'. f_equal; lia.
    + exfalso. revert R R'. div_lia.
    + exfalso. revert R C RC'. div_lia.
  - exact E.
Qed.

(** With an even number of rows and of columns the swizzle stays inside
    the matrix. *)
Lemma swizzle_in_grid (M N r c : Z) :
  Z.rem M 2 = 0 -> Z.rem N 2 = 0 ->
  in_grid M N (r, c) -> in_grid M N (swizzle r c).
Proof.
  unfold in_grid. simpl. intros HM HN [Hr Hc].
  assert (0 <= M) by lia. assert (0 <= N) by lia.
  destruct (swizzle_cases r c) as [(R & C & E) | [(R & C & E) | (RC & E)]];
    try lia; rewrite E; simpl.
  - split; [revert HM R | revert C]; div_lia.
  - split; [revert R | revert HN C]; div_lia.
  - lia.
Qed.

End Swizzle.

Section ReorderBijection.

Import ReorderMeta.

Variable sizeof_Element : Z.
Variables M N : Z.
Hypothesis M_groups : Z.rem M (group sizeof_Element) = 0.
Hypothesis N_even : Z.rem N 2 = 0.

Lemma dst_coord_in_grid (m k : Z) :
  in_grid M N (m, k) -> in_grid M N (dst_coord sizeof_Element m k).
Proof.
  intros [Hm Hk]. simpl in *. unfold dst_coord.
  apply swizzle_in_grid; [apply (group_even sizeof_Element); [lia | exact M_groups] | exact N_even |].
  split; simpl; [apply reorder_row_bounds; assumption | exact Hk].
Qed.

Lemma src_coord_in_grid (r c : Z) :
  in_grid M N (r, c) -> in_grid M N (src_coord sizeof_Element r c).
Proof.
  intros H. unfold src_coord.
  assert (HM2 : Z.rem M 2 = 0)
    by (destruct H as [H _]; simpl in H; apply (group_even sizeof_Element); [lia | exact M_groups]).
  pose proof (swizzle_in_grid M N r c HM2 N_even H) as Hs.
  destruct (swizzle r c) as [r' c']. destruct Hs as [Hr Hc]. simpl in *.
  split; simpl; [apply restore_row_bounds; assumption | exact Hc].
Qed.

Lemma src_dst_coord (m k : Z) :
  0 <= m -> 0 <= k ->
  src_coord sizeof_Element (fst (dst_coord sizeof_Element m k))
                           (snd (dst_coord sizeof_Element m k)) = (m, k).
Proof.
  intros Hm Hk. unfold src_coord, dst_coord.
  assert (Hr : 0 <= reorder_row sizeof_Element m).
  { unfold reorder_row.
    destruct (group_cases sizeof_Element) as [[E1 E2] | [E1 E2]]; rewrite E1, E2; nonneg. }
  rewrite (swizzle_involutive _ _ Hr Hk).
  rewrite restore_reorder_row by exact Hm. reflexivity.
Qed.

Lemma dst_src_coord (r c : Z) :
  in_grid M N (r, c) ->
  dst_coord sizeof_Element (fst (src_coord sizeof_Element r c))
                           (snd (src_coord sizeof_Element r c)) = (r, c).
Proof.
  intros H. unfold src_coord, dst_coord.
  assert (HM2 : Z.rem M 2 = 0)
    by (destruct H as [H _]; simpl in H; apply (group_even sizeof_Element); [lia | exact M_groups]).
  pose proof (swizzle_in_grid M N r c HM2 N_even H) as Hs.
  pose proof (swizzle_involutive r c (proj1 (proj1 H)) (proj1 (proj2 H))) as Hi.
  destruct (swizzle r c) as [r' c']. destruct Hs as [Hr Hc]. simpl in *.
  rewrite reorder_restore_row by lia. exact Hi.
Qed.

Lemma dst_coord_injective (m k m' k' : Z) :
  0 <= m -> 0 <= k -> 0 <= m' -> 0 <= k' ->
  dst_coord sizeof_Element m k = dst_coord sizeof_Element m' k' ->
  (m, k) = (m', k').
Proof.
  intros Hm Hk Hm' Hk' E.
  rewrite <- (src_dst_coord m k Hm Hk), <- (src_dst_coord m' k' Hm' Hk').
  rewrite E. reflexivity.
Qed.

Lemma dst_coord_bijection : bijection_on_grid sizeof_Element M N.
Proof.
  split; [exact dst_coord_in_grid |].
  intros r c H.
  pose proof (src_coord_in_grid r c H) as Hs.
  pose proof (dst_src_coord r c H) as Hd.
  destruct (src_coord sizeof_Element r c) as [m k]. simpl in Hd.
  exists m, k. split; [exact Hs |]. split; [exact Hd |].
  intros m' k' [Hm' Hk'] E. simpl in *.
  destruct Hs as [Hm Hk]. simpl in *.
  apply dst_coord_injective; try lia. congruence.
Qed.

End ReorderBijection.

(** ** The reorderer as a kernel *)

Section ReorderKernel.

Import ReorderMeta.

Variable sizeof_Element : Z.
Variables length_m length_k : Z.
Variable src : TensorRef.
Variable dst_layout : Z * Z -> Z.

Let cfg := Dispatch.reorder_meta_launch length_m length_k.

Hypothesis m_int : length_m + 15 < 2 ^ 31.
Hypothesis k_int : length_k + 15 < 2 ^ 31.

Lemma reorder_thread_coords (t : Thread) :
  In t (threads cfg) ->
  k_of cfg t = 16 * blockIdx_x t + threadIdx_x t /\
  m_of cfg t = 16 * blockIdx_y t + threadIdx_y t /\
  0 <= k_of cfg t /\ 0 <= m_of cfg t.
Proof.
  intros H. apply in_threads_iff in H. unfold cfg in H; simpl in H.
  destruct H as (Hbx & Hby & Htx & Hty).
  assert (0 <= length_k + 15) by (apply (quot_pos_inv _ 16); lia).
  assert (0 <= length_m + 15) by (apply (quot_pos_inv _ 16); lia).
  assert (16 * blockIdx_x t + threadIdx_x t < 2 ^ 31) by (revert Hbx Htx; div_lia).
  assert (16 * blockIdx_y t + threadIdx_y t < 2 ^ 31) by (revert Hby Hty; div_lia).
  unfold k_of, m_of, cfg, Dispatch.reorder_meta_launch.
  cbn [blockDim_x blockDim_y].
  rewrite !to_unsigned_small by lia. rewrite !to_int_small by lia. lia.
Qed.

(** Every cell of the matrix has its thread. *)
Lemma reorder_thread_exists (m k : Z) :
  in_grid length_m length_k (m, k) ->
  exists t, In t (threads cfg) /\ m_of cfg t = m /\ k_of cfg t = k.
Proof.
  intros [Hm Hk]. simpl in *.
  exists (mkThread (k / 16) (m / 16) (k mod 16) (m mod 16)).
  assert (Hin : In (mkThread (k / 16) (m / 16) (k mod 16) (m mod 16)) (threads cfg)).
  { apply in_threads_iff. unfold cfg. simpl. repeat split; div_lia. }
  split; [exact Hin |].
  destruct (reorder_thread_coords _ Hin) as (Ek & Em & _).
  cbn [blockIdx_x blockIdx_y threadIdx_x threadIdx_y] in Ek, Em.
  rewrite Ek, Em. split; Z.div_mod_to_equations; lia.
Qed.

End ReorderKernel.

Section ReorderKernelResult.

Import ReorderMeta.

Variable sizeof_Element : Z.
Variables M N : Z.
Variable src : TensorRef.
Variable dst_layout : Z * Z -> Z.
Variable dst : Buffer.

Hypothesis M_groups : Z.rem M (group sizeof_Element) = 0.
Hypothesis N_even : Z.rem N 2 = 0.
Hypothesis M_int : M + 15 < 2 ^ 31.
Hypothesis N_int : N + 15 < 2 ^ 31.
Hypothesis layout_injective :
  forall c c', in_grid M N c -> in_grid M N c' -> dst_layout c = dst_layout c' -> c = c'.

Let cfg := Dispatch.reorder_meta_launch M N.

Lemma reorder_thread_store_inv (t : Thread) (a : Z) (v : option Z) :
  In t (threads cfg) ->
  thread_store sizeof_Element M N src dst_layout cfg t = Some (a, v) ->
  in_grid M N (m_of cfg t, k_of cfg t) /\
  a = dst_layout (dst_coord sizeof_Element (m_of cfg t) (k_of cfg t)) /\
  v = ref_at src (m_of cfg t, k_of cfg t).
Proof.
  intros Hin. unfold thread_store.
  destruct (reorder_thread_coords M N M_int N_int t Hin) as (_ & _ & Hk & Hm).
  fold cfg in Hk, Hm.
  destruct ((m_of cfg t >=? M) || (k_of cfg t >=? N)) eqn:E; [discriminate |].
  apply orb_false_iff in E. destruct E as [E1 E2].
  intros H. inversion H. subst. repeat split; simpl; lia.
Qed.

Lemma reorder_kernel_at (m k : Z) :
  in_grid M N (m, k) ->
  two_four_reorder_meta_kernel sizeof_Element M N src dst_layout cfg dst
    (dst_layout (dst_coord sizeof_Element m k)) = ref_at src (m, k).
Proof.
  intros Hg. destruct (reorder_thread_exists M N M_int N_int m k Hg) as (t & Hin & Em & Ek).
  fold cfg in Hin, Em, Ek.
  unfold two_four_reorder_meta_kernel.
  apply run_stores_lookup with (t := t); [exact Hin | |].
  - unfold thread_store. rewrite Em, Ek.
    destruct Hg as [Hm Hk]. simpl in Hm, Hk.
    replace ((m >=? M) || (k >=? N)) with false; [reflexivity |].
    symmetry. apply orb_false_iff. split; lia.
  - intros t' v' Hin' Hst.
    destruct (reorder_thread_store_inv t' _ _ Hin' Hst) as (Hg' & Ea & ->).
    assert (E : dst_coord sizeof_Element (m_of cfg t') (k_of cfg t')
                = dst_coord sizeof_Element m k).
    { apply layout_injective; [| | symmetry; exact Ea];
        apply dst_coord_in_grid; assumption. }
    destruct Hg as [Hm Hk]. destruct Hg' as [Hm' Hk']. simpl in *.
    apply dst_coord_injective in E; try assumption; try lia.
    inversion E. reflexivity.
Qed.

End ReorderKernelResult.

(** C2, as amended: for a row count divisible by the group size (32 for
    2-byte codes, 16 otherwise) and an even column count, the index map of
    the reorderer is a bijection of the (M, N) grid; the kernel copies the
    element at every (m, k), unchanged, to the cell the map names, so
    reading the result back through the map, or reading cell (r, c)
    through the inverse permutation, recovers the source matrix. *)
Theorem reorder_bijection_even_columns
    (sizeof_Element M N : Z) (src : TensorRef) (dst_layout : Z * Z -> Z) (dst : Buffer) :
  Z.rem M (ReorderMeta.group sizeof_Element) = 0 ->
  Z.rem N 2 = 0 ->
  M + 15 < 2 ^ 31 ->
  N + 15 < 2 ^ 31 ->
  (forall c c', ReorderMeta.in_grid M N c -> ReorderMeta.in_grid M N c' ->
                dst_layout c = dst_layout c' -> c = c') ->
  let reordered :=
    ReorderMeta.two_four_reorder_meta_kernel sizeof_Element M N src dst_layout
      (Dispatch.reorder_meta_launch M N) dst in
  ReorderMeta.bijection_on_grid sizeof_Element M N /\
  (forall m k, ReorderMeta.in_grid M N (m, k) ->
     reordered (dst_layout (ReorderMeta.dst_coord sizeof_Element m k))
     = ref_at src (m, k)) /\
  (forall r c, ReorderMeta.in_grid M N (r, c) ->
     ReorderMeta.in_grid M N (ReorderMeta.src_coord sizeof_Element r c) /\
     reordered (dst_layout (r, c))
     = ref_at src (ReorderMeta.src_coord sizeof_Element r c)).
Proof.
  intros HM HN HMi HNi Hinj reordered.
  split; [apply dst_coord_bijection; assumption |].
  split.
  - intros m k Hg. apply reorder_kernel_at; assumption.
  - intros r c Hg.
    pose proof (src_coord_in_grid sizeof_Element M N HM HN r c Hg) as Hs.
    split; [exact Hs |].
    pose proof (dst_src_coord sizeof_Element M N HM HN r c Hg) as Hd.
    destruct (ReorderMeta.src_coord sizeof_Element r c) as [m k]. simpl in Hd.
    rewrite <- Hd. apply reorder_kernel_at; assumption.
Qed.

(** C2, as stated, fails: 32 rows are a whole group of 2-byte codes, but
    with a single column the element at (8, 0) is sent to (0, 1), a cell
    outside the 32 x 1 matrix. *)
Lemma reorder_odd_columns_not_bijection :
  Z.rem 32 (ReorderMeta.group 2) = 0 /\
  ReorderMeta.dst_coord 2 8 0 = (0, 1) /\
  ~ ReorderMeta.bijection_on_grid 2 32 1.
Proof.
  split; [reflexivity |]. split; [reflexivity |].
  intros [Hin _]. specialize (Hin 8 0).
  assert (H : ReorderMeta.in_grid 32 1 (8, 0)) by (unfold ReorderMeta.in_grid; simpl; lia).
  apply Hin in H. destruct H as [_ H]. simpl in H. lia.
Qed.

(** A group of 32 rows of 2-byte codes in two columns. *)
Lemma reorder_bijection_even_columns_witness :
  let reordered :=
    ReorderMeta.two_four_reorder_meta_kernel 2 32 2
      (mkTensorRef (fun a => Some a) (RowMajor_packed (32, 2)))
      (RowMajor_packed (32, 2))
      (Dispatch.reorder_meta_launch 32 2) empty_buffer in
  ReorderMeta.bijection_on_grid 2 32 2 /\
  (forall m k, ReorderMeta.in_grid 32 2 (m, k) ->
     reordered (RowMajor_packed (32, 2) (ReorderMeta.dst_coord 2 m k))
     = ref_at (mkTensorRef (fun a => Some a) (RowMajor_packed (32, 2))) (m, k)) /\
  (forall r c, ReorderMeta.in_grid 32 2 (r, c) ->
     ReorderMeta.in_grid 32 2 (ReorderMeta.src_coord 2 r c) /\
     reordered (RowMajor_packed (32, 2) (r, c))
     = ref_at (mkTensorRef (fun a => Some a) (RowMajor_packed (32, 2)))
              (ReorderMeta.src_coord 2 r c)).
Proof.
  apply (reorder_bijection_even_columns 2 32 2
           (mkTensorRef (fun a => Some a) (RowMajor_packed (32, 2)))
           (RowMajor_packed (32, 2)) empty_buffer).
  - reflexivity.
  - reflexivity.
  - lia.
  - lia.
  - intros [r c] [r' c'] [H1 H2] [H3 H4] E. unfold RowMajor_packed in E. simpl in *.
    f_equal; lia.
Defined.

(** ** Packing 4-bit codes *)

(** [a | (b << n)] is [a + b * 2^n] when [a] fits in [n] bits. *)
Lemma lor_shiftl_add (a b n : Z) :
  0 <= n -> 0 <= a < 2 ^ n -> 0 <= b ->
  Z.lor a (Z.shiftl b n) = a + b * 2 ^ n.
Proof.
  intros Hn Ha Hb.
  assert (Hland : Z.land a (Z.shiftl b n) = 0).
  { apply Z.bits_inj'. intros i Hi. rewrite Z.land_spec, Z.bits_0.
    destruct (Z.lt_ge_cases i n) as [Hlt | Hge].
    - rewrite Z.shiftl_spec_low by exact Hlt. apply andb_false_r.
    - replace a with (a mod 2 ^ n) by (apply Z.mod_small; exact Ha).
      rewrite Z.mod_pow2_bits_high by lia. reflexivity. }
  rewrite <- Z.lxor_lor by exact Hland.
  rewrite <- Z.add_nocarry_lxor by exact Hland.
  rewrite Z.shiftl_mul_pow2 by exact Hn. reflexivity.
Qed.

Lemma encode_code_range (pos0 pos1 pos2 pos3 : Z) :
  0 <= fst (CreateMeta.encode pos0 pos1 pos2 pos3) < 16.
Proof.
  unfold CreateMeta.encode.
  repeat match goal with
         | |- context [if ?c then _ else _] => destruct c
         end; simpl; lia.
Qed.

Lemma packed_ext (c c' : Z -> Z) (n : nat) :
  (forall j, 0 <= j < Z.of_nat n -> c j = c' j) -> packed c n = packed c' n.
Proof.
  revert c c'. induction n as [| n IH]; intros c c' H; [reflexivity |].
  cbn [packed]. rewrite (H 0) by lia.
  rewrite (IH (fun j => c (j + 1)) (fun j => c' (j + 1))); [reflexivity |].
  intros j Hj. apply H. lia.
Qed.

Lemma packed_range (c : Z -> Z) (n : nat) :
  (forall j, 0 <= j < Z.of_nat n -> 0 <= c j < 16) ->
  0 <= packed c n < 2 ^ (4 * Z.of_nat n).
Proof.
  revert c. induction n as [| n IH]; intros c H.
  - simpl. lia.
  - cbn [packed]. specialize (IH (fun j => c (j + 1))).
    assert (H1 : 0 <= packed (fun j => c (j + 1)) n < 2 ^ (4 * Z.of_nat n))
      by (apply IH; intros j Hj; apply H; lia).
    assert (H0 : 0 <= c 0 < 16) by (apply H; lia).
    replace (4 * Z.of_nat (S n)) with (4 + 4 * Z.of_nat n) by lia.
    rewrite Z.pow_add_r by lia. change (2 ^ 4) with 16. lia.
Qed.

(** Packing [a + b] codes: the first [a], and the other [b] moved up by
    [4 * a] bits. *)
Lemma packed_app (c : Z -> Z) (a b : nat) :
  packed c (a + b)
  = packed c a + packed (fun j => c (j + Z.of_nat a)) b * 2 ^ (4 * Z.of_nat a).
Proof.
  revert c. induction a as [| a IH]; intros c.
  - simpl. rewrite (packed_ext (fun j => c (j + 0)) c) by (intros; f_equal; lia). lia.
  - cbn [packed Nat.add]. rewrite IH.
    rewrite (packed_ext (fun j => c (j + Z.of_nat a + 1)) (fun j => c (j + Z.of_nat (S a))))
      by (intros; f_equal; lia).
    replace (4 * Z.of_nat (S a)) with (4 + 4 * Z.of_nat a) by lia.
    rewrite Z.pow_add_r by lia. change (2 ^ 4) with 16. ring.
Qed.

(** ** The lateral exchange of the builder *)

Section Exchange.

Import CreateMeta.

Variable sizeof_T : Z.
Variables length_m length_k mask_stride : Z.
Variable mask : Z -> Z.
Variable cfg : LaunchConfig.
Hypothesis block_x : blockDim_x cfg = 16.

(** [tile_size] is a power of two. *)
Variable N : nat.
Hypothesis tile_pow : tile_size sizeof_T = Z.of_nat (2 ^ N).

(** The workers of one row of one block: [th x] is the one with
    [threadIdx.x = x]. *)
Variables bx by_ ty : Z.
Hypothesis ty_nonneg : 0 <= ty.

Local Abbreviation th x := (mkThread bx by_ x ty).
Local Abbreviation code x := (fst (thread_code mask_stride mask cfg (th x))).
Local Abbreviation active x := (in_range length_m length_k cfg (th x) = true).

Lemma thread_down_row (x i : Z) :
  0 <= x -> 0 <= i -> x + i < 16 -> thread_down cfg (th x) i = th (x + i).
Proof.
  intros Hx Hi Hlt. unfold thread_down, linear_id. cbn [blockIdx_x blockIdx_y threadIdx_x threadIdx_y].
  rewrite block_x. f_equal; div_lia.
Qed.

Lemma lane_row (x i : Z) :
  0 <= x -> 0 <= i -> x + i < 16 -> lane cfg (th x) + i < warpSize.
Proof.
  intros Hx Hi Hlt. unfold lane, linear_id, warpSize. cbn [threadIdx_x threadIdx_y].
  rewrite block_x. div_lia.
Qed.

Local Abbreviation holds_codes n vals :=
  (CreateMeta.holds_codes length_m length_k mask_stride mask cfg bx by_ ty n vals).

Lemma code_range (x : Z) : 0 <= code x < 16.
Proof. unfold thread_code. apply encode_code_range. Qed.

Lemma holds_codes_start :
  holds_codes 0 (val0 length_m length_k mask_stride mask cfg).
Proof.
  intros x Hx Hle Hact. unfold val0.
  specialize (Hact 0 ltac:(simpl; lia)).
  rewrite Z.add_0_r in Hact. rewrite Hact.
  change (2 ^ 0)%nat with 1%nat. cbn [packed].
  f_equal. replace (x + 0) with x by lia. lia.
Qed.

Lemma holds_codes_step (n : nat) (vals : Thread -> option Z) :
  (S n <= N)%nat ->
  holds_codes n vals ->
  holds_codes (S n) (shfl_step sizeof_T cfg vals (Z.of_nat (2 ^ n))).
Proof.
  intros HnN Hinv x Hx Hle Hact.
  set (i := Z.of_nat (2 ^ n)) in *.
  assert (Hi2 : Z.of_nat (2 ^ S n) = i + i) by (unfold i; simpl; lia).
  assert (Hi : 0 < i) by (unfold i; pose proof (Nat.pow_nonzero 2 n); lia).
  rewrite Hi2 in Hle, Hact.
  unfold shfl_step, shfl_down.
  rewrite (Hinv x) by (try lia; intros j Hj; apply Hact; lia).
  pose proof (lane_row x i ltac:(lia) ltac:(lia) ltac:(lia)) as Hlane.
  apply Z.ltb_lt in Hlane. rewrite Hlane.
  rewrite thread_down_row by lia.
  rewrite (Hinv (x + i)) by
    (try lia; intros j Hj; replace (x + i + j) with (x + (i + j)) by lia; apply Hact; lia).
  f_equal.
  assert (R1 : 0 <= packed (fun j => code (x + j)) (2 ^ n) < 2 ^ (4 * i))
    by (apply packed_range; intros; apply code_range).
  assert (R2 : 0 <= packed (fun j => code (x + i + j)) (2 ^ n) < 2 ^ (4 * i))
    by (apply packed_range; intros; apply code_range).
  rewrite lor_shiftl_add by lia.
  replace (2 ^ S n)%nat with (2 ^ n + 2 ^ n)%nat by (simpl; lia).
  rewrite packed_app. fold i.
  rewrite (packed_ext (fun j => code (x + (j + i))) (fun j => code (x + i + j)))
    by (intros j Hj; replace (x + (j + i)) with (x + i + j) by lia; reflexivity).
  unfold to_width. apply Z.mod_small.
  assert (Hw : 2 ^ (4 * i) * 2 ^ (4 * i) <= 2 ^ (8 * sizeof_T)).
  { rewrite <- Z.pow_add_r by lia. apply Z.pow_le_mono_r; [lia |].
    unfold tile_size in tile_pow.
    assert (Z.of_nat (2 ^ S n) <= Z.of_nat (2 ^ N))
      by (apply Nat2Z.inj_le, Nat.pow_le_mono_r; lia).
    lia. }
  nia.
Qed.

(** The loop runs until [i] reaches [tile_size]. *)
Lemma shfl_loop_holds (fuel n : nat) (vals : Thread -> option Z) :
  (n <= N)%nat -> (N - n <= fuel)%nat ->
  holds_codes n vals ->
  holds_codes N (shfl_loop sizeof_T cfg fuel (Z.of_nat (2 ^ n)) vals).
Proof.
  revert n vals. induction fuel as [| fuel IH]; intros n vals HnN Hfuel Hinv.
  - assert (n = N) by lia. subst n. exact Hinv.
  - cbn [shfl_loop]. rewrite tile_pow.
    destruct (Z.of_nat (2 ^ n) <? Z.of_nat (2 ^ N)) eqn:E.
    + apply Z.ltb_lt in E.
      assert (n <> N) by (intros ->; lia).
      replace (Z.of_nat (2 ^ n) * 2) with (Z.of_nat (2 ^ S n)) by (simpl; lia).
      apply IH; [lia | lia |]. apply holds_codes_step; [lia | exact Hinv].
    + apply Z.ltb_ge in E.
      assert (n = N).
      { destruct (Nat.eq_dec n N) as [| Hne]; [assumption |]. exfalso.
        assert (2 ^ n < 2 ^ N)%nat by (apply Nat.pow_lt_mono_r; lia). lia. }
      subst n. exact Hinv.
Qed.

Lemma val_final_holds :
  holds_codes N (val_final sizeof_T length_m length_k mask_stride mask cfg).
Proof.
  unfold val_final. change 1 with (Z.of_nat (2 ^ 0)).
  apply shfl_loop_holds; [lia | | exact holds_codes_start].
  rewrite tile_pow, Nat2Z.id.
  pose proof (Nat.pow_gt_lin_r 2 N). lia.
Qed.

End Exchange.

(** The loop of the builder ends: once [i] has reached [tile_size], or the
    rounds left for it to get there are no more than the fuel, further
    fuel changes nothing.  [val_final] gives the loop [tile_size] rounds,
    which is enough for any [tile_size]. *)
Lemma shfl_loop_fuel (sizeof_T : Z) (cfg : LaunchConfig) (fuel : nat) (i : Z)
    (vals : Thread -> option Z) :
  1 <= i -> CreateMeta.tile_size sizeof_T - i <= Z.of_nat fuel ->
  CreateMeta.shfl_loop sizeof_T cfg (S fuel) i vals
  = CreateMeta.shfl_loop sizeof_T cfg fuel i vals.
Proof.
  revert i vals. induction fuel as [| fuel IH]; intros i vals Hi Hfuel.
  - cbn [CreateMeta.shfl_loop].
    replace (i <? CreateMeta.tile_size sizeof_T) with false; [reflexivity |].
    symmetry. apply Z.ltb_ge. lia.
  - cbn [CreateMeta.shfl_loop]. cbn [CreateMeta.shfl_loop] in IH.
    destruct (i <? CreateMeta.tile_size sizeof_T); [| reflexivity].
    apply IH; lia.
Qed.

Lemma val_final_fuel (sizeof_T length_m length_k mask_stride : Z) (mask : Z -> Z)
    (cfg : LaunchConfig) (extra : nat) :
  CreateMeta.shfl_loop sizeof_T cfg (Z.to_nat (CreateMeta.tile_size sizeof_T) + extra) 1
    (CreateMeta.val0 length_m length_k mask_stride mask cfg)
  = CreateMeta.val_final sizeof_T length_m length_k mask_stride mask cfg.
Proof.
  unfold CreateMeta.val_final. induction extra as [| extra IH].
  - rewrite Nat.add_0_r. reflexivity.
  - rewrite Nat.add_succ_r, shfl_loop_fuel by lia. exact IH.
Qed.

(** ** The builder under the launch of the host function *)

Section BuilderLaunch.

Import CreateMeta.

Variables length_m length_k : Z.

Let cfg := Dispatch.create_meta_launch length_m length_k.

Hypothesis m_int : 0 <= length_m < 2 ^ 31 - 15.
Hypothesis k_int : 0 <= length_k < 2 ^ 31 - 63.

Lemma create_thread_coords (t : Thread) :
  In t (threads cfg) ->
  k_of cfg t = 16 * blockIdx_x t + threadIdx_x t /\
  m_of cfg t = 16 * blockIdx_y t + threadIdx_y t /\
  0 <= blockIdx_x t /\ 0 <= blockIdx_y t /\
  0 <= threadIdx_x t < 16 /\ 0 <= threadIdx_y t < 16.
Proof.
  intros H. apply in_threads_iff in H.
  unfold cfg, Dispatch.create_meta_launch in H.
  cbn [gridDim_x gridDim_y blockDim_x blockDim_y] in H.
  destruct H as (Hbx & Hby & Htx & Hty).
  assert (16 * blockIdx_x t + threadIdx_x t < 2 ^ 31) by (revert Hbx Htx; div_lia).
  assert (16 * blockIdx_y t + threadIdx_y t < 2 ^ 31) by (revert Hby Hty; div_lia).
  unfold k_of, m_of, cfg, Dispatch.create_meta_launch.
  cbn [blockDim_x blockDim_y].
  rewrite !to_unsigned_small by lia. lia.
Qed.

(** The grid covers every group of every row. *)
Lemma create_thread_exists (m k : Z) :
  0 <= m < length_m -> 0 <= k < Z.quot length_k 4 ->
  exists t, In t (threads cfg) /\ m_of cfg t = m /\ k_of cfg t = k /\
            in_range length_m length_k cfg t = true.
Proof.
  intros Hm Hk.
  exists (mkThread (k / 16) (m / 16) (k mod 16) (m mod 16)).
  assert (Hin : In (mkThread (k / 16) (m / 16) (k mod 16) (m mod 16)) (threads cfg)).
  { apply in_threads_iff. unfold cfg, Dispatch.create_meta_launch.
    cbn [gridDim_x gridDim_y blockDim_x blockDim_y blockIdx_x blockIdx_y threadIdx_x threadIdx_y].
    repeat split; revert Hk; div_lia. }
  split; [exact Hin |].
  destruct (create_thread_coords _ Hin) as (Ek & Em & _).
  cbn [blockIdx_x blockIdx_y threadIdx_x threadIdx_y] in Ek, Em.
  assert (Em' : m_of cfg (mkThread (k / 16) (m / 16) (k mod 16) (m mod 16)) = m)
    by (rewrite Em; Z.div_mod_to_equations; lia).
  assert (Ek' : k_of cfg (mkThread (k / 16) (m / 16) (k mod 16) (m mod 16)) = k)
    by (rewrite Ek; Z.div_mod_to_equations; lia).
  split; [exact Em' |]. split; [exact Ek' |].
  unfold in_range. rewrite Em', Ek'.
  rewrite !to_unsigned_small by (try lia; revert Hk; div_lia).
  apply andb_true_iff. split; apply Z.ltb_lt; lia.
Qed.

Lemma in_range_inv (t : Thread) :
  In t (threads cfg) -> in_range length_m length_k cfg t = true ->
  0 <= m_of cfg t < length_m /\ 0 <= k_of cfg t < Z.quot length_k 4.
Proof.
  intros Hin H. destruct (create_thread_coords t Hin) as (Ek & Em & ?).
  unfold in_range in H. apply andb_true_iff in H. destruct H as [H1 H2].
  apply Z.ltb_lt in H1, H2.
  rewrite to_unsigned_small in H1 by lia.
  rewrite to_unsigned_small in H2 by div_lia.
  lia.
Qed.

End BuilderLaunch.

(** The store of a worker in range, and the other workers of its unit. *)
Lemma unit_store
    (sizeof_T length_m length_k mask_stride : Z) (mask : Z -> Z)
    (meta_stride bx by_ tx ty : Z) :
  sizeof_T = 1 \/ sizeof_T = 2 \/ sizeof_T = 4 ->
  0 <= length_m < 2 ^ 31 - 15 ->
  0 <= length_k < 2 ^ 31 - 63 ->
  Z.rem (Z.quot length_k 4) (CreateMeta.tile_size sizeof_T) = 0 ->
  let cfg := Dispatch.create_meta_launch length_m length_k in
  let worker x := mkThread bx by_ x ty in
  let tile_size := CreateMeta.tile_size sizeof_T in
  In (worker tx) (threads cfg) ->
  CreateMeta.in_range length_m length_k cfg (worker tx) = true ->
  CreateMeta.thread_store sizeof_T length_m length_k mask_stride mask meta_stride
                          cfg (worker tx)
  = (if Z.rem (CreateMeta.k_of cfg (worker tx)) tile_size =? 0 then
       Some (to_unsigned (CreateMeta.m_of cfg (worker tx) * meta_stride)
             + Z.quot (CreateMeta.k_of cfg (worker tx)) tile_size,
             Some (packed
                     (fun j => fst (CreateMeta.thread_code mask_stride mask cfg
                                      (worker (tx + j))))
                     (Z.to_nat tile_size)))
     else None) /\
  (Z.rem (CreateMeta.k_of cfg (worker tx)) tile_size = 0 ->
   forall j, 0 <= j < tile_size ->
     In (worker (tx + j)) (threads cfg) /\
     CreateMeta.in_range length_m length_k cfg (worker (tx + j)) = true /\
     CreateMeta.m_of cfg (worker (tx + j)) = CreateMeta.m_of cfg (worker tx) /\
     CreateMeta.k_of cfg (worker (tx + j)) = CreateMeta.k_of cfg (worker tx) + j /\
     Z.quot (CreateMeta.k_of cfg (worker (tx + j))) tile_size
     = Z.quot (CreateMeta.k_of cfg (worker tx)) tile_size).
Proof.
  intros Hsz Hm Hk Hdiv cfg worker tile_size Hin Hrange.
  destruct (create_thread_coords length_m length_k Hm Hk _ Hin)
    as (Ek & Em & Hbx & Hby & Htx & Hty).
  fold cfg in Ek, Em. cbn [worker blockIdx_x blockIdx_y threadIdx_x threadIdx_y] in *.
  destruct (in_range_inv length_m length_k Hm Hk _ Hin Hrange) as [Hmr Hkr].
  fold cfg in Hmr, Hkr.
  assert (Htile : tile_size = 2 \/ tile_size = 4 \/ tile_size = 8)
    by (unfold tile_size, CreateMeta.tile_size; lia).
  fold tile_size in Hdiv.
  (* the other workers of the unit *)
  assert (Hunit : Z.rem (CreateMeta.k_of cfg (worker tx)) tile_size = 0 ->
                  forall j, 0 <= j < tile_size ->
                    In (worker (tx + j)) (threads cfg) /\
                    CreateMeta.in_range length_m length_k cfg (worker (tx + j)) = true /\
                    CreateMeta.m_of cfg (worker (tx + j)) = CreateMeta.m_of cfg (worker tx) /\
                    CreateMeta.k_of cfg (worker (tx + j)) = CreateMeta.k_of cfg (worker tx) + j /\
                    Z.quot (CreateMeta.k_of cfg (worker (tx + j))) tile_size
                    = Z.quot (CreateMeta.k_of cfg (worker tx)) tile_size).
  { intros Hk0 j Hj.
    assert (Hin' : In (worker (tx + j)) (threads cfg)).
    { apply in_threads_iff in Hin. apply in_threads_iff.
      cbn [worker blockIdx_x blockIdx_y threadIdx_x threadIdx_y] in *.
      unfold cfg, Dispatch.create_meta_launch in *. cbn [blockDim_x blockDim_y gridDim_x gridDim_y] in *.
      repeat split; try lia.
      rewrite Ek in Hk0. revert Hk0.
      destruct Htile as [E | [E | E]]; rewrite E in *; div_lia. }
    destruct (create_thread_coords length_m length_k Hm Hk _ Hin')
      as (Ek' & Em' & _).
    fold cfg in Ek', Em'. cbn [worker blockIdx_x blockIdx_y threadIdx_x threadIdx_y] in Ek', Em'.
    assert (Ekj : CreateMeta.k_of cfg (worker (tx + j)) = CreateMeta.k_of cfg (worker tx) + j)
      by (rewrite Ek, Ek'; lia).
    assert (Emj : CreateMeta.m_of cfg (worker (tx + j)) = CreateMeta.m_of cfg (worker tx))
      by (rewrite Em, Em'; lia).
    split; [exact Hin' |].
    assert (Hlt : CreateMeta.k_of cfg (worker tx) + j < Z.quot length_k 4).
    { revert Hk0 Hdiv Hkr.
      destruct Htile as [E | [E | E]]; rewrite E in *; div_lia. }
    split; [| split; [exact Emj | split; [exact Ekj |]]].
    - unfold CreateMeta.in_range. rewrite Emj, Ekj.
      rewrite !to_unsigned_small by (try lia; div_lia).
      apply andb_true_iff. split; apply Z.ltb_lt; lia.
    - rewrite Ekj. revert Hk0.
      destruct Htile as [E | [E | E]]; rewrite E in *; div_lia. }
  split; [| exact Hunit].
  unfold CreateMeta.thread_store. rewrite Hrange. cbn [andb]. fold tile_size.
  destruct (Z.rem (CreateMeta.k_of cfg (worker tx)) tile_size =? 0) eqn:E0; [| reflexivity].
  apply Z.eqb_eq in E0. specialize (Hunit E0).
  assert (Hpow : exists N : nat, tile_size = Z.of_nat (2 ^ N)).
  { destruct Htile as [E | [E | E]]; rewrite E;
      [exists 1%nat | exists 2%nat | exists 3%nat]; reflexivity. }
  destruct Hpow as [N HN].
  pose proof (val_final_holds sizeof_T length_m length_k mask_stride mask cfg
                eq_refl N HN bx by_ ty ltac:(lia)) as Hv.
  unfold CreateMeta.holds_codes in Hv. rewrite <- HN in Hv.
  unfold worker in *. cbv beta in *.
  rewrite (Hv tx); [rewrite HN, Nat2Z.id; reflexivity | lia | |].
  - rewrite Ek in E0. revert E0.
    destruct Htile as [E | [E | E]]; rewrite E in *; div_lia.
  - intros j Hj. apply (Hunit j Hj).
Qed.

(** ** The metadata matrix after the builder *)

Section BuilderContents.

Import CreateMeta.

Variable sizeof_T : Z.
Variables length_m length_k mask_stride : Z.
Variable mask : Z -> Z.
Variable meta_stride : Z.

Let cfg := Dispatch.create_meta_launch length_m length_k.
Let tile := tile_size sizeof_T.

Hypothesis sizeof_cases : sizeof_T = 1 \/ sizeof_T = 2 \/ sizeof_T = 4.
Hypothesis m_int : 0 <= length_m < 2 ^ 31 - 15.
Hypothesis k_int : 0 <= length_k < 2 ^ 31 - 63.
Hypothesis units_whole : Z.rem (Z.quot length_k 4) tile = 0.

Lemma thread_code_group_code (t : Thread) :
  fst (thread_code mask_stride mask cfg t)
  = group_code mask_stride mask (m_of cfg t) (k_of cfg t).
Proof. reflexivity. Qed.

(** The store of the first worker of a unit, in terms of the groups of
    the mask. *)
Lemma unit_store_codes (t : Thread) :
  In t (threads cfg) -> in_range length_m length_k cfg t = true ->
  Z.rem (k_of cfg t) tile = 0 ->
  thread_store sizeof_T length_m length_k mask_stride mask meta_stride cfg t
  = Some (to_unsigned (m_of cfg t * meta_stride) + Z.quot (k_of cfg t) tile,
          Some (packed (fun j => group_code mask_stride mask (m_of cfg t) (k_of cfg t + j))
                       (Z.to_nat tile))).
Proof.
  intros Hin Hrange Hk0. destruct t as [bx by_ tx ty].
  destruct (unit_store sizeof_T length_m length_k mask_stride mask meta_stride
              bx by_ tx ty sizeof_cases m_int k_int units_whole Hin Hrange)
    as [Hst Hunit].
  cbv zeta in Hst, Hunit. fold cfg tile in Hst, Hunit.
  rewrite Hst. apply Z.eqb_eq in Hk0. rewrite Hk0. f_equal. f_equal. f_equal.
  apply packed_ext. intros j Hj.
  apply Z.eqb_eq in Hk0.
  assert (Htile : 0 <= tile) by (unfold tile, tile_size; lia).
  destruct (Hunit Hk0 j ltac:(lia)) as (_ & _ & Em & Ek & _).
  rewrite thread_code_group_code, Em, Ek. reflexivity.
Qed.

Lemma kernel_meta (s : State) :
  meta (two_four_create_meta_kernel sizeof_T length_m length_k mask_stride mask
                                    meta_stride cfg s)
  = run_stores (thread_store sizeof_T length_m length_k mask_stride mask meta_stride cfg)
               (threads cfg) (meta s).
Proof.
  unfold two_four_create_meta_kernel, run_stores.
  generalize (threads cfg) as ts. intros ts. revert s.
  induction ts as [| t ts IH]; intros s; [reflexivity |].
  cbn [fold_left]. rewrite IH. f_equal.
  unfold thread_effect, thread_store.
  destruct (in_range length_m length_k cfg t); cbn [andb]; [| reflexivity].
  destruct (snd (thread_code mask_stride mask cfg t));
    destruct (Z.rem (k_of cfg t) (tile_size sizeof_T) =? 0); reflexivity.
Qed.

Hypothesis row_fits : Z.quot (Z.quot length_k 4) tile <= meta_stride.
Hypothesis meta_addressable : length_m * meta_stride <= 2 ^ 32.

(** After the kernel, unit [c] of row [m] of the metadata matrix holds
    the codes of the groups [c * tile_size], ..., [c * tile_size +
    tile_size - 1] of row [m] of the mask, the first in its lowest four
    bits. *)
Lemma builder_meta_contents (s : State) (m c : Z) :
  0 <= m < length_m -> 0 <= c < Z.quot (Z.quot length_k 4) tile ->
  meta (two_four_create_meta_kernel sizeof_T length_m length_k mask_stride mask
                                    meta_stride cfg s)
       (m * meta_stride + c)
  = Some (packed (fun j => group_code mask_stride mask m (c * tile + j)) (Z.to_nat tile)).
Proof.
  intros Hm Hc. rewrite kernel_meta.
  assert (Htile : tile = 2 \/ tile = 4 \/ tile = 8)
    by (unfold tile, tile_size; lia).
  assert (Hkr : 0 <= c * tile < Z.quot length_k 4).
  { pose proof units_whole as Hu.
    destruct Htile as [E | [E | E]]; rewrite E in Hc, Hu |- *; div_lia. }
  assert (Hwrap : forall m', 0 <= m' < length_m ->
            to_unsigned (m' * meta_stride) = m' * meta_stride).
  { intros m' Hm'. apply to_unsigned_small. nia. }
  destruct (create_thread_exists length_m length_k m_int k_int m (c * tile) Hm Hkr)
    as (t & Hin & Em & Ek & Hrange).
  fold cfg in Hin, Em, Ek, Hrange.
  assert (Hk0 : Z.rem (k_of cfg t) tile = 0)
    by (rewrite Ek; destruct Htile as [E | [E | E]]; rewrite E; div_lia).
  apply run_stores_lookup with (t := t); [exact Hin | |].
  - rewrite (unit_store_codes t Hin Hrange Hk0), Em, Ek, Hwrap by exact Hm.
    replace (Z.quot (c * tile) tile) with c
      by (destruct Htile as [E | [E | E]]; rewrite E; div_lia).
    reflexivity.
  - intros t' v' Hin' Hst'.
    assert (Hr' : in_range length_m length_k cfg t' = true
                  /\ Z.rem (k_of cfg t') tile = 0).
    { unfold thread_store in Hst'. fold tile in Hst'.
      destruct (in_range length_m length_k cfg t'); [| discriminate Hst'].
      destruct (Z.rem (k_of cfg t') tile =? 0) eqn:E0; [| discriminate Hst'].
      apply Z.eqb_eq in E0. auto. }
    destruct Hr' as [Hrange' Hk0'].
    rewrite (unit_store_codes t' Hin' Hrange' Hk0') in Hst'.
    destruct (in_range_inv length_m length_k m_int k_int t' Hin' Hrange') as [Hm' Hk'].
    fold cfg in Hm', Hk'.
    rewrite Hwrap in Hst' by exact Hm'.
    inversion Hst' as [[Haddr Hv]]. clear Hst'.
    assert (Hc' : 0 <= Z.quot (k_of cfg t') tile < Z.quot (Z.quot length_k 4) tile).
    { pose proof units_whole as Hu.
      destruct Htile as [E | [E | E]]; rewrite E in Hk0', Hu |- *; div_lia. }
    assert (Emm : m_of cfg t' = m) by nia.
    assert (Ecc : Z.quot (k_of cfg t') tile = c) by nia.
    assert (Ekk : k_of cfg t' = c * tile).
    { rewrite <- Ecc.
      destruct Htile as [E | [E | E]]; rewrite E in Hk0' |- *; div_lia. }
    rewrite Emm.
    f_equal. apply packed_ext. intros j Hj. rewrite Ekk. reflexivity.
Qed.

End BuilderContents.


(** ** Host computations *)

Section HostMonad.

Import Dispatch.
Local Open Scope host_scope.

Lemma bind_ret_l {A B} (x : A) (f : A -> M B) : bind (ret x) f = f x.
Proof. unfold bind, ret. destruct (f x) as [evs r]. reflexivity. Qed.

Lemma bind_throw {A B} (e : Error) (f : A -> M B) : bind (throw e) f = throw e.
Proof. reflexivity. Qed.

Lemma bind_tell {B} (ev : Event) (f : unit -> M B) :
  bind (tell ev) f = (ev :: fst (f tt), snd (f tt)).
Proof. unfold bind, tell. destruct (f tt) as [evs r]. reflexivity. Qed.

Lemma TORCH_CHECK_true (e : Error) : TORCH_CHECK true e = ret tt.
Proof. reflexivity. Qed.

Lemma TORCH_CHECK_false (e : Error) : TORCH_CHECK false e = throw e.
Proof. reflexivity. Qed.

Lemma bind_inr_inv {A B} (c : M A) (f : A -> M B) (tr : list Event) (y : B) :
  bind c f = (tr, inr y) ->
  exists tr1 x tr2, c = (tr1, inr x) /\ f x = (tr2, inr y) /\ tr = tr1 ++ tr2.
Proof.
  unfold bind. destruct c as [tr1 [e | x]]; [discriminate |].
  destruct (f x) as [tr2 r] eqn:E. intros H. inversion H. subst.
  exists tr1, x, tr2. auto.
Qed.

Lemma TORCH_CHECK_inr_inv (cond : bool) (e : Error) (tr : list Event) (u : unit) :
  TORCH_CHECK cond e = (tr, inr u) -> cond = true /\ tr = [].
Proof.
  destruct cond; unfold TORCH_CHECK, ret, throw; intros H; inversion H; auto.
Qed.

Section Sat.

Variable Pev : Event -> Prop.
Variable Perr : Error -> Prop.

Lemma Sat_ret {A} (x : A) : Sat Pev Perr (ret x).
Proof. split; simpl; auto. Qed.

Lemma Sat_throw {A} (e : Error) : Perr e -> Sat (A := A) Pev Perr (throw e).
Proof. intros H. split; simpl; auto. Qed.

Lemma Sat_tell (ev : Event) : Pev ev -> Sat Pev Perr (tell ev).
Proof. intros H. split; simpl; auto. Qed.

Lemma Sat_bind {A B} (c : M A) (f : A -> M B) :
  Sat Pev Perr c -> (forall x, Sat Pev Perr (f x)) -> Sat Pev Perr (bind c f).
Proof.
  intros [Hc1 Hc2] Hf. unfold bind. destruct c as [tr [e | x]]; simpl in *.
  - split; assumption.
  - destruct (Hf x) as [H1 H2]. destruct (f x) as [tr2 r]. simpl in *.
    split; [apply Forall_app; split; assumption | exact H2].
Qed.

Lemma Sat_TORCH_CHECK (cond : bool) (e : Error) :
  (cond = false -> Perr e) -> Sat Pev Perr (TORCH_CHECK cond e).
Proof.
  intros H. destruct cond; [apply Sat_ret | apply Sat_throw; auto].
Qed.

Lemma Sat_new_empty (szs : list Z) (dtype : ScalarType) :
  Pev (ev_new_empty szs dtype) -> Sat Pev Perr (new_empty szs dtype).
Proof.
  intros H. unfold new_empty. apply Sat_bind; [apply Sat_tell; exact H |].
  intros _. apply Sat_ret.
Qed.

Lemma Sat_new_zeros (szs : list Z) (dtype : ScalarType) :
  Pev (ev_new_zeros szs dtype) -> Sat Pev Perr (new_zeros szs dtype).
Proof.
  intros H. unfold new_zeros. apply Sat_bind; [apply Sat_tell; exact H |].
  intros _. apply Sat_ret.
Qed.

End Sat.

End HostMonad.

(** ** The dispatch on datatype and layouts *)

Section DispatchTable.

Import Dispatch.
Local Open Scope host_scope.

Lemma operand_ok_inv (t : Tensor) :
  operand_ok t = true ->
  Layout_eqb (layout t) Strided = true /\ (dim t =? 2) = true /\
  ((nth 0 (strides t) 0 =? 1) || (nth 1 (strides t) 0 =? 1))
  && negb (nth 0 (strides t) 0 =? nth 1 (strides t) 0) = true.
Proof.
  unfold operand_ok. intros H.
  apply andb_true_iff in H. destruct H as [H H3].
  apply andb_true_iff in H. destruct H as [H1 H2]. auto.
Qed.

Lemma dispatch_reduces (env : Env) (tensor_a tensor_b mask_or_meta : Tensor) :
  major env = 8 -> operand_ok tensor_a = true -> operand_ok tensor_b = true ->
  _structured_sparse_linear env tensor_a tensor_b mask_or_meta =
  match specialization (scalar_type tensor_a)
                       (matrix_layout tensor_a) (matrix_layout tensor_b) with
  | Some targs =>
      two_four_sgemm_cutlass env targs tensor_a (leading_stride tensor_a)
                             tensor_b (leading_stride tensor_b) mask_or_meta
  | None =>
      match scalar_type tensor_a with
      | kChar | kHalf =>
          throw (CombinationNotSupported (row_major tensor_a) (row_major tensor_b))
      | st => throw (unmatched_dtype env st)
      end
  end.
Proof.
  intros Hsm Ha Hb.
  destruct (operand_ok_inv _ Ha) as (Ha1 & Ha2 & Ha3).
  destruct (operand_ok_inv _ Hb) as (Hb1 & Hb2 & Hb3).
  unfold _structured_sparse_linear.
  rewrite Hsm, Ha1, Ha2, Ha3, Hb1, Hb2, Hb3. change (8 =? 8) with true.
  rewrite !TORCH_CHECK_true, !bind_ret_l.
  unfold matrix_layout, leading_stride, row_major, AT_DISPATCH_default.
  destruct (scalar_type tensor_a);
    destruct (nth 1 (strides tensor_a) 0 =? 1);
    destruct (nth 1 (strides tensor_b) 0 =? 1); reflexivity.
Qed.

End DispatchTable.



(** ** What a call does to the device, and which errors it can end in *)

(** Take a computation apart along its [bind]s, checks and branches. *)
Ltac sat_step :=
  match goal with
  | |- Dispatch.Sat _ _ (Dispatch.bind _ _) => apply Sat_bind; [| intros ?]
  | |- Dispatch.Sat _ _ (Dispatch.ret _) => apply Sat_ret
  | |- Dispatch.Sat _ _ (Dispatch.TORCH_CHECK _ _) => apply Sat_TORCH_CHECK; intros ?
  | |- Dispatch.Sat _ _ (Dispatch.CUTLASS_STATUS_CHECK _) =>
      unfold Dispatch.CUTLASS_STATUS_CHECK
  | |- Dispatch.Sat _ _ (Dispatch.C10_CUDA_KERNEL_LAUNCH_CHECK _ _) =>
      unfold Dispatch.C10_CUDA_KERNEL_LAUNCH_CHECK
  | |- Dispatch.Sat _ _ (Dispatch.AT_DISPATCH_default _ _) =>
      unfold Dispatch.AT_DISPATCH_default
  | |- Dispatch.Sat _ _ (Dispatch.throw _) => apply Sat_throw
  | |- Dispatch.Sat _ _ (Dispatch.tell _) => apply Sat_tell
  | |- Dispatch.Sat _ _ (Dispatch.new_empty _ _) => apply Sat_new_empty
  | |- Dispatch.Sat _ _ (Dispatch.new_zeros _ _) => apply Sat_new_zeros
  | |- Dispatch.Sat _ _ (if ?c then _ else _) => destruct c eqn:?
  | |- Dispatch.Sat _ _ (match ?x with _ => _ end) => destruct x eqn:?
  end.

Ltac sat := repeat sat_step.

Section Effects.

Import Dispatch.
Local Open Scope host_scope.

Variable env : Env.

Lemma sparse_gemm_no_meta_kernel (targs : TemplateArgs)
    (length_m length_n length_k meta_ncols : Z)
    (tensor_a : Tensor) (sa : Z) (tensor_b : Tensor) (sb : Z) (d meta : Tensor) :
  Sat no_meta_kernel (fun _ => True)
      (sparse_gemm env targs length_m length_n length_k meta_ncols
                   tensor_a sa tensor_b sb d meta).
Proof.
  unfold sparse_gemm. sat; try exact I; split; discriminate.
Qed.

Lemma wrapper_no_meta_kernel (targs : TemplateArgs)
    (tensor_a : Tensor) (sa : Z) (tensor_b : Tensor) (sb : Z) (mask_or_meta : Tensor) :
  ScalarType_eqb (scalar_type mask_or_meta) kBool = false ->
  Sat no_meta_kernel (fun _ => True)
      (two_four_sgemm_cutlass env targs tensor_a sa tensor_b sb mask_or_meta).
Proof.
  intros Hnb. unfold two_four_sgemm_cutlass. rewrite Hnb.
  sat; try exact I; try (split; discriminate).
  apply sparse_gemm_no_meta_kernel.
Qed.

Lemma dispatch_no_meta_kernel (tensor_a tensor_b mask_or_meta : Tensor) :
  ScalarType_eqb (scalar_type mask_or_meta) kBool = false ->
  Sat no_meta_kernel (fun _ => True)
      (_structured_sparse_linear env tensor_a tensor_b mask_or_meta).
Proof.
  intros Hnb. unfold _structured_sparse_linear.
  sat; try exact I; apply wrapper_no_meta_kernel; exact Hnb.
Qed.

End Effects.

(** ** What a successful call returns *)

Section Success.

Import Dispatch.
Local Open Scope host_scope.

Variable env : Env.

Lemma new_empty_eq (szs : list Z) (dtype : ScalarType) :
  new_empty szs dtype
  = ([ev_new_empty szs dtype],
     inr (mkTensor dtype Strided szs (contiguous_strides szs) empty_buffer)).
Proof. reflexivity. Qed.

Lemma new_zeros_eq (szs : list Z) (dtype : ScalarType) :
  new_zeros szs dtype
  = ([ev_new_zeros szs dtype],
     inr (mkTensor dtype Strided szs (contiguous_strides szs) (fun _ => Some 0))).
Proof. reflexivity. Qed.

(** Take a successful computation apart along its [bind]s and checks. *)
Ltac inv_success H :=
  repeat match type of H with
  | bind (TORCH_CHECK _ _) _ = (_, inr _) =>
      let tr1 := fresh "tr" in let u := fresh "u" in let tr2 := fresh "tr" in
      let H1 := fresh "Hcheck" in let E := fresh "Etr" in
      apply bind_inr_inv in H; destruct H as (tr1 & u & tr2 & H1 & H & E);
      apply TORCH_CHECK_inr_inv in H1; destruct H1 as [H1 ->];
      cbn [app] in E; subst
  | bind (CUTLASS_STATUS_CHECK _) _ = (_, inr _) =>
      unfold CUTLASS_STATUS_CHECK in H
  | bind (C10_CUDA_KERNEL_LAUNCH_CHECK _ _) _ = (_, inr _) =>
      unfold C10_CUDA_KERNEL_LAUNCH_CHECK in H
  | bind (tell _) _ = (_, inr _) =>
      let tr1 := fresh "tr" in let u := fresh "u" in let tr2 := fresh "tr" in
      let H1 := fresh "Htell" in let E := fresh "Etr" in
      apply bind_inr_inv in H; destruct H as (tr1 & u & tr2 & H1 & H & E);
      unfold tell in H1; inversion H1; subst; clear H1
  | bind (new_empty _ _) _ = (_, inr _) =>
      let tr1 := fresh "tr" in let t := fresh "t" in let tr2 := fresh "tr" in
      let H1 := fresh "Hnew" in let E := fresh "Etr" in
      apply bind_inr_inv in H; destruct H as (tr1 & t & tr2 & H1 & H & E);
      rewrite new_empty_eq in H1; inversion H1; subst; clear H1
  end.

Lemma sparse_gemm_success (targs : TemplateArgs)
    (length_m length_n length_k meta_ncols : Z)
    (tensor_a : Tensor) (sa : Z) (tensor_b : Tensor) (sb : Z)
    (tensor_d meta_reordered : Tensor) (tr : list Event) (d meta : Tensor) :
  sparse_gemm env targs length_m length_n length_k meta_ncols
              tensor_a sa tensor_b sb tensor_d meta_reordered = (tr, inr (d, meta)) ->
  meta = meta_reordered /\
  scalar_type d = scalar_type tensor_d /\ layout d = layout tensor_d /\
  sizes d = sizes tensor_d /\ strides d = strides tensor_d /\
  exists args, In (ev_gemm_run args) tr /\
    problem_size args = (length_m, length_n, length_k) /\
    op_layout (ref_A args) = LayoutInputA targs /\
    op_layout (ref_B args) = LayoutInputB targs /\
    op_layout (ref_D args) = RowMajor /\
    op_stride (ref_D args) = stride tensor_d 0.
Proof.
  unfold sparse_gemm. intros H. inv_success H.
  destruct (run (Gemm env targs) _) as [status buf] eqn:Erun.
  inv_success H. unfold ret in H. inversion H. subst. clear H.
  repeat split; try reflexivity.
  eexists. split; [cbn [app In]; right; right; left; reflexivity |].
  repeat split; reflexivity.
Qed.

Lemma wrapper_success (targs : TemplateArgs)
    (tensor_a : Tensor) (sa : Z) (tensor_b : Tensor) (sb : Z)
    (mask_or_meta : Tensor) (tr : list Event) (d meta : Tensor) :
  two_four_sgemm_cutlass env targs tensor_a sa tensor_b sb mask_or_meta
  = (tr, inr (d, meta)) ->
  let length_m := to_int (size tensor_a 0) in
  let length_n := to_int (size tensor_b 1) in
  sizes d = [length_m; length_n] /\
  strides d = contiguous_strides [length_m; length_n] /\
  layout d = Strided /\
  (ElementOutput targs = int32_t /\ scalar_type d = kInt \/
   ElementOutput targs = half_t /\ scalar_type d = kHalf) /\
  (ScalarType_eqb (scalar_type mask_or_meta) kBool = false -> meta = mask_or_meta) /\
  exists args, In (ev_gemm_run args) tr /\
    op_layout (ref_A args) = LayoutInputA targs /\
    op_layout (ref_B args) = LayoutInputB targs /\
    op_layout (ref_D args) = RowMajor /\
    op_stride (ref_D args) = stride d 0.
Proof.
  unfold two_four_sgemm_cutlass. intros H. inv_success H.
  apply bind_inr_inv in H. destruct H as (trA & dtype & trB & Hdt & H & ->).
  inv_success H.
  apply bind_inr_inv in H. destruct H as (trC & meta_r & trD & Hmeta & H & ->).
  apply sparse_gemm_success in H.
  destruct H as (-> & Hst & Hl & Hsz & Hstr & args & Hin & _ & HA & HB & HD & HDs).
  cbn [scalar_type layout sizes strides] in Hst, Hl, Hsz, Hstr.
  cbv zeta.
  split; [exact Hsz |]. split; [exact Hstr |]. split; [exact Hl |].
  split.
  { destruct (ElementOutput targs); unfold ret, throw in Hdt; inversion Hdt; subst;
      [left | right]; split; congruence. }
  split.
  { intros Hnb. rewrite Hnb in Hmeta. unfold ret in Hmeta. inversion Hmeta. reflexivity. }
  exists args. split.
  { repeat (apply in_or_app; right). exact Hin. }
  repeat split; try assumption.
  rewrite HDs. unfold stride. rewrite Hstr. reflexivity.
Qed.

(** A call that returns went through one of the specializations. *)
Lemma dispatch_success (tensor_a tensor_b mask_or_meta : Tensor)
    (tr : list Event) (d meta : Tensor) :
  _structured_sparse_linear env tensor_a tensor_b mask_or_meta = (tr, inr (d, meta)) ->
  exists targs,
    specialization (scalar_type tensor_a)
                   (matrix_layout tensor_a) (matrix_layout tensor_b) = Some targs /\
    two_four_sgemm_cutlass env targs tensor_a (leading_stride tensor_a)
                           tensor_b (leading_stride tensor_b) mask_or_meta
    = (tr, inr (d, meta)).
Proof.
  intros H.
  assert (Hpre : major env = 8 /\ operand_ok tensor_a = true /\ operand_ok tensor_b = true).
  { unfold _structured_sparse_linear in H. inv_success H.
    split; [apply Z.eqb_eq; exact Hcheck |].
    unfold operand_ok. rewrite Hcheck0, Hcheck1, Hcheck2, Hcheck3, Hcheck4, Hcheck5.
    auto. }
  destruct Hpre as (Hsm & Ha & Hb).
  rewrite (dispatch_reduces env _ _ _ Hsm Ha Hb) in H.
  destruct (specialization _ _ _) as [targs |] eqn:E.
  - exists targs. split; [reflexivity | exact H].
  - destruct (scalar_type tensor_a); discriminate H.
Qed.

End Success.

(** C6: when [mask_or_meta] is not boolean, neither the builder nor the
    reorderer is launched, whatever the outcome of the call, and a call
    that returns gives back that very tensor as its second component. *)
Theorem metadata_passed_through
    (env : Dispatch.Env) (tensor_a tensor_b mask_or_meta : Dispatch.Tensor) :
  Dispatch.ScalarType_eqb (Dispatch.scalar_type mask_or_meta) Dispatch.kBool = false ->
  let out := Dispatch._structured_sparse_linear env tensor_a tensor_b mask_or_meta in
  ~ In (Dispatch.ev_launch Dispatch.create_meta_kernel) (fst out) /\
  ~ In (Dispatch.ev_launch Dispatch.reorder_meta_kernel) (fst out) /\
  (forall d meta, snd out = inr (d, meta) -> meta = mask_or_meta).
Proof.
  intros Hnb out.
  destruct (dispatch_no_meta_kernel env tensor_a tensor_b mask_or_meta Hnb) as [Hev _].
  fold out in Hev. rewrite Forall_forall in Hev.
  split; [intros Hin; apply Hev in Hin; destruct Hin as [Hin _]; apply Hin; reflexivity |].
  split; [intros Hin; apply Hev in Hin; destruct Hin as [_ Hin]; apply Hin; reflexivity |].
  intros d meta Hout.
  assert (H : Dispatch._structured_sparse_linear env tensor_a tensor_b mask_or_meta
              = (fst out, inr (d, meta)))
    by (fold out; rewrite <- Hout; destruct out; reflexivity).
  apply dispatch_success in H. destruct H as (targs & _ & H).
  apply wrapper_success in H. destruct H as (_ & _ & _ & _ & Hmeta & _).
  apply Hmeta. exact Hnb.
Qed.


(** C9: the product of a call that returns is a contiguous row-major
    matrix, its column stride being 1, and the engine was told to write it
    as a row-major matrix with that row stride, whichever of the two
    layouts each input operand has. *)
Theorem product_row_major
    (env : Dispatch.Env) (tensor_a tensor_b mask_or_meta : Dispatch.Tensor)
    (tr : list Dispatch.Event) (d meta : Dispatch.Tensor) :
  Dispatch._structured_sparse_linear env tensor_a tensor_b mask_or_meta
  = (tr, inr (d, meta)) ->
  Dispatch.layout d = Dispatch.Strided /\
  Dispatch.stride d 1 = 1 /\
  Dispatch.stride d 0 = Z.max (to_int (Dispatch.size tensor_b 1)) 1 /\
  exists args,
    In (Dispatch.ev_gemm_run args) tr /\
    Dispatch.op_layout (Dispatch.ref_D args) = Dispatch.RowMajor /\
    Dispatch.op_stride (Dispatch.ref_D args) = Dispatch.stride d 0 /\
    Dispatch.op_layout (Dispatch.ref_A args) = Dispatch.matrix_layout tensor_a /\
    Dispatch.op_layout (Dispatch.ref_B args) = Dispatch.matrix_layout tensor_b.
Proof.
  intros H.
  pose proof (dispatch_success env _ _ _ _ _ _ H) as (targs & Hsp & Hw).
  apply wrapper_success in Hw.
  destruct Hw as (_ & Hstr & Hl & _ & _ & args & Hin & HA & HB & HD & HDs).
  split; [exact Hl |].
  unfold Dispatch.stride. rewrite Hstr. cbn [Dispatch.contiguous_strides hd nth].
  split; [reflexivity |]. split; [lia |].
  exists args. split; [exact Hin |]. split; [exact HD |].
  split; [rewrite HDs; unfold Dispatch.stride; rewrite Hstr; reflexivity |].
  rewrite HA, HB.
  destruct (Dispatch.scalar_type tensor_a), (Dispatch.matrix_layout tensor_a),
    (Dispatch.matrix_layout tensor_b); simpl in Hsp; inversion Hsp; subst;
    split; reflexivity.
Qed.

(** ** The size checks *)

(** Keeping a size in an [int] does not change whether a power of two up
    to [2^32] divides it. *)
Lemma rem_to_int_eqb (x d : Z) :
  0 < d -> (d | 2 ^ 32) ->
  (Z.rem (to_int x) d =? 0) = (x mod d =? 0).
Proof.
  intros Hd Hdiv.
  assert (E : to_int x = x - 2 ^ 32 * ((x + 2 ^ 31) / 2 ^ 32)).
  { unfold to_int. rewrite Z.mod_eq by lia. lia. }
  assert (Hiff : (d | to_int x) <-> (d | x)).
  { rewrite E. split; intros H.
    - replace x with (x - 2 ^ 32 * ((x + 2 ^ 31) / 2 ^ 32)
                      + 2 ^ 32 * ((x + 2 ^ 31) / 2 ^ 32)) by lia.
      apply Z.divide_add_r; [exact H | apply Z.divide_mul_l; exact Hdiv].
    - apply Z.divide_sub_r; [exact H | apply Z.divide_mul_l; exact Hdiv]. }
  destruct (x mod d =? 0) eqn:Ex.
  - apply Z.eqb_eq. apply Z.eqb_eq in Ex.
    apply Z.rem_divide; [lia |]. apply Hiff. apply Z.mod_divide; [lia | exact Ex].
  - apply Z.eqb_neq. apply Z.eqb_neq in Ex. intros H. apply Ex.
    apply Z.mod_divide; [lia |]. apply Hiff. apply Z.rem_divide; [lia | exact H].
Qed.

Lemma divides_2_32 (d : Z) :
  d = 8 \/ d = 16 \/ d = 32 \/ d = 64 \/ d = 128 -> 0 < d /\ (d | 2 ^ 32).
Proof.
  intros [-> | [-> | [-> | [-> | ->]]]]; (split; [lia |]).
  - exists (2 ^ 29). reflexivity.
  - exists (2 ^ 28). reflexivity.
  - exists (2 ^ 27). reflexivity.
  - exists (2 ^ 26). reflexivity.
  - exists (2 ^ 25). reflexivity.
Qed.

Section SizeChecks.

Import Dispatch.
Local Open Scope host_scope.

Variable env : Env.
Variable targs : TemplateArgs.
Variables tensor_a tensor_b mask_or_meta : Tensor.
Variables sa sb : Z.

Let out := two_four_sgemm_cutlass env targs tensor_a sa tensor_b sb mask_or_meta.

Lemma divisor_cases :
  (k_divisor targs = 64 /\ n_divisor targs = 8) \/
  (k_divisor targs = 128 /\ n_divisor targs = 16).
Proof. unfold k_divisor, n_divisor. destruct (ElementInputA targs); auto. Qed.

(** The checks in the form the function makes them, on the raw sizes. *)
Lemma wrapper_checks_unfold :
  out =
  bind (TORCH_CHECK (size tensor_a 0 mod 32 =? 0) SparseRowsNotDivisible) (fun _ =>
  bind (TORCH_CHECK (size tensor_b 0 mod k_divisor targs =? 0)
                    (DenseRowsNotDivisible (k_divisor targs))) (fun _ =>
  bind (TORCH_CHECK (size tensor_b 1 mod n_divisor targs =? 0)
                    (DenseColumnsNotDivisible (n_divisor targs))) (fun _ =>
  let length_m := to_int (size tensor_a 0) in
  let length_k := to_int (size tensor_b 0) in
  let length_n := to_int (size tensor_b 1) in
  let meta_ncols :=
    Z.quot (Z.quot length_k (kSparse (Gemm env targs)))
           (kElementsPerElementE (Gemm env targs)) in
  tensor_d_dtype <- match ElementOutput targs with
                    | int32_t => ret kInt
                    | half_t => ret kHalf
                    | _ => throw InvalidOutputDatatype
                    end ;;
  tensor_d <- new_empty [length_m; length_n] tensor_d_dtype ;;
  meta_reordered <- (if ScalarType_eqb (scalar_type mask_or_meta) kBool
                     then meta_from_mask env targs length_m length_k meta_ncols mask_or_meta
                     else ret mask_or_meta) ;;
  sparse_gemm env targs length_m length_n length_k meta_ncols
              tensor_a sa tensor_b sb tensor_d meta_reordered))).
Proof.
  unfold out, two_four_sgemm_cutlass, k_divisor, n_divisor. cbv zeta.
  rewrite (rem_to_int_eqb (size tensor_a 0) 32)
    by (apply divides_2_32; auto).
  destruct (ElementInputA targs);
    rewrite (rem_to_int_eqb (size tensor_b 0)), (rem_to_int_eqb (size tensor_b 1))
      by (apply divides_2_32; auto 6);
    reflexivity.
Qed.

Lemma meta_from_mask_no_size_error (length_m length_k meta_ncols : Z) :
  Sat (fun _ => True) (fun e => size_error e = false)
      (meta_from_mask env targs length_m length_k meta_ncols mask_or_meta).
Proof. unfold meta_from_mask. sat; try exact I; reflexivity. Qed.

Lemma sparse_gemm_no_size_error (length_m length_n length_k meta_ncols : Z)
    (d meta : Tensor) :
  Sat (fun _ => True) (fun e => size_error e = false)
      (sparse_gemm env targs length_m length_n length_k meta_ncols
                   tensor_a sa tensor_b sb d meta).
Proof. unfold sparse_gemm. sat; try exact I; reflexivity. Qed.

Lemma wrapper_first_size_error :
  (size tensor_a 0 mod 32 <> 0 -> out = ([], inl SparseRowsNotDivisible)) /\
  (size tensor_a 0 mod 32 = 0 -> size tensor_b 0 mod k_divisor targs <> 0 ->
   out = ([], inl (DenseRowsNotDivisible (k_divisor targs)))) /\
  (size tensor_a 0 mod 32 = 0 -> size tensor_b 0 mod k_divisor targs = 0 ->
   size tensor_b 1 mod n_divisor targs <> 0 ->
   out = ([], inl (DenseColumnsNotDivisible (n_divisor targs)))) /\
  (size tensor_a 0 mod 32 = 0 -> size tensor_b 0 mod k_divisor targs = 0 ->
   size tensor_b 1 mod n_divisor targs = 0 ->
   forall e, snd out = inl e -> size_error e = false).
Proof.
  rewrite wrapper_checks_unfold.
  repeat split.
  - intros H. apply Z.eqb_neq in H. rewrite H. reflexivity.
  - intros H1 H2. apply Z.eqb_eq in H1. apply Z.eqb_neq in H2.
    rewrite H1, H2. reflexivity.
  - intros H1 H2 H3. apply Z.eqb_eq in H1, H2. apply Z.eqb_neq in H3.
    rewrite H1, H2, H3. reflexivity.
  - intros H1 H2 H3 e. apply Z.eqb_eq in H1, H2, H3. rewrite H1, H2, H3.
    rewrite !TORCH_CHECK_true, !bind_ret_l. cbv zeta.
    match goal with
    | |- snd ?c = _ -> _ =>
        assert (HS : Sat (fun _ => True) (fun e => size_error e = false) c)
    end.
    { sat; try exact I; try reflexivity;
        [apply meta_from_mask_no_size_error | apply sparse_gemm_no_size_error]. }
    destruct HS as [_ HS]. intros E. rewrite E in HS. exact HS.
Qed.

End SizeChecks.

(** C5: for operands that reach a specialization, the three size checks
    are made in turn before anything is asked of the device: a row count
    of the sparse operand that 32 does not divide, then a row count of the
    dense operand that 64 (half precision) or 128 (byte integer) does not
    divide, then a column count of the dense operand that 8 (half
    precision) or 16 (byte integer) does not divide, each ends the call in
    its own error with no device operation recorded; if all three are
    divisible, the call ends in none of these errors. *)
Theorem size_checks
    (env : Dispatch.Env) (tensor_a tensor_b mask_or_meta : Dispatch.Tensor)
    (targs : Dispatch.TemplateArgs) :
  Dispatch.major env = 8 ->
  Dispatch.operand_ok tensor_a = true ->
  Dispatch.operand_ok tensor_b = true ->
  Dispatch.specialization (Dispatch.scalar_type tensor_a)
    (Dispatch.matrix_layout tensor_a) (Dispatch.matrix_layout tensor_b) = Some targs ->
  let out := Dispatch._structured_sparse_linear env tensor_a tensor_b mask_or_meta in
  let rows_a := Dispatch.size tensor_a 0 in
  let rows_b := Dispatch.size tensor_b 0 in
  let columns_b := Dispatch.size tensor_b 1 in
  let dk := match Dispatch.scalar_type tensor_a with Dispatch.kHalf => 64 | _ => 128 end in
  let dn := match Dispatch.scalar_type tensor_a with Dispatch.kHalf => 8 | _ => 16 end in
  (rows_a mod 32 <> 0 -> out = ([], inl Dispatch.SparseRowsNotDivisible)) /\
  (rows_a mod 32 = 0 -> rows_b mod dk <> 0 ->
   out = ([], inl (Dispatch.DenseRowsNotDivisible dk))) /\
  (rows_a mod 32 = 0 -> rows_b mod dk = 0 -> columns_b mod dn <> 0 ->
   out = ([], inl (Dispatch.DenseColumnsNotDivisible dn))) /\
  (rows_a mod 32 = 0 -> rows_b mod dk = 0 -> columns_b mod dn = 0 ->
   forall e, snd out = inl e -> Dispatch.size_error e = false) /\
  Dispatch.what Dispatch.SparseRowsNotDivisible
    <> Dispatch.what (Dispatch.DenseRowsNotDivisible dk) /\
  Dispatch.what Dispatch.SparseRowsNotDivisible
    <> Dispatch.what (Dispatch.DenseColumnsNotDivisible dn) /\
  Dispatch.what (Dispatch.DenseRowsNotDivisible dk)
    <> Dispatch.what (Dispatch.DenseColumnsNotDivisible dn).
Proof.
  intros Hsm Ha Hb Hsp out rows_a rows_b columns_b dk dn.
  assert (Hout : out = Dispatch.two_four_sgemm_cutlass env targs
                         tensor_a (Dispatch.leading_stride tensor_a)
                         tensor_b (Dispatch.leading_stride tensor_b) mask_or_meta).
  { unfold out. rewrite (dispatch_reduces env _ _ _ Hsm Ha Hb), Hsp. reflexivity. }
  assert (Hdk : Dispatch.k_divisor targs = dk /\ Dispatch.n_divisor targs = dn).
  { unfold dk, dn.
    destruct (Dispatch.scalar_type tensor_a), (Dispatch.matrix_layout tensor_a),
      (Dispatch.matrix_layout tensor_b); simpl in Hsp; inversion Hsp; subst;
      split; reflexivity. }
  destruct Hdk as [Hdk Hdn].
  pose proof (wrapper_first_size_error env targs tensor_a tensor_b mask_or_meta
                (Dispatch.leading_stride tensor_a) (Dispatch.leading_stride tensor_b))
    as (H1 & H2 & H3 & H4).
  rewrite <- Hout, Hdk, Hdn in *.
  repeat split; try assumption; discriminate.
Qed.

(** ** The failure flag of the builder *)

(** An entry is [true], or [false], or neither. *)
Ltac entry_cases p :=
  destruct (Z.eqb_spec p 1) as [-> | ?]; [| destruct (Z.eqb_spec p 0) as [-> | ?]].

(** The flag is raised for every group but those with exactly two [true]
    entries and two [false] ones. *)
Lemma encode_flag (pos0 pos1 pos2 pos3 : Z) :
  snd (CreateMeta.encode pos0 pos1 pos2 pos3)
  = negb (CreateMeta.two_true pos0 pos1 pos2 pos3).
Proof.
  unfold CreateMeta.encode, CreateMeta.tuple_eq, CreateMeta.two_true,
    CreateMeta.count_true, CreateMeta.count_false.
  entry_cases pos0; entry_cases pos1; entry_cases pos2; entry_cases pos3; reflexivity.
Qed.

(** A group with exactly two [true] entries and two [false] ones is one of
    the six groups of the table. *)
Lemma two_true_cases (pos0 pos1 pos2 pos3 : Z) :
  CreateMeta.two_true pos0 pos1 pos2 pos3 = true ->
  (pos0, pos1, pos2, pos3) = (1, 1, 0, 0) \/ (pos0, pos1, pos2, pos3) = (1, 0, 1, 0) \/
  (pos0, pos1, pos2, pos3) = (0, 1, 1, 0) \/ (pos0, pos1, pos2, pos3) = (1, 0, 0, 1) \/
  (pos0, pos1, pos2, pos3) = (0, 1, 0, 1) \/ (pos0, pos1, pos2, pos3) = (0, 0, 1, 1).
Proof.
  unfold CreateMeta.two_true, CreateMeta.count_true, CreateMeta.count_false.
  entry_cases pos0; entry_cases pos1; entry_cases pos2; entry_cases pos3;
    cbn; intros H; try discriminate H; auto 10.
Qed.

Section FailureFlag.

Import CreateMeta.

Variable sizeof_T : Z.
Variables length_m length_k mask_stride : Z.
Variable mask : Z -> Z.
Variable meta_stride : Z.
Variable cfg : LaunchConfig.

Local Abbreviation raises_flag :=
  (CreateMeta.raises_flag length_m length_k mask_stride mask cfg).

Lemma thread_effect_error (s : State) (t : Thread) :
  error (thread_effect sizeof_T length_m length_k mask_stride mask meta_stride cfg s t)
  = if raises_flag t then 1 else error s.
Proof.
  unfold thread_effect, CreateMeta.raises_flag.
  destruct (in_range length_m length_k cfg t); [| reflexivity].
  cbn [andb].
  destruct (snd (thread_code mask_stride mask cfg t));
    destruct (thread_store _ _ _ _ _ _ _ t) as [[addr v] |]; reflexivity.
Qed.

(** The flag after any workers, in any order: 1 as soon as one of them
    raised it, and what it was before otherwise. *)
Lemma workers_error (ts : list Thread) (s : State) :
  error (fold_left (thread_effect sizeof_T length_m length_k mask_stride mask
                                  meta_stride cfg) ts s)
  = if existsb raises_flag ts then 1 else error s.
Proof.
  revert s. induction ts as [| t ts IH]; intros s; [reflexivity |].
  cbn [fold_left existsb]. rewrite IH, thread_effect_error.
  destruct (raises_flag t), (existsb raises_flag ts); reflexivity.
Qed.

Lemma kernel_error (s : State) :
  error (two_four_create_meta_kernel sizeof_T length_m length_k mask_stride mask
                                     meta_stride cfg s)
  = if existsb raises_flag (threads cfg) then 1 else error s.
Proof. apply workers_error. Qed.

End FailureFlag.

Section MaskRejected.

Import Dispatch.
Local Open Scope host_scope.

Variable env : Env.
Variable targs : TemplateArgs.

Lemma bind_pair {A B} (evs : list Event) (x : A) (f : A -> M B) :
  bind (evs, inr x) f = (evs ++ fst (f x), snd (f x)).
Proof. unfold bind. destruct (f x). reflexivity. Qed.

Lemma mask_ok_inv (mask : Tensor) :
  mask_ok mask = true ->
  Layout_eqb (layout mask) Strided = true /\ (dim mask =? 2) = true /\
  (nth 1 (strides mask) 0 =? 1) = true.
Proof.
  unfold mask_ok. intros H.
  apply andb_true_iff in H. destruct H as [H H3].
  apply andb_true_iff in H. destruct H as [H1 H2]. auto.
Qed.

Lemma meta_from_mask_rejects (length_m length_k meta_ncols : Z) (mask : Tensor) :
  mask_ok mask = true ->
  (let sz := sizeof_ElementE (Gemm env targs) in sz = 1 \/ sz = 2 \/ sz = 4) ->
  launch_failed env create_meta_kernel = false ->
  existsb (CreateMeta.raises_flag length_m length_k (to_int (nth 0 (strides mask) 0))
                       (as_bool (data mask))
                       (create_meta_launch length_m length_k))
          (threads (create_meta_launch length_m length_k)) = true ->
  meta_from_mask env targs length_m length_k meta_ncols mask
  = ([ev_new_empty [length_m; meta_ncols]
                   (meta_dtype_of (sizeof_ElementE (Gemm env targs)));
      ev_new_zeros [1] kInt;
      ev_launch create_meta_kernel;
      ev_item],
     inl MaskNotTwoFourSparse).
Proof.
  intros Hok Hsz Hlaunch Hex.
  destruct (mask_ok_inv mask Hok) as (H1 & H2 & H3).
  unfold meta_from_mask. rewrite H1, H2, H3.
  rewrite !TORCH_CHECK_true, !bind_ret_l.
  assert (Hdt : (if sizeof_ElementE (Gemm env targs) =? 1 then ret kChar
                 else if sizeof_ElementE (Gemm env targs) =? 2 then ret kShort
                 else if sizeof_ElementE (Gemm env targs) =? 4 then ret kInt
                 else throw InvalidMetaDatatypeSize)
                = ret (meta_dtype_of (sizeof_ElementE (Gemm env targs)))).
  { unfold meta_dtype_of. cbv zeta in Hsz.
    destruct Hsz as [-> | [-> | ->]]; reflexivity. }
  rewrite Hdt, bind_ret_l.
  rewrite new_empty_eq, bind_pair. cbv beta.
  rewrite new_zeros_eq, !bind_pair. cbv beta.
  rewrite !(bind_tell (ev_launch create_meta_kernel)). cbv beta zeta.
  unfold C10_CUDA_KERNEL_LAUNCH_CHECK. rewrite Hlaunch. cbn [negb].
  rewrite !TORCH_CHECK_true, !bind_ret_l, !(bind_tell ev_item).
  rewrite !kernel_error, Hex.
  change (1 =? 0) with false. rewrite !TORCH_CHECK_false, !bind_throw.
  reflexivity.
Qed.

End MaskRejected.

Section BadGroup.

Import Dispatch.

Variables tensor_a tensor_b mask : Tensor.

Hypothesis rows_int : 0 <= size tensor_a 0 < 2 ^ 31 - 15.
Hypothesis cols_int : 0 <= size tensor_b 0 < 2 ^ 31 - 63.
Hypothesis mask_unit_stride : nth 1 (strides mask) 0 = 1.
Hypothesis mask_stride_nonneg : 0 <= stride mask 0 < 2 ^ 31.
Hypothesis mask_addressable :
  size tensor_a 0 * stride mask 0 + size tensor_b 0 <= 2 ^ 32.

(** A group of the mask that does not have exactly two [true] entries
    and two [false] ones makes the worker that reads it raise the flag. *)
Lemma bad_group_raises_flag (m k : Z) :
  0 <= m < size tensor_a 0 -> 0 <= k -> 4 * k + 3 < size tensor_b 0 ->
  entries_two_true mask m k = false ->
  existsb (CreateMeta.raises_flag (size tensor_a 0) (size tensor_b 0)
                       (to_int (nth 0 (strides mask) 0)) (as_bool (data mask))
                       (create_meta_launch (size tensor_a 0) (size tensor_b 0)))
          (threads (create_meta_launch (size tensor_a 0) (size tensor_b 0))) = true.
Proof.
  intros Hm Hk0 Hk Hbad.
  assert (Hkq : 0 <= k < Z.quot (size tensor_b 0) 4) by div_lia.
  destruct (create_thread_exists _ _ rows_int cols_int m k Hm Hkq)
    as (t & Hin & Em & Ek & Hrange).
  apply existsb_exists. exists t. split; [exact Hin |].
  unfold CreateMeta.raises_flag. rewrite Hrange. cbn [andb].
  unfold CreateMeta.thread_code. rewrite encode_flag.
  apply negb_true_iff.
  fold (stride mask 0). rewrite (to_int_small (stride mask 0)) by lia.
  assert (Hpos : forall j, 0 <= j <= 3 ->
            CreateMeta.pos (stride mask 0) (as_bool (data mask))
                           (create_meta_launch (size tensor_a 0) (size tensor_b 0)) t j
            = mask_entry mask m (4 * k + j)).
  { intros j Hj. unfold CreateMeta.pos, mask_entry. rewrite Em, Ek.
    unfold stride at 3. rewrite mask_unit_stride.
    rewrite to_unsigned_small by nia. f_equal. lia. }
  rewrite !Hpos by lia. rewrite Z.add_0_r. exact Hbad.
Qed.

End BadGroup.

(** X19: a mask that the builder can address with 32-bit offsets is
    rejected for any bad group.  For operands that pass every check made
    before the mask is looked at, a boolean mask that passes its own
    checks, whose row stride is not negative and whose last entry looked
    at lies at an offset below [2^32] (rows times row stride plus the
    reduction length at most [2^32]), metadata elements of 1, 2 or 4
    bytes, and a launch of the builder that the driver accepts, one group
    of four
    mask entries (within the rows of the sparse operand and the rows of
    the dense operand) that does not have exactly two [true] entries and
    two [false] ones ends the call in the "not 2:4 sparse" error.  The
    device was asked for the two output buffers and the flag, the builder
    kernel and the read-back of the flag, and for nothing after that: no
    reorderer, no multiplication, and no tensor is returned. *)
Theorem bad_mask_rejected
    (env : Dispatch.Env) (tensor_a tensor_b mask : Dispatch.Tensor)
    (targs : Dispatch.TemplateArgs) (m k : Z) :
  Dispatch.major env = 8 ->
  Dispatch.operand_ok tensor_a = true ->
  Dispatch.operand_ok tensor_b = true ->
  Dispatch.specialization (Dispatch.scalar_type tensor_a)
    (Dispatch.matrix_layout tensor_a) (Dispatch.matrix_layout tensor_b) = Some targs ->
  0 <= Dispatch.size tensor_a 0 < 2 ^ 31 ->
  0 <= Dispatch.size tensor_b 0 < 2 ^ 31 ->
  Dispatch.size tensor_a 0 mod 32 = 0 ->
  Dispatch.size tensor_b 0 mod Dispatch.k_divisor targs = 0 ->
  Dispatch.size tensor_b 1 mod Dispatch.n_divisor targs = 0 ->
  Dispatch.scalar_type mask = Dispatch.kBool ->
  Dispatch.mask_ok mask = true ->
  (let sz := Dispatch.sizeof_ElementE (Dispatch.Gemm env targs) in
   sz = 1 \/ sz = 2 \/ sz = 4) ->
  Dispatch.launch_failed env Dispatch.create_meta_kernel = false ->
  0 <= Dispatch.stride mask 0 ->
  Dispatch.size tensor_a 0 * Dispatch.stride mask 0 + Dispatch.size tensor_b 0 <= 2 ^ 32 ->
  0 <= m < Dispatch.size tensor_a 0 ->
  0 <= k ->
  4 * k + 3 < Dispatch.size tensor_b 0 ->
  Dispatch.entries_two_true mask m k = false ->
  Dispatch._structured_sparse_linear env tensor_a tensor_b mask
  = ([Dispatch.ev_new_empty
        [Dispatch.size tensor_a 0; to_int (Dispatch.size tensor_b 1)]
        (match Dispatch.scalar_type tensor_a with
         | Dispatch.kChar => Dispatch.kInt
         | _ => Dispatch.kHalf
         end);
      Dispatch.ev_new_empty
        [Dispatch.size tensor_a 0;
         Z.quot (Z.quot (Dispatch.size tensor_b 0)
                        (Dispatch.kSparse (Dispatch.Gemm env targs)))
                (Dispatch.kElementsPerElementE (Dispatch.Gemm env targs))]
        (Dispatch.meta_dtype_of (Dispatch.sizeof_ElementE (Dispatch.Gemm env targs)));
      Dispatch.ev_new_zeros [1] Dispatch.kInt;
      Dispatch.ev_launch Dispatch.create_meta_kernel;
      Dispatch.ev_item],
     inl Dispatch.MaskNotTwoFourSparse).
Proof.
  intros Hsm Ha Hb Hsp HM HK HM32 HKd HNd Hbool Hok Hsz Hlaunch Hs0 Haddr Hm Hk0 Hk Hbad.
  rewrite (dispatch_reduces env _ _ _ Hsm Ha Hb), Hsp.
  rewrite wrapper_checks_unfold.
  apply Z.eqb_eq in HM32, HKd, HNd. rewrite HM32, HKd, HNd.
  rewrite !TORCH_CHECK_true, !bind_ret_l. cbv zeta.
  rewrite Hbool. cbn [Dispatch.ScalarType_eqb].
  rewrite !(to_int_small (Dispatch.size tensor_a 0)) by lia.
  rewrite !(to_int_small (Dispatch.size tensor_b 0)) by lia.
  apply Z.eqb_eq in HM32, HKd.
  assert (Hrows : 0 <= Dispatch.size tensor_a 0 < 2 ^ 31 - 15)
    by (revert HM32; Z.div_mod_to_equations; lia).
  assert (Hcols : 0 <= Dispatch.size tensor_b 0 < 2 ^ 31 - 63).
  { revert HKd. destruct (divisor_cases targs) as [[-> _] | [-> _]];
      Z.div_mod_to_equations; lia. }
  destruct (mask_ok_inv mask Hok) as (_ & _ & Hunit).
  apply Z.eqb_eq in Hunit.
  assert (H32 : 32 <= Dispatch.size tensor_a 0)
    by (revert HM32; Z.div_mod_to_equations; lia).
  assert (Hmul : 32 * Dispatch.stride mask 0
                 <= Dispatch.size tensor_a 0 * Dispatch.stride mask 0)
    by (apply Z.mul_le_mono_nonneg_r; lia).
  assert (Hs0' : 0 <= Dispatch.stride mask 0 < 2 ^ 31) by lia.
  pose proof (bad_group_raises_flag tensor_a tensor_b mask Hrows Hcols Hunit Hs0' Haddr
                m k Hm Hk0 Hk Hbad) as Hex.
  rewrite (meta_from_mask_rejects env targs _ _ _ mask Hok Hsz Hlaunch Hex).
  destruct (Dispatch.scalar_type tensor_a), (Dispatch.matrix_layout tensor_a),
    (Dispatch.matrix_layout tensor_b); simpl in Hsp; inversion Hsp; subst;
    reflexivity.
Qed.

(** C3: a mask with a bad group that the call accepts.  The builder
    computes the offset of an entry, [m * mask_stride + k * 4 + j], in
    32-bit unsigned arithmetic.  The 32 x 64 mask [far_mask_tensor] has
    its rows [2^28] entries apart; its rows 16 to 31 have no [true] entry,
    but for row 16 the offset [16 * 2^28] wraps to 0, so the workers of
    rows 16 to 31 read rows 0 to 15, which are 2:4 sparse.  No worker sets
    the flag, and the call goes on to the reorderer and to the engine and
    returns a product and metadata. *)
Theorem far_mask_accepted :
  let mask := Dispatch.far_mask_tensor in
  let mask_stride := to_int (Dispatch.stride mask 0) in
  let out := Dispatch._structured_sparse_linear Dispatch.demo_env Dispatch.demo_a
               Dispatch.demo_b mask in
  Dispatch.scalar_type mask = Dispatch.kBool /\
  Dispatch.mask_ok mask = true /\
  Dispatch.sizes mask = [32; 64] /\
  Dispatch.entries_two_true mask 16 0 = false /\
  to_unsigned (16 * mask_stride + 0 * 4 + 0) = 0 /\
  CreateMeta.group_two_true mask_stride (Dispatch.as_bool (Dispatch.data mask)) 16 0 = true /\
  CreateMeta.error
    (Dispatch.built_meta Dispatch.demo_gemm Dispatch.demo_a Dispatch.demo_b mask) = 0 /\
  exists args meta_reordered,
    out = ([Dispatch.ev_new_empty [32; 8] Dispatch.kHalf;
            Dispatch.ev_new_empty [32; 4] Dispatch.kShort;
            Dispatch.ev_new_zeros [1] Dispatch.kInt;
            Dispatch.ev_launch Dispatch.create_meta_kernel;
            Dispatch.ev_item;
            Dispatch.ev_new_empty [32; 4] Dispatch.kShort;
            Dispatch.ev_launch Dispatch.reorder_meta_kernel;
            Dispatch.ev_new_empty [0] Dispatch.kByte;
            Dispatch.ev_gemm_initialize args;
            Dispatch.ev_gemm_run args],
           inr (Dispatch.demo_d, meta_reordered)).
Proof.
  intros mask mask_stride out.
  repeat (split; [vm_compute; reflexivity |]).
  vm_compute. do 2 eexists. reflexivity.
Qed.

(** ** What is not checked *)

Section NotChecked.

Import Dispatch.
Local Open Scope host_scope.

Variable env : Env.

Lemma ScalarType_eqb_eq (a b : ScalarType) : ScalarType_eqb a b = true -> a = b.
Proof. destruct a, b; simpl; intros H; try reflexivity; discriminate H. Qed.

Lemma meta_from_mask_no_precondition_error (targs : TemplateArgs)
    (length_m length_k meta_ncols : Z) (mask : Tensor) :
  mask_ok mask = true ->
  Sat (fun _ => True) (fun e => precondition_error e = false)
      (meta_from_mask env targs length_m length_k meta_ncols mask).
Proof.
  intros Hok. destruct (mask_ok_inv mask Hok) as (H1 & H2 & H3).
  unfold meta_from_mask. rewrite H1, H2, H3.
  rewrite !TORCH_CHECK_true, !bind_ret_l.
  sat; try exact I; reflexivity.
Qed.

Lemma sparse_gemm_no_precondition_error (targs : TemplateArgs)
    (length_m length_n length_k meta_ncols : Z)
    (tensor_a : Tensor) (sa : Z) (tensor_b : Tensor) (sb : Z) (d meta : Tensor) :
  Sat (fun _ => True) (fun e => precondition_error e = false)
      (sparse_gemm env targs length_m length_n length_k meta_ncols
                   tensor_a sa tensor_b sb d meta).
Proof. unfold sparse_gemm. sat; try exact I; reflexivity. Qed.

Lemma wrapper_no_precondition_error (targs : TemplateArgs)
    (tensor_a : Tensor) (sa : Z) (tensor_b : Tensor) (sb : Z) (mask_or_meta : Tensor) :
  ElementOutput targs = int32_t \/ ElementOutput targs = half_t ->
  size tensor_a 0 mod 32 = 0 ->
  size tensor_b 0 mod k_divisor targs = 0 ->
  size tensor_b 1 mod n_divisor targs = 0 ->
  (ScalarType_eqb (scalar_type mask_or_meta) kBool = true -> mask_ok mask_or_meta = true) ->
  Sat (fun _ => True) (fun e => precondition_error e = false)
      (two_four_sgemm_cutlass env targs tensor_a sa tensor_b sb mask_or_meta).
Proof.
  intros Hout H1 H2 H3 Hmask.
  rewrite wrapper_checks_unfold.
  apply Z.eqb_eq in H1, H2, H3. rewrite H1, H2, H3.
  rewrite !TORCH_CHECK_true, !bind_ret_l. cbv zeta.
  sat; try exact I; try reflexivity;
    try (destruct Hout; congruence).
  - apply meta_from_mask_no_precondition_error. auto.
  - apply sparse_gemm_no_precondition_error.
Qed.

(** The column count of the sparse operand is never read. *)
Lemma sparse_columns_not_read (tensor_a tensor_b mask_or_meta : Tensor) (columns : Z) :
  dim tensor_a = 2 ->
  _structured_sparse_linear env (with_sizes tensor_a [size tensor_a 0; columns])
                            tensor_b mask_or_meta
  = _structured_sparse_linear env tensor_a tensor_b mask_or_meta.
Proof.
  intros Hd. unfold _structured_sparse_linear. rewrite Hd. reflexivity.
Qed.

(** Of the sizes of a boolean mask only their number is read. *)
Lemma mask_sizes_not_read (tensor_a tensor_b mask : Tensor) (szs : list Z) :
  ScalarType_eqb (scalar_type mask) kBool = true ->
  dim mask = 2 -> List.length szs = 2%nat ->
  _structured_sparse_linear env tensor_a tensor_b (with_sizes mask szs)
  = _structured_sparse_linear env tensor_a tensor_b mask.
Proof.
  intros Hb Hd Hl.
  assert (Hd' : dim (with_sizes mask szs) = 2)
    by (unfold dim, with_sizes; cbn [sizes]; rewrite Hl; reflexivity).
  unfold _structured_sparse_linear, two_four_sgemm_cutlass, meta_from_mask.
  rewrite Hd, Hd'. cbn [with_sizes scalar_type layout strides data].
  rewrite Hb. reflexivity.
Qed.

End NotChecked.

(** C10: the reduction length is the row count of the dense operand and
    nothing compares it with anything else.  For operands and a mask that
    pass the checks made on each of them, the call ends in no error about
    its arguments; and since the column count of the sparse operand is
    never read, and of the sizes of a boolean mask only their number is,
    the call does exactly the same when that column count and the sizes of
    the mask are replaced by any others. *)
Theorem reduction_length_not_cross_checked
    (env : Dispatch.Env) (tensor_a tensor_b mask_or_meta : Dispatch.Tensor)
    (targs : Dispatch.TemplateArgs) :
  Dispatch.major env = 8 ->
  Dispatch.operand_ok tensor_a = true ->
  Dispatch.operand_ok tensor_b = true ->
  Dispatch.specialization (Dispatch.scalar_type tensor_a)
    (Dispatch.matrix_layout tensor_a) (Dispatch.matrix_layout tensor_b) = Some targs ->
  Dispatch.size tensor_a 0 mod 32 = 0 ->
  Dispatch.size tensor_b 0 mod Dispatch.k_divisor targs = 0 ->
  Dispatch.size tensor_b 1 mod Dispatch.n_divisor targs = 0 ->
  (Dispatch.ScalarType_eqb (Dispatch.scalar_type mask_or_meta) Dispatch.kBool = true ->
   Dispatch.mask_ok mask_or_meta = true) ->
  let call a mm := Dispatch._structured_sparse_linear env a tensor_b mm in
  (forall e, snd (call tensor_a mask_or_meta) = inl e ->
             Dispatch.precondition_error e = false) /\
  (forall columns,
     call (Dispatch.with_sizes tensor_a [Dispatch.size tensor_a 0; columns]) mask_or_meta
     = call tensor_a mask_or_meta) /\
  (forall rows columns,
     Dispatch.ScalarType_eqb (Dispatch.scalar_type mask_or_meta) Dispatch.kBool = true ->
     call tensor_a (Dispatch.with_sizes mask_or_meta [rows; columns])
     = call tensor_a mask_or_meta).
Proof.
  intros Hsm Ha Hb Hsp HM HK HN Hmask call.
  destruct (operand_ok_inv _ Ha) as (_ & Hda & _). apply Z.eqb_eq in Hda.
  split; [| split].
  - intros e He. unfold call in He.
    rewrite (dispatch_reduces env _ _ _ Hsm Ha Hb), Hsp in He.
    assert (Hout : Dispatch.ElementOutput targs = Dispatch.int32_t \/
                   Dispatch.ElementOutput targs = Dispatch.half_t).
    { destruct (Dispatch.scalar_type tensor_a), (Dispatch.matrix_layout tensor_a),
        (Dispatch.matrix_layout tensor_b); simpl in Hsp; inversion Hsp; subst; auto. }
    destruct (wrapper_no_precondition_error env targs tensor_a
                (Dispatch.leading_stride tensor_a) tensor_b
                (Dispatch.leading_stride tensor_b) mask_or_meta Hout HM HK HN Hmask)
      as [_ HS].
    rewrite He in HS. exact HS.
  - intros columns. apply sparse_columns_not_read. exact Hda.
  - intros rows columns Hbool. apply mask_sizes_not_read; [exact Hbool | | reflexivity].
    destruct (mask_ok_inv _ (Hmask Hbool)) as (_ & Hdm & _).
    apply Z.eqb_eq in Hdm. exact Hdm.
Qed.

(** ** The properties on a small instance *)



(** Half-precision operands with a mask that has no [true] entry. *)
Lemma bad_mask_rejected_witness :
  Dispatch._structured_sparse_linear Dispatch.demo_env Dispatch.demo_a Dispatch.demo_b
                                     Dispatch.demo_bad_mask_tensor
  = ([Dispatch.ev_new_empty [32; 8] Dispatch.kHalf;
      Dispatch.ev_new_empty [32; 4] Dispatch.kShort;
      Dispatch.ev_new_zeros [1] Dispatch.kInt;
      Dispatch.ev_launch Dispatch.create_meta_kernel;
      Dispatch.ev_item],
     inl Dispatch.MaskNotTwoFourSparse).
Proof.
  refine (bad_mask_rejected Dispatch.demo_env Dispatch.demo_a Dispatch.demo_b
            Dispatch.demo_bad_mask_tensor
            (Dispatch.half_args Dispatch.RowMajor Dispatch.RowMajor) 0 0
            _ _ _ _ _ _ _ _ _ _ _ _ _ _ _ _ _ _ _).
  - reflexivity.
  - reflexivity.
  - reflexivity.
  - reflexivity.
  - vm_compute. intuition discriminate.
  - vm_compute. intuition discriminate.
  - reflexivity.
  - reflexivity.
  - reflexivity.
  - reflexivity.
  - reflexivity.
  - right. left. reflexivity.
  - reflexivity.
  - vm_compute. discriminate.
  - vm_compute. discriminate.
  - vm_compute. intuition discriminate.
  - lia.
  - vm_compute. reflexivity.
  - vm_compute. reflexivity.
Defined.


(** A sparse operand of 33 rows. *)
Lemma size_checks_witness :
  Dispatch._structured_sparse_linear Dispatch.demo_env
    (Dispatch.with_sizes Dispatch.demo_a [33; 32]) Dispatch.demo_b
    Dispatch.demo_meta_tensor
  = ([], inl Dispatch.SparseRowsNotDivisible).
Proof.
  refine (proj1 (size_checks Dispatch.demo_env
                   (Dispatch.with_sizes Dispatch.demo_a [33; 32]) Dispatch.demo_b
                   Dispatch.demo_meta_tensor
                   (Dispatch.half_args Dispatch.RowMajor Dispatch.RowMajor)
                   eq_refl eq_refl eq_refl eq_refl) _).
  vm_compute. discriminate.
Defined.

(** A 16-bit metadata matrix in place of the mask. *)
Lemma metadata_passed_through_witness :
  let out := Dispatch._structured_sparse_linear Dispatch.demo_env Dispatch.demo_a
               Dispatch.demo_b Dispatch.demo_meta_tensor in
  ~ In (Dispatch.ev_launch Dispatch.create_meta_kernel) (fst out) /\
  ~ In (Dispatch.ev_launch Dispatch.reorder_meta_kernel) (fst out) /\
  (forall d meta, snd out = inr (d, meta) -> meta = Dispatch.demo_meta_tensor).
Proof.
  exact (metadata_passed_through Dispatch.demo_env Dispatch.demo_a Dispatch.demo_b
           Dispatch.demo_meta_tensor eq_refl).
Defined.


(** The same product: its strides are 8 and 1. *)
Lemma product_row_major_witness :
  Dispatch.layout Dispatch.demo_d = Dispatch.Strided /\
  Dispatch.stride Dispatch.demo_d 1 = 1 /\
  Dispatch.stride Dispatch.demo_d 0 = 8 /\
  exists args,
    In (Dispatch.ev_gemm_run args)
       (fst (Dispatch._structured_sparse_linear Dispatch.demo_env Dispatch.demo_a
               Dispatch.demo_b Dispatch.demo_meta_tensor)) /\
    Dispatch.op_layout (Dispatch.ref_D args) = Dispatch.RowMajor /\
    Dispatch.op_stride (Dispatch.ref_D args) = Dispatch.stride Dispatch.demo_d 0 /\
    Dispatch.op_layout (Dispatch.ref_A args) = Dispatch.RowMajor /\
    Dispatch.op_layout (Dispatch.ref_B args) = Dispatch.RowMajor.
Proof.
  refine (product_row_major Dispatch.demo_env Dispatch.demo_a Dispatch.demo_b
            Dispatch.demo_meta_tensor
            (fst (Dispatch._structured_sparse_linear Dispatch.demo_env Dispatch.demo_a
                    Dispatch.demo_b Dispatch.demo_meta_tensor))
            Dispatch.demo_d Dispatch.demo_meta_tensor _).
  vm_compute. reflexivity.
Defined.

(** A sparse operand with 7 columns where the 64 rows of the dense operand
    call for 32, and a mask of a single entry. *)
Lemma reduction_length_not_cross_checked_witness :
  let tensor_a := Dispatch.with_sizes Dispatch.demo_a [32; 7] in
  let mask := Dispatch.with_sizes Dispatch.demo_mask_tensor [1; 1] in
  let call a mm :=
    Dispatch._structured_sparse_linear Dispatch.demo_env a Dispatch.demo_b mm in
  (forall e, snd (call tensor_a mask) = inl e -> Dispatch.precondition_error e = false) /\
  (forall columns,
     call (Dispatch.with_sizes tensor_a [Dispatch.size tensor_a 0; columns]) mask
     = call tensor_a mask) /\
  (forall rows columns,
     Dispatch.ScalarType_eqb (Dispatch.scalar_type mask) Dispatch.kBool = true ->
     call tensor_a (Dispatch.with_sizes mask [rows; columns]) = call tensor_a mask).
Proof.
  refine (reduction_length_not_cross_checked Dispatch.demo_env
            (Dispatch.with_sizes Dispatch.demo_a [32; 7]) Dispatch.demo_b
            (Dispatch.with_sizes Dispatch.demo_mask_tensor [1; 1])
            (Dispatch.half_args Dispatch.RowMajor Dispatch.RowMajor)
            eq_refl eq_refl eq_refl eq_refl eq_refl eq_refl eq_refl _).
  intros _. reflexivity.
Defined.

(** *** Further instances *)

(** Byte-integer operands, 32 x 64 row-major and 128 x 16 column-major:
    the one supported pairing, with a product of 32-bit integers. *)
Example char_row_column_runs :
  let tensor_a := Dispatch.mkTensor Dispatch.kChar Dispatch.Strided [32; 64] [64; 1]
                                    (fun _ => Some 1) in
  let tensor_b := Dispatch.mkTensor Dispatch.kChar Dispatch.Strided [128; 16] [1; 128]
                                    (fun _ => Some 1) in
  snd (Dispatch._structured_sparse_linear Dispatch.demo_env tensor_a tensor_b
                                          Dispatch.demo_meta_tensor)
  = inr (Dispatch.mkTensor Dispatch.kInt Dispatch.Strided [32; 16] [16; 1] empty_buffer,
         Dispatch.demo_meta_tensor).
Proof. vm_compute. reflexivity. Qed.

(** The same operands with the dense one row-major. *)
Example char_row_row_rejected :
  let tensor_a := Dispatch.mkTensor Dispatch.kChar Dispatch.Strided [32; 64] [64; 1]
                                    (fun _ => Some 1) in
  let tensor_b := Dispatch.mkTensor Dispatch.kChar Dispatch.Strided [128; 16] [16; 1]
                                    (fun _ => Some 1) in
  Dispatch._structured_sparse_linear Dispatch.demo_env tensor_a tensor_b
                                     Dispatch.demo_meta_tensor
  = ([], inl (Dispatch.CombinationNotSupported true true)).
Proof. reflexivity. Qed.

(** Half-precision operands in the four pairings of layouts. *)
Example half_all_layouts_run :
  forall strides_a strides_b,
    In strides_a [[32; 1]; [1; 32]] -> In strides_b [[8; 1]; [1; 64]] ->
    let tensor_a := Dispatch.mkTensor Dispatch.kHalf Dispatch.Strided [32; 32] strides_a
                                      (fun _ => Some 0) in
    let tensor_b := Dispatch.mkTensor Dispatch.kHalf Dispatch.Strided [64; 8] strides_b
                                      (fun _ => Some 0) in
    snd (Dispatch._structured_sparse_linear Dispatch.demo_env tensor_a tensor_b
                                            Dispatch.demo_meta_tensor)
    = inr (Dispatch.demo_d, Dispatch.demo_meta_tensor).
Proof.
  intros strides_a strides_b [<- | [<- | []]] [<- | [<- | []]]; vm_compute; reflexivity.
Qed.

(** A mask with two [true] entries in every group: the call returns, and
    every unit of the 32 x 4 metadata matrix it returns holds the codes
    4, 8, 9, 12, which the reorderer has moved but not changed. *)
Example good_mask_accepted :
  match snd (Dispatch._structured_sparse_linear Dispatch.demo_env Dispatch.demo_a
               Dispatch.demo_b Dispatch.demo_mask_tensor) with
  | inr (d, meta) =>
      Dispatch.sizes d = [32; 8] /\ Dispatch.sizes meta = [32; 4] /\
      Dispatch.scalar_type meta = Dispatch.kShort /\
      forallb (fun a => match Dispatch.data meta a with
                        | Some v => v =? 51588
                        | None => false
                        end) (range 128) = true
  | inl _ => False
  end.
Proof. vm_compute. repeat split; reflexivity. Qed.

(** The first rows of a group of 2-byte codes, in columns 0 and 1. *)
Example dst_coord_first_rows :
  map (fun m => (ReorderMeta.dst_coord 2 m 0, ReorderMeta.dst_coord 2 m 1)) [0; 1; 2; 8; 9]
  = [((0, 0), (1, 0)); ((4, 0), (5, 0)); ((8, 0), (9, 0));
     ((0, 1), (1, 1)); ((4, 1), (5, 1))].
Proof. reflexivity. Qed.

(** * Further properties *)

(** ** The codes *)

(** X1: the code of a group with exactly two [true] entries (and two
    [false] ones) names them: its two low bits are the position of the
    first [true] entry and its two high bits the position of the second,
    so that the group can be read back from its code and no two such
    groups share a code. *)
Theorem code_names_true_entries (pos0 pos1 pos2 pos3 : Z) :
  CreateMeta.two_true pos0 pos1 pos2 pos3 = true ->
  let code := fst (CreateMeta.encode pos0 pos1 pos2 pos3) in
  let group := [pos0; pos1; pos2; pos3] in
  0 <= code mod 4 < code / 4 /\ code / 4 < 4 /\
  (forall j, 0 <= j < 4 ->
     nth (Z.to_nat j) group 0 = Z.b2z ((j =? code mod 4) || (j =? code / 4))) /\
  (forall q0 q1 q2 q3,
     CreateMeta.two_true q0 q1 q2 q3 = true ->
     fst (CreateMeta.encode q0 q1 q2 q3) = code ->
     (q0, q1, q2, q3) = (pos0, pos1, pos2, pos3)).
Proof.
  intros Hc code group.
  assert (Hj : forall j, 0 <= j < 4 -> j = 0 \/ j = 1 \/ j = 2 \/ j = 3) by (intros; lia).
  destruct (two_true_cases _ _ _ _ Hc) as [E | [E | [E | [E | [E | E]]]]];
    inversion E; subst; clear E;
    (split; [vm_compute; intuition discriminate |]);
    (split; [reflexivity |]);
    (split;
     [intros j H; destruct (Hj j H) as [-> | [-> | [-> | ->]]]; reflexivity
     | intros q0 q1 q2 q3 Hq Hcode;
       destruct (two_true_cases _ _ _ _ Hq) as [E | [E | [E | [E | [E | E]]]]];
       inversion E; subst; clear E; try discriminate Hcode; reflexivity]).
Qed.

Lemma code_names_true_entries_witness :
  fst (CreateMeta.encode 0 1 0 1) = 13 /\
  (forall j, 0 <= j < 4 ->
     nth (Z.to_nat j) [0; 1; 0; 1] 0 = Z.b2z ((j =? 1) || (j =? 3))).
Proof.
  split; [reflexivity |].
  exact (proj1 (proj2 (proj2 (code_names_true_entries 0 1 0 1 eq_refl)))).
Defined.

(** ** The builder as a whole *)

Section BuilderFlag.

Import CreateMeta.

Variable sizeof_T : Z.
Variables length_m length_k mask_stride : Z.
Variable mask : Z -> Z.
Variable meta_stride : Z.

Let cfg := Dispatch.create_meta_launch length_m length_k.

Hypothesis m_int : 0 <= length_m < 2 ^ 31 - 15.
Hypothesis k_int : 0 <= length_k < 2 ^ 31 - 63.

Lemma raises_flag_group (t : Thread) :
  raises_flag length_m length_k mask_stride mask cfg t
  = in_range length_m length_k cfg t
    && negb (group_two_true mask_stride mask (m_of cfg t) (k_of cfg t)).
Proof.
  unfold raises_flag, thread_code, group_two_true, pos.
  rewrite encode_flag. reflexivity.
Qed.

(** Some worker of the launch raises the flag exactly when some group in
    range does not have exactly two [true] entries and two [false]
    ones. *)
Lemma flag_raised_iff :
  existsb (raises_flag length_m length_k mask_stride mask cfg) (threads cfg) = true <->
  exists m k, 0 <= m < length_m /\ 0 <= k < Z.quot length_k 4 /\
              group_two_true mask_stride mask m k = false.
Proof.
  rewrite existsb_exists. split.
  - intros (t & Hin & H). rewrite raises_flag_group in H.
    apply andb_true_iff in H. destruct H as [Hr Hc].
    apply negb_true_iff in Hc.
    destruct (in_range_inv length_m length_k m_int k_int t Hin Hr) as [Hm Hk].
    exists (m_of cfg t), (k_of cfg t). auto.
  - intros (m & k & Hm & Hk & Hc).
    destruct (create_thread_exists length_m length_k m_int k_int m k Hm Hk)
      as (t & Hin & Em & Ek & Hr).
    exists t. split; [exact Hin |].
    rewrite raises_flag_group. fold cfg in Hr, Em, Ek. rewrite Hr, Em, Ek, Hc.
    reflexivity.
Qed.

Lemma flag_not_raised_iff :
  existsb (raises_flag length_m length_k mask_stride mask cfg) (threads cfg) = false <->
  forall m k, 0 <= m < length_m -> 0 <= k < Z.quot length_k 4 ->
              group_two_true mask_stride mask m k = true.
Proof.
  split.
  - intros H m k Hm Hk.
    destruct (group_two_true mask_stride mask m k) eqn:E; [reflexivity |].
    exfalso. assert (Ht : existsb (raises_flag length_m length_k mask_stride mask cfg)
                                  (threads cfg) = true)
      by (apply flag_raised_iff; exists m, k; auto).
    rewrite H in Ht. discriminate.
  - intros H. apply not_true_is_false. intros Ht.
    apply flag_raised_iff in Ht. destruct Ht as (m & k & Hm & Hk & Hc).
    rewrite (H m k Hm Hk) in Hc. discriminate Hc.
Qed.

End BuilderFlag.

(** X2: under the launch of the host function the failure flag after the
    builder tells whether the mask is 2:4 sparse: it is 1 as soon as one
    group of four (of a row below [length_m], among the first
    [length_k / 4] groups) does not have exactly two [true] entries and two
    [false] ones, and it is what it was before the kernel, so 0 for the
    zeroed flag of the host function, when every such group has. *)
Theorem builder_flag_tells_validity
    (sizeof_T length_m length_k mask_stride : Z) (mask : Z -> Z) (meta_stride : Z)
    (s : CreateMeta.State) :
  0 <= length_m < 2 ^ 31 - 15 ->
  0 <= length_k < 2 ^ 31 - 63 ->
  let after :=
    CreateMeta.two_four_create_meta_kernel sizeof_T length_m length_k mask_stride mask
      meta_stride (Dispatch.create_meta_launch length_m length_k) s in
  ((exists m k, 0 <= m < length_m /\ 0 <= k < Z.quot length_k 4 /\
                CreateMeta.group_two_true mask_stride mask m k = false) ->
   CreateMeta.error after = 1) /\
  ((forall m k, 0 <= m < length_m -> 0 <= k < Z.quot length_k 4 ->
                CreateMeta.group_two_true mask_stride mask m k = true) ->
   CreateMeta.error after = CreateMeta.error s).
Proof.
  intros Hm Hk after. unfold after. rewrite kernel_error. split; intros H.
  - apply (flag_raised_iff length_m length_k mask_stride mask Hm Hk) in H.
    rewrite H. reflexivity.
  - apply (flag_not_raised_iff length_m length_k mask_stride mask Hm Hk) in H.
    rewrite H. reflexivity.
Qed.

(** X3: the builder writes to the metadata matrix only at the cells of
    the storage units of its rows, that is at offset
    [m * meta_stride + c] for a row [m] below [length_m] and a unit [c]
    that starts among the first [length_k / 4] groups; every other cell of
    the buffer holds after the kernel what it held before.  In particular
    a mask without rows, or with fewer than four columns, leaves the
    buffer as it was. *)
Theorem builder_writes_only_units
    (sizeof_T length_m length_k mask_stride : Z) (mask : Z -> Z) (meta_stride : Z)
    (s : CreateMeta.State) (a : Z) :
  0 < sizeof_T ->
  0 <= length_m < 2 ^ 31 - 15 ->
  0 <= length_k < 2 ^ 31 - 63 ->
  (forall m c, 0 <= m < length_m -> 0 <= c ->
               c * CreateMeta.tile_size sizeof_T < Z.quot length_k 4 ->
               a <> to_unsigned (m * meta_stride) + c) ->
  CreateMeta.meta
    (CreateMeta.two_four_create_meta_kernel sizeof_T length_m length_k mask_stride mask
       meta_stride (Dispatch.create_meta_launch length_m length_k) s) a
  = CreateMeta.meta s a.
Proof.
  intros Hsz Hm Hk Hfree.
  rewrite kernel_meta. apply run_stores_untouched. intros t v Hin Hst.
  unfold CreateMeta.thread_store in Hst.
  destruct (CreateMeta.in_range _ _ _ t) eqn:Hr; [| discriminate Hst].
  cbn [andb] in Hst.
  destruct (Z.rem _ _ =? 0) eqn:E0; [| discriminate Hst].
  apply Z.eqb_eq in E0. inversion Hst as [[Ha Hv]]. clear Hst.
  destruct (in_range_inv length_m length_k Hm Hk t Hin Hr) as [Hmr Hkr].
  set (k := CreateMeta.k_of (Dispatch.create_meta_launch length_m length_k) t) in *.
  set (tile := CreateMeta.tile_size sizeof_T) in *.
  assert (Htile : 0 < tile) by (unfold tile, CreateMeta.tile_size; lia).
  assert (Hq : 0 <= Z.quot k tile /\ Z.quot k tile * tile = k).
  { revert E0. div_lia. }
  apply (Hfree _ (Z.quot k tile) Hmr); [lia | lia | symmetry; exact Ha].
Qed.

(** The group of four bits number [j] of a packed value is code [j]. *)
Lemma packed_nibble (c : Z -> Z) (n : nat) (j : Z) :
  (forall i, 0 <= i < Z.of_nat n -> 0 <= c i < 16) ->
  0 <= j < Z.of_nat n ->
  Z.land (Z.shiftr (packed c n) (4 * j)) 15 = c j.
Proof.
  revert c j. induction n as [| n IH]; intros c j Hc Hj; [simpl in Hj; lia |].
  cbn [packed].
  assert (H0 : 0 <= c 0 < 16) by (apply Hc; lia).
  assert (Hrest : 0 <= packed (fun i => c (i + 1)) n)
    by (apply packed_range; intros i Hi; apply Hc; lia).
  change 15 with (Z.ones 4).
  destruct (Z.eq_dec j 0) as [-> | Hne].
  - rewrite Z.mul_0_r, Z.shiftr_0_r, Z.land_ones by lia.
    change (2 ^ 4) with 16. Z.div_mod_to_equations. lia.
  - specialize (IH (fun i => c (i + 1)) (j - 1)).
    replace (c j) with (c (j - 1 + 1)) by (f_equal; lia).
    rewrite <- IH; [| intros i Hi; apply Hc; lia | lia].
    change 15 with (Z.ones 4). f_equal.
    rewrite !Z.shiftr_div_pow2 by lia.
    replace (4 * j) with (4 + 4 * (j - 1)) by lia.
    rewrite Z.pow_add_r by lia. change (2 ^ 4) with 16.
    rewrite <- Z.div_div by (try lia; apply Z.pow_pos_nonneg; lia).
    f_equal. Z.div_mod_to_equations. lia.
Qed.




Lemma builder_flag_tells_validity_witness :
  CreateMeta.error
    (CreateMeta.two_four_create_meta_kernel 2 32 64 64 (fun _ => 0) 4
       (Dispatch.create_meta_launch 32 64) (CreateMeta.mkState empty_buffer 0)) = 1.
Proof.
  apply (builder_flag_tells_validity 2 32 64 64 (fun _ => 0) 4
           (CreateMeta.mkState empty_buffer 0)); [lia | lia |].
  exists 0, 0. split; [lia |]. split; [vm_compute; intuition discriminate |].
  vm_compute. reflexivity.
Defined.

Lemma builder_writes_only_units_witness :
  CreateMeta.meta
    (CreateMeta.two_four_create_meta_kernel 2 32 64 64 Dispatch.demo_mask 4
       (Dispatch.create_meta_launch 32 64) (CreateMeta.mkState (fun _ => Some 7) 0)) 128
  = Some 7.
Proof.
  apply (builder_writes_only_units 2 32 64 64 Dispatch.demo_mask 4
           (CreateMeta.mkState (fun _ => Some 7) 0) 128); [lia | lia | lia |].
  intros m c Hm Hc Hlt. change (CreateMeta.tile_size 2) with 4 in Hlt.
  change (Z.quot 64 4) with 16 in Hlt.
  rewrite to_unsigned_small by lia. lia.
Defined.


(** ** The reorderer as a whole *)

(** X5: the reorderer moves every element inside its own group of rows
    (32 rows for 2-byte elements, 16 otherwise) and inside its own pair of
    columns, whatever the sizes of the matrix; the inverse permutation
    leads back from the destination, so no two elements are ever sent to
    the same cell. *)
Theorem reorder_stays_in_block (sizeof_Element m k : Z) :
  0 <= m -> 0 <= k ->
  let r := fst (ReorderMeta.dst_coord sizeof_Element m k) in
  let c := snd (ReorderMeta.dst_coord sizeof_Element m k) in
  0 <= r /\ 0 <= c /\
  Z.quot r (ReorderMeta.group sizeof_Element) = Z.quot m (ReorderMeta.group sizeof_Element) /\
  Z.quot c 2 = Z.quot k 2 /\
  ReorderMeta.src_coord sizeof_Element r c = (m, k) /\
  (forall m' k', 0 <= m' -> 0 <= k' ->
     ReorderMeta.dst_coord sizeof_Element m' k' = ReorderMeta.dst_coord sizeof_Element m k ->
     (m', k') = (m, k)).
Proof.
  intros Hm Hk r c.
  assert (Hr0 : 0 <= ReorderMeta.reorder_row sizeof_Element m /\
                Z.quot (ReorderMeta.reorder_row sizeof_Element m)
                       (ReorderMeta.group sizeof_Element)
                = Z.quot m (ReorderMeta.group sizeof_Element) /\
                (ReorderMeta.group sizeof_Element = 32
                 \/ ReorderMeta.group sizeof_Element = 16)).
  { unfold ReorderMeta.reorder_row.
    destruct (group_cases sizeof_Element) as [[E1 E2] | [E1 E2]]; rewrite E1, E2;
      (split; [nonneg |]); (split; [div_lia | auto]). }
  destruct Hr0 as (Hr0 & Hq & Hg).
  split; [| split; [| split; [| split; [| split]]]].
  5: { apply src_dst_coord; assumption. }
  5: { intros m' k' Hm' Hk' E. apply dst_coord_injective in E; assumption. }
  all: assert (Hodd : forall x, 0 <= x -> Z.rem x 2 = 1 -> 1 <= x)
    by (intros x Hx H; destruct (Z.eq_dec x 0) as [-> |]; [discriminate H | lia]).
  all: unfold r, c, ReorderMeta.dst_coord; rewrite <- ?Hq;
    generalize dependent (ReorderMeta.reorder_row sizeof_Element m); intros r0 Hr0 _;
    destruct (swizzle_cases r0 k Hr0 Hk) as [(R & C & E) | [(R & C & E) | (RC & E)]];
    rewrite E; cbn [fst snd]; try reflexivity;
    try (pose proof (Hodd _ Hr0 R)); try (pose proof (Hodd _ Hk C)); try lia;
    revert R C; destruct Hg as [Hg | Hg]; rewrite ?Hg; div_lia.
Qed.

Lemma reorder_stays_in_block_witness :
  ReorderMeta.dst_coord 2 41 3 = (37, 3) /\
  Z.quot 37 (ReorderMeta.group 2) = Z.quot 41 (ReorderMeta.group 2) /\
  ReorderMeta.src_coord 2 37 3 = (41, 3).
Proof.
  pose proof (reorder_stays_in_block 2 41 3 ltac:(lia) ltac:(lia)) as (_ & _ & H1 & _ & H2 & _).
  split; [reflexivity |]. split; [exact H1 | exact H2].
Defined.

(** X6: the reorderer writes to the destination only at the cells that
    the index map names for the cells of the source matrix; every other
    cell of the destination buffer is left as it was.  A matrix without
    rows or without columns leaves the whole buffer as it was. *)
Theorem reorder_writes_only_image
    (sizeof_Element M N : Z) (src : TensorRef) (dst_layout : Z * Z -> Z)
    (dst : Buffer) (a : Z) :
  M + 15 < 2 ^ 31 ->
  N + 15 < 2 ^ 31 ->
  (forall m k, ReorderMeta.in_grid M N (m, k) ->
               a <> dst_layout (ReorderMeta.dst_coord sizeof_Element m k)) ->
  ReorderMeta.two_four_reorder_meta_kernel sizeof_Element M N src dst_layout
    (Dispatch.reorder_meta_launch M N) dst a
  = dst a.
Proof.
  intros HM HN Hfree. unfold ReorderMeta.two_four_reorder_meta_kernel.
  apply run_stores_untouched. intros t v Hin Hst.
  destruct (reorder_thread_store_inv sizeof_Element M N src dst_layout HM HN t a v Hin Hst)
    as (Hg & Ha & _).
  exact (Hfree _ _ Hg Ha).
Qed.

Lemma reorder_writes_only_image_witness :
  ReorderMeta.two_four_reorder_meta_kernel 2 32 2
    (mkTensorRef (fun a => Some a) (RowMajor_packed (32, 2))) (RowMajor_packed (32, 2))
    (Dispatch.reorder_meta_launch 32 2) (fun _ => Some 7) 64
  = Some 7.
Proof.
  apply (reorder_writes_only_image 2 32 2
           (mkTensorRef (fun a => Some a) (RowMajor_packed (32, 2))) (RowMajor_packed (32, 2))
           (fun _ => Some 7) 64); [lia | lia |].
  intros m k Hg.
  pose proof (dst_coord_in_grid 2 32 2 eq_refl eq_refl m k Hg) as [Hr Hc].
  unfold RowMajor_packed. simpl in *. lia.
Defined.

(** ** The launch configurations *)

Lemma NoDup_range (n : Z) : NoDup (range n).
Proof.
  unfold range. apply NoDup_map_NoDup_ForallPairs; [| apply seq_NoDup].
  intros x y _ _ E. lia.
Qed.

Lemma NoDup_flat_map {A B : Type} (f : A -> list B) (l : list A) :
  NoDup l ->
  (forall x, In x l -> NoDup (f x)) ->
  (forall x y b, In x l -> In y l -> In b (f x) -> In b (f y) -> x = y) ->
  NoDup (flat_map f l).
Proof.
  induction l as [| x l IH]; intros Hl Hf Hdisj; [constructor |].
  cbn [flat_map]. inversion Hl as [| ? ? Hx Hl']; subst.
  apply NoDup_app.
  - apply Hf. left. reflexivity.
  - apply IH; [exact Hl' | intros y Hy; apply Hf; right; exact Hy |].
    intros y z b Hy Hz. apply Hdisj; right; assumption.
  - intros b Hb Hb'. apply in_flat_map in Hb'. destruct Hb' as (y & Hy & Hby).
    assert (x = y) by (apply (Hdisj x y b); [left; reflexivity | right; exact Hy | exact Hb | exact Hby]).
    subst y. contradiction.
Qed.

(** No thread is listed twice among the threads of a launch. *)
Lemma NoDup_threads (cfg : LaunchConfig) : NoDup (threads cfg).
Proof.
  unfold threads.
  apply NoDup_flat_map; [apply NoDup_range | |].
  - intros by_ _. apply NoDup_flat_map; [apply NoDup_range | |].
    + intros bx _. apply NoDup_flat_map; [apply NoDup_range | |].
      * intros ty _. apply NoDup_map_NoDup_ForallPairs; [| apply NoDup_range].
        intros x y _ _ E. inversion E. reflexivity.
      * intros ty ty' b _ _ H H'. apply in_map_iff in H, H'.
        destruct H as (x & <- & _). destruct H' as (x' & E & _). inversion E. reflexivity.
    + intros bx bx' b _ _ H H'. apply in_flat_map in H, H'.
      destruct H as (ty & _ & H). destruct H' as (ty' & _ & H').
      apply in_map_iff in H, H'.
      destruct H as (x & <- & _). destruct H' as (x' & E & _). inversion E. reflexivity.
  - intros by_ by_' b _ _ H H'. apply in_flat_map in H, H'.
    destruct H as (bx & _ & H). destruct H' as (bx' & _ & H').
    apply in_flat_map in H, H'.
    destruct H as (ty & _ & H). destruct H' as (ty' & _ & H').
    apply in_map_iff in H, H'.
    destruct H as (x & <- & _). destruct H' as (x' & E & _). inversion E. reflexivity.
Qed.

(** X7: the grids the host function launches the two kernels on give
    every group of four of every row of the mask exactly one worker of
    the builder that is in range, and every cell of the metadata matrix
    exactly one thread of the reorderer: blocks of 16 x 16 threads,
    [(length_k + 63) / 64] by [(length_m + 15) / 16] of them for the
    builder and [(meta_ncols + 15) / 16] by [(length_m + 15) / 16] for the
    reorderer. *)
Theorem launches_cover_once (length_m length_k meta_ncols : Z) :
  0 <= length_m < 2 ^ 31 - 15 ->
  0 <= length_k < 2 ^ 31 - 63 ->
  meta_ncols + 15 < 2 ^ 31 ->
  let create := Dispatch.create_meta_launch length_m length_k in
  let reorder := Dispatch.reorder_meta_launch length_m meta_ncols in
  NoDup (threads create) /\ NoDup (threads reorder) /\
  (forall m k, 0 <= m < length_m -> 0 <= k < Z.quot length_k 4 ->
     exists t, In t (threads create) /\
       CreateMeta.in_range length_m length_k create t = true /\
       CreateMeta.m_of create t = m /\ CreateMeta.k_of create t = k /\
       forall t', In t' (threads create) ->
         CreateMeta.m_of create t' = m -> CreateMeta.k_of create t' = k -> t' = t) /\
  (forall m k, 0 <= m < length_m -> 0 <= k < meta_ncols ->
     exists t, In t (threads reorder) /\
       ReorderMeta.m_of reorder t = m /\ ReorderMeta.k_of reorder t = k /\
       forall t', In t' (threads reorder) ->
         ReorderMeta.m_of reorder t' = m -> ReorderMeta.k_of reorder t' = k -> t' = t).
Proof.
  intros Hm Hk Hn create reorder.
  split; [apply NoDup_threads |]. split; [apply NoDup_threads |]. split.
  - intros m k Hmr Hkr.
    destruct (create_thread_exists length_m length_k Hm Hk m k Hmr Hkr)
      as (t & Hin & Em & Ek & Hr).
    exists t. repeat (split; [assumption |]).
    intros t' Hin' Em' Ek'.
    destruct (create_thread_coords length_m length_k Hm Hk t Hin) as (Ck & Cm & ?).
    destruct (create_thread_coords length_m length_k Hm Hk t' Hin') as (Ck' & Cm' & ?).
    fold create in Em, Ek, Ck, Cm, Ck', Cm'.
    destruct t as [bx by_ tx ty], t' as [bx' by_' tx' ty'].
    cbn [blockIdx_x blockIdx_y threadIdx_x threadIdx_y] in *.
    f_equal; lia.
  - intros m k Hmr Hkr.
    assert (HM : length_m + 15 < 2 ^ 31) by lia.
    destruct (reorder_thread_exists length_m meta_ncols HM Hn m k) as (t & Hin & Em & Ek);
      [split; assumption |].
    exists t. repeat (split; [assumption |]).
    intros t' Hin' Em' Ek'.
    destruct (reorder_thread_coords length_m meta_ncols HM Hn t Hin) as (Ck & Cm & _).
    destruct (reorder_thread_coords length_m meta_ncols HM Hn t' Hin') as (Ck' & Cm' & _).
    fold reorder in Em, Ek, Ck, Cm, Ck', Cm'.
    apply in_threads_iff in Hin, Hin'.
    destruct t as [bx by_ tx ty], t' as [bx' by_' tx' ty'].
    unfold reorder, Dispatch.reorder_meta_launch in Hin, Hin'.
    cbn [blockIdx_x blockIdx_y threadIdx_x threadIdx_y
         gridDim_x gridDim_y blockDim_x blockDim_y] in *.
    f_equal; lia.
Qed.

Lemma launches_cover_once_witness :
  NoDup (threads (Dispatch.create_meta_launch 32 64)) /\
  exists t, In t (threads (Dispatch.create_meta_launch 32 64)) /\
    CreateMeta.m_of (Dispatch.create_meta_launch 32 64) t = 17 /\
    CreateMeta.k_of (Dispatch.create_meta_launch 32 64) t = 9.
Proof.
  destruct (launches_cover_once 32 64 4 ltac:(lia) ltac:(lia) ltac:(lia))
    as (Hnd & _ & Hc & _).
  split; [exact Hnd |].
  destruct (Hc 17 9 ltac:(lia) ltac:(vm_compute; intuition discriminate))
    as (t & Hin & _ & Em & Ek & _).
  exists t. auto.
Defined.

(** ** The outcomes of a call *)

Section Outcomes.

Import Dispatch.
Local Open Scope host_scope.

Variable env : Env.

(** The part of the wrapper from "Prepare arguments for CUTLASS sparse
    GEMM kernel" on: each of the three statuses and the launch check ends
    the call, in this order. *)
Lemma sparse_gemm_steps (targs : TemplateArgs) (length_m length_n length_k meta_ncols : Z)
    (tensor_a : Tensor) (sa : Z) (tensor_b : Tensor) (sb : Z) (d meta : Tensor) :
  let G := Gemm env targs in
  let args :=
    mkArguments (length_m, length_n, length_k)
      (mkOperandRef (LayoutInputA targs) (data tensor_a) sa)
      (mkOperandRef (LayoutInputB targs) (data tensor_b) sb)
      (mkOperandRef RowMajor (data d) (stride d 0))
      (mkOperandRef RowMajor (data d) (stride d 0))
      (mkTensorRef (data meta) (LayoutE_packed G (length_m, meta_ncols)))
      (1, 0) 1 in
  let steps := [ev_new_empty [get_workspace_size G args] kByte;
                ev_gemm_initialize args] in
  sparse_gemm env targs length_m length_n length_k meta_ncols
              tensor_a sa tensor_b sb d meta
  = if negb (is_success (can_implement G args)) then
      ([], inl (CutlassError (can_implement G args)))
    else if negb (is_success (initialize G args)) then
      (steps, inl (CutlassError (initialize G args)))
    else if negb (is_success (fst (run G args))) then
      (steps ++ [ev_gemm_run args], inl (CutlassError (fst (run G args))))
    else if launch_failed env sparse_gemm_kernel then
      (steps ++ [ev_gemm_run args], inl (CudaLaunchError sparse_gemm_kernel))
    else
      (steps ++ [ev_gemm_run args], inr (with_data d (snd (run G args)), meta)).
Proof.
  intros G args steps. unfold steps, args, G.
  unfold sparse_gemm, CUTLASS_STATUS_CHECK, C10_CUDA_KERNEL_LAUNCH_CHECK. cbv zeta.
  destruct (is_success (can_implement _ _)); cbn [negb]; [| reflexivity].
  destruct (is_success (initialize _ _)); cbn [negb]; [| reflexivity].
  destruct (run _ _) as [status buf]. cbn [fst snd].
  destruct (is_success status); cbn [negb]; [| reflexivity].
  destruct (launch_failed env sparse_gemm_kernel); reflexivity.
Qed.

Lemma sparse_gemm_outcome (targs : TemplateArgs) (tensor_a tensor_b d meta : Tensor) :
  let G := Gemm env targs in
  let args := gemm_arguments G targs tensor_a tensor_b d meta in
  let steps := [ev_new_empty [get_workspace_size G args] kByte;
                ev_gemm_initialize args] in
  sparse_gemm env targs (to_int (size tensor_a 0)) (to_int (size tensor_b 1))
              (to_int (size tensor_b 0)) (meta_columns G tensor_b)
              tensor_a (leading_stride tensor_a) tensor_b (leading_stride tensor_b) d meta
  = if negb (is_success (can_implement G args)) then
      ([], inl (CutlassError (can_implement G args)))
    else if negb (is_success (initialize G args)) then
      (steps, inl (CutlassError (initialize G args)))
    else if negb (is_success (fst (run G args))) then
      (steps ++ [ev_gemm_run args], inl (CutlassError (fst (run G args))))
    else if launch_failed env sparse_gemm_kernel then
      (steps ++ [ev_gemm_run args], inl (CudaLaunchError sparse_gemm_kernel))
    else
      (steps ++ [ev_gemm_run args], inr (with_data d (snd (run G args)), meta)).
Proof. intros G args steps. apply sparse_gemm_steps. Qed.

Lemma is_success_iff (s : Status) : is_success s = true <-> s = kSuccess.
Proof. destruct s; simpl; split; intros H; try reflexivity; discriminate H. Qed.

Lemma is_success_false_iff (s : Status) : is_success s = false <-> s <> kSuccess.
Proof. destruct s; simpl; split; intros H; try congruence; try discriminate. Qed.

(** The specialization chosen for accepted operands has the operands'
    layouts and gives a product of one of the two datatypes. *)
Lemma accepted_targs (tensor_a tensor_b : Tensor) (targs : TemplateArgs) :
  accepted env tensor_a tensor_b targs ->
  LayoutInputA targs = matrix_layout tensor_a /\
  LayoutInputB targs = matrix_layout tensor_b /\
  (ElementOutput targs = int32_t \/ ElementOutput targs = half_t) /\
  (match ElementOutput targs with
   | int32_t => ret kInt
   | half_t => ret kHalf
   | _ => throw InvalidOutputDatatype
   end = ret (product_dtype targs)).
Proof.
  intros (_ & _ & _ & Hsp & _).
  destruct (scalar_type tensor_a), (matrix_layout tensor_a), (matrix_layout tensor_b);
    simpl in Hsp; inversion Hsp; subst; repeat split; auto.
Qed.

(** A call on accepted operands: the product is allocated, the metadata
    is built from a boolean mask or taken as it is, and the engine is
    driven. *)
Lemma accepted_call (tensor_a tensor_b mask_or_meta : Tensor) (targs : TemplateArgs) :
  accepted env tensor_a tensor_b targs ->
  let G := Gemm env targs in
  let rest :=
    meta_reordered <- (if ScalarType_eqb (scalar_type mask_or_meta) kBool
                       then meta_from_mask env targs (to_int (size tensor_a 0))
                              (to_int (size tensor_b 0)) (meta_columns G tensor_b)
                              mask_or_meta
                       else ret mask_or_meta) ;;
    sparse_gemm env targs (to_int (size tensor_a 0)) (to_int (size tensor_b 1))
                (to_int (size tensor_b 0)) (meta_columns G tensor_b)
                tensor_a (leading_stride tensor_a) tensor_b (leading_stride tensor_b)
                (product_empty tensor_a tensor_b targs) meta_reordered in
  _structured_sparse_linear env tensor_a tensor_b mask_or_meta
  = (product_allocation tensor_a tensor_b targs :: fst rest, snd rest).
Proof.
  intros Hacc G rest.
  destruct (accepted_targs _ _ _ Hacc) as (_ & _ & _ & Hdt).
  destruct Hacc as (Hsm & Ha & Hb & Hsp & HM & HK & HN).
  rewrite (dispatch_reduces env _ _ _ Hsm Ha Hb), Hsp.
  rewrite wrapper_checks_unfold.
  apply Z.eqb_eq in HM, HK, HN. rewrite HM, HK, HN.
  rewrite !TORCH_CHECK_true, !bind_ret_l. cbv zeta.
  rewrite Hdt, bind_ret_l, new_empty_eq, bind_pair. reflexivity.
Qed.

(** Building the metadata from a mask that passes its checks: the
    launch of the builder, the flag, and the launch of the reorderer each
    end the call, in this order. *)
Lemma meta_from_mask_outcome (targs : TemplateArgs) (tensor_a tensor_b mask : Tensor) :
  let G := Gemm env targs in
  let length_m := to_int (size tensor_a 0) in
  let meta_ncols := meta_columns G tensor_b in
  let dtype := meta_dtype_of (sizeof_ElementE G) in
  let built := [ev_new_empty [length_m; meta_ncols] dtype;
                ev_new_zeros [1] kInt;
                ev_launch create_meta_kernel] in
  let reordered := [ev_item;
                    ev_new_empty [length_m; meta_ncols] dtype;
                    ev_launch reorder_meta_kernel] in
  mask_ok mask = true ->
  sizeof_ElementE G = 1 \/ sizeof_ElementE G = 2 \/ sizeof_ElementE G = 4 ->
  meta_from_mask env targs length_m (to_int (size tensor_b 0)) meta_ncols mask
  = if launch_failed env create_meta_kernel then
      (built, inl (CudaLaunchError create_meta_kernel))
    else if negb (CreateMeta.error (built_meta G tensor_a tensor_b mask) =? 0) then
      (built ++ [ev_item], inl MaskNotTwoFourSparse)
    else if launch_failed env reorder_meta_kernel then
      (built ++ reordered, inl (CudaLaunchError reorder_meta_kernel))
    else
      (built ++ reordered, inr (reordered_meta G tensor_a tensor_b mask)).
Proof.
  intros G length_m meta_ncols dtype built reordered Hok Hsz.
  destruct (mask_ok_inv mask Hok) as (H1 & H2 & H3).
  unfold meta_from_mask. rewrite H1, H2, H3.
  rewrite !TORCH_CHECK_true, !bind_ret_l.
  assert (Hdt : (if sizeof_ElementE (Gemm env targs) =? 1 then ret kChar
                 else if sizeof_ElementE (Gemm env targs) =? 2 then ret kShort
                 else if sizeof_ElementE (Gemm env targs) =? 4 then ret kInt
                 else throw InvalidMetaDatatypeSize)
                = ret dtype).
  { unfold dtype, meta_dtype_of. unfold G in *.
    destruct Hsz as [E | [E | E]]; rewrite E; reflexivity. }
  rewrite Hdt, bind_ret_l.
  rewrite new_empty_eq, bind_pair. cbv beta.
  rewrite new_zeros_eq, !bind_pair. cbv beta.
  rewrite !(bind_tell (ev_launch create_meta_kernel)). cbv beta zeta.
  unfold C10_CUDA_KERNEL_LAUNCH_CHECK.
  destruct (launch_failed env create_meta_kernel); cbn [negb]; [reflexivity |].
  rewrite !TORCH_CHECK_true, !bind_ret_l, !(bind_tell ev_item).
  change (CreateMeta.two_four_create_meta_kernel _ _ _ _ _ _ _ _)
    with (built_meta G tensor_a tensor_b mask).
  destruct (CreateMeta.error (built_meta G tensor_a tensor_b mask) =? 0);
    cbn [negb]; [| reflexivity].
  rewrite !TORCH_CHECK_true, !bind_ret_l.
  destruct (launch_failed env reorder_meta_kernel); reflexivity.
Qed.

End Outcomes.

(** ** The checks on the device and on the operands *)

Section Validation.

Import Dispatch.
Local Open Scope host_scope.

Lemma Layout_eqb_Strided (l : Layout) : Layout_eqb l Strided = true <-> l = Strided.
Proof. destruct l; simpl; split; intros H; try reflexivity; discriminate H. Qed.

Lemma strides_check_iff (t : Tensor) :
  ((nth 0 (strides t) 0 =? 1) || (nth 1 (strides t) 0 =? 1))
  && negb (nth 0 (strides t) 0 =? nth 1 (strides t) 0) = true
  <-> one_unit_stride t.
Proof.
  unfold one_unit_stride.
  destruct (Z.eqb_spec (nth 0 (strides t) 0) 1) as [E0 | E0];
    destruct (Z.eqb_spec (nth 1 (strides t) 0) 1) as [E1 | E1];
    destruct (Z.eqb_spec (nth 0 (strides t) 0) (nth 1 (strides t) 0)) as [E | E];
    simpl; split; intros H; try discriminate H; try reflexivity; try lia;
    try (left; split; assumption); try (right; split; assumption).
Qed.

Lemma operand_ok_iff (t : Tensor) :
  operand_ok t = true <-> layout t = Strided /\ dim t = 2 /\ one_unit_stride t.
Proof.
  unfold operand_ok. split.
  - intros H. apply andb_true_iff in H. destruct H as [H H3].
    apply andb_true_iff in H. destruct H as [H1 H2].
    split; [apply Layout_eqb_Strided, H1 |].
    split; [apply Z.eqb_eq, H2 | apply strides_check_iff, H3].
  - intros (H1 & H2 & H3).
    apply Layout_eqb_Strided in H1. apply Z.eqb_eq in H2. apply strides_check_iff in H3.
    rewrite H1, H2, H3. reflexivity.
Qed.

End Validation.

(** X8: the checks at the head of the call are made in a fixed order,
    and the first one that fails decides the error: the generation of the
    device, then for the sparse operand and after it for the dense one
    that it is strided, that it has two dimensions, and that exactly one
    of its two strides is 1.  Each of these errors comes with nothing
    asked of the device, and whatever the third argument and the
    datatypes are. *)
Theorem operand_validation
    (env : Dispatch.Env) (tensor_a tensor_b mask_or_meta : Dispatch.Tensor) :
  let out := Dispatch._structured_sparse_linear env tensor_a tensor_b mask_or_meta in
  let fails e := out = ([], inl e) in
  let checked t :=
    Dispatch.layout t = Dispatch.Strided /\ Dispatch.dim t = 2 /\
    Dispatch.one_unit_stride t in
  let first_error arg t e :=
    (Dispatch.layout t <> Dispatch.Strided /\
     e = Dispatch.ExpectedStrided arg (Dispatch.layout t)) \/
    (Dispatch.layout t = Dispatch.Strided /\ Dispatch.dim t <> 2 /\
     e = Dispatch.Expected2D arg (Dispatch.dim t)) \/
    (Dispatch.layout t = Dispatch.Strided /\ Dispatch.dim t = 2 /\
     ~ Dispatch.one_unit_stride t /\
     e = Dispatch.InvalidStrides arg (Dispatch.stride t 0) (Dispatch.stride t 1)) in
  (Dispatch.major env <> 8 -> fails Dispatch.NotSm8x) /\
  (forall e, Dispatch.major env = 8 ->
     first_error Dispatch.arg_tensor_a tensor_a e -> fails e) /\
  (forall e, Dispatch.major env = 8 -> checked tensor_a ->
     first_error Dispatch.arg_tensor_b tensor_b e -> fails e) /\
  (forall arg t, checked t \/ exists e, first_error arg t e).
Proof.
  intros out fails checked first_error.
  assert (Hbool : forall t,
            (Dispatch.layout t <> Dispatch.Strided ->
             Dispatch.Layout_eqb (Dispatch.layout t) Dispatch.Strided = false) /\
            (Dispatch.layout t = Dispatch.Strided ->
             Dispatch.Layout_eqb (Dispatch.layout t) Dispatch.Strided = true) /\
            (~ Dispatch.one_unit_stride t ->
             ((nth 0 (Dispatch.strides t) 0 =? 1) || (nth 1 (Dispatch.strides t) 0 =? 1))
             && negb (nth 0 (Dispatch.strides t) 0 =? nth 1 (Dispatch.strides t) 0) = false) /\
            (Dispatch.one_unit_stride t ->
             ((nth 0 (Dispatch.strides t) 0 =? 1) || (nth 1 (Dispatch.strides t) 0 =? 1))
             && negb (nth 0 (Dispatch.strides t) 0 =? nth 1 (Dispatch.strides t) 0) = true)).
  { intros t. repeat split; intros H.
    - apply not_true_is_false. intros E. apply H, Layout_eqb_Strided, E.
    - apply Layout_eqb_Strided, H.
    - apply not_true_is_false. intros E. apply H, strides_check_iff, E.
    - apply strides_check_iff, H. }
  unfold fails, out, Dispatch._structured_sparse_linear.
  split; [| split; [| split]].
  - intros H. apply Z.eqb_neq in H. rewrite H. reflexivity.
  - intros e Hsm Ha. rewrite Hsm. change (8 =? 8) with true.
    rewrite TORCH_CHECK_true, bind_ret_l.
    destruct (Hbool tensor_a) as (L0 & L1 & S0 & S1).
    destruct Ha as [(Hl & ->) | [(Hl & Hd & ->) | (Hl & Hd & Hs & ->)]].
    + rewrite (L0 Hl). reflexivity.
    + rewrite (L1 Hl). apply Z.eqb_neq in Hd. rewrite Hd. reflexivity.
    + rewrite (L1 Hl), Hd, (S0 Hs). reflexivity.
  - intros e Hsm (Al & Ad & As) Hb. rewrite Hsm. change (8 =? 8) with true.
    destruct (Hbool tensor_a) as (_ & A1 & _ & A3).
    rewrite (A1 Al), Ad, (A3 As). change (2 =? 2) with true.
    rewrite !TORCH_CHECK_true, !bind_ret_l.
    destruct (Hbool tensor_b) as (L0 & L1 & S0 & S1).
    destruct Hb as [(Hl & ->) | [(Hl & Hd & ->) | (Hl & Hd & Hs & ->)]].
    + rewrite (L0 Hl). reflexivity.
    + rewrite (L1 Hl). apply Z.eqb_neq in Hd. rewrite Hd. reflexivity.
    + rewrite (L1 Hl), Hd, (S0 Hs). reflexivity.
  - intros arg t. unfold checked, first_error.
    destruct (Dispatch.Layout_eqb (Dispatch.layout t) Dispatch.Strided) eqn:El.
    + apply Layout_eqb_Strided in El.
      destruct (Z.eq_dec (Dispatch.dim t) 2) as [Ed | Ed].
      * destruct (((nth 0 (Dispatch.strides t) 0 =? 1) || (nth 1 (Dispatch.strides t) 0 =? 1))
                  && negb (nth 0 (Dispatch.strides t) 0 =? nth 1 (Dispatch.strides t) 0))
          eqn:Es.
        -- apply strides_check_iff in Es. left. auto.
        -- right. eexists. right. right. repeat split; try assumption; try reflexivity.
           intros H. apply strides_check_iff in H. congruence.
      * right. eexists. right. left. repeat split; try assumption; reflexivity.
    + right. eexists. left. split; [| reflexivity].
      intros H. apply Layout_eqb_Strided in H. congruence.
Qed.

(** ** The checks on a mask *)

(** X9: a boolean mask is looked at only after the product has been
    allocated.  For accepted operands, a mask that is not strided, or not
    two-dimensional, or whose column stride is not 1, and after these a
    metadata element size other than 1, 2 or 4 bytes, each ends the call
    in its own error with the allocation of the product as the only thing
    asked of the device: no metadata buffer, no kernel.  The row stride of
    the mask is not constrained. *)
Theorem mask_validation
    (env : Dispatch.Env) (tensor_a tensor_b mask : Dispatch.Tensor)
    (targs : Dispatch.TemplateArgs) :
  Dispatch.accepted env tensor_a tensor_b targs ->
  Dispatch.scalar_type mask = Dispatch.kBool ->
  let out := Dispatch._structured_sparse_linear env tensor_a tensor_b mask in
  let fails e := out = ([Dispatch.product_allocation tensor_a tensor_b targs], inl e) in
  let sz := Dispatch.sizeof_ElementE (Dispatch.Gemm env targs) in
  (Dispatch.layout mask <> Dispatch.Strided ->
   fails (Dispatch.ExpectedStrided Dispatch.arg_mask (Dispatch.layout mask))) /\
  (Dispatch.layout mask = Dispatch.Strided -> Dispatch.dim mask <> 2 ->
   fails (Dispatch.Expected2D Dispatch.arg_mask (Dispatch.dim mask))) /\
  (Dispatch.layout mask = Dispatch.Strided -> Dispatch.dim mask = 2 ->
   Dispatch.stride mask 1 <> 1 ->
   fails (Dispatch.InvalidStrides Dispatch.arg_mask
            (Dispatch.stride mask 0) (Dispatch.stride mask 1))) /\
  (Dispatch.layout mask = Dispatch.Strided -> Dispatch.dim mask = 2 ->
   Dispatch.stride mask 1 = 1 ->
   sz <> 1 -> sz <> 2 -> sz <> 4 ->
   fails Dispatch.InvalidMetaDatatypeSize).
Proof.
  intros Hacc Hbool out fails sz. unfold fails, out.
  rewrite (accepted_call env _ _ _ _ Hacc). cbv zeta.
  rewrite Hbool. cbn [Dispatch.ScalarType_eqb].
  unfold Dispatch.meta_from_mask, Dispatch.stride.
  split; [| split; [| split]].
  - intros Hl.
    replace (Dispatch.Layout_eqb (Dispatch.layout mask) Dispatch.Strided) with false
      by (symmetry; apply not_true_is_false; intros E; apply Hl, Layout_eqb_Strided, E).
    reflexivity.
  - intros Hl Hd. rewrite Hl. apply Z.eqb_neq in Hd. rewrite Hd. reflexivity.
  - intros Hl Hd Hs. rewrite Hl, Hd. apply Z.eqb_neq in Hs. rewrite Hs. reflexivity.
  - intros Hl Hd Hs H1 H2 H4. rewrite Hl, Hd, Hs.
    apply Z.eqb_neq in H1, H2, H4. fold sz. unfold sz in H1, H2, H4.
    unfold sz. rewrite H1, H2, H4. reflexivity.
Qed.

(** ** Launch failures and the steps of the engine *)

Section Checked.

Import Dispatch.
Local Open Scope host_scope.

Variable env : Env.

(** A launch error is raised for a kernel only when the driver reported
    the launch of that kernel as failed. *)
Local Abbreviation launch_error_sound :=
  (fun e : Error => forall k, e = CudaLaunchError k -> launch_failed env k = true).

Ltac launch_sound :=
  sat; try exact I;
  let k := fresh "k" in let E := fresh "E" in
  intros k E; try discriminate E; inversion E; subst;
  match goal with
  | H : negb _ = false |- _ => apply negb_false_iff in H; exact H
  end.

Lemma meta_from_mask_launch_sound (targs : TemplateArgs)
    (length_m length_k meta_ncols : Z) (mask : Tensor) :
  Sat (fun _ => True) launch_error_sound
      (meta_from_mask env targs length_m length_k meta_ncols mask).
Proof. unfold meta_from_mask. launch_sound. Qed.

Lemma sparse_gemm_launch_sound (targs : TemplateArgs)
    (length_m length_n length_k meta_ncols : Z)
    (tensor_a : Tensor) (sa : Z) (tensor_b : Tensor) (sb : Z) (d meta : Tensor) :
  Sat (fun _ => True) launch_error_sound
      (sparse_gemm env targs length_m length_n length_k meta_ncols
                   tensor_a sa tensor_b sb d meta).
Proof. unfold sparse_gemm. launch_sound. Qed.

Lemma wrapper_launch_sound (targs : TemplateArgs)
    (tensor_a : Tensor) (sa : Z) (tensor_b : Tensor) (sb : Z) (mask_or_meta : Tensor) :
  Sat (fun _ => True) launch_error_sound
      (two_four_sgemm_cutlass env targs tensor_a sa tensor_b sb mask_or_meta).
Proof.
  unfold two_four_sgemm_cutlass.
  sat; try exact I;
    try apply meta_from_mask_launch_sound; try apply sparse_gemm_launch_sound;
    intros k E; discriminate E.
Qed.

End Checked.

(** ** Calls that return *)

(** A check in a computation that returns has passed. *)
Ltac check_passed H :=
  match type of H with
  | context [Dispatch.TORCH_CHECK ?c ?e] =>
      let E := fresh "Hpass" in
      destruct c eqn:E;
      [ rewrite TORCH_CHECK_true, bind_ret_l in H
      | rewrite TORCH_CHECK_false, bind_throw in H; discriminate H ]
  end.

Section Returned.

Import Dispatch.
Local Open Scope host_scope.

Variable env : Env.

Lemma returned_accepted (tensor_a tensor_b mask_or_meta : Tensor)
    (tr : list Event) (d meta : Tensor) :
  _structured_sparse_linear env tensor_a tensor_b mask_or_meta = (tr, inr (d, meta)) ->
  exists targs, accepted env tensor_a tensor_b targs.
Proof.
  intros H.
  assert (Hpre : major env = 8 /\ operand_ok tensor_a = true /\ operand_ok tensor_b = true).
  { unfold _structured_sparse_linear in H.
    do 7 check_passed H.
    split; [apply Z.eqb_eq; assumption |].
    unfold operand_ok. rewrite Hpass0, Hpass1, Hpass2, Hpass3, Hpass4, Hpass5. auto. }
  destruct Hpre as (Hsm & Ha & Hb).
  destruct (dispatch_success env _ _ _ _ _ _ H) as (targs & Hsp & Hw).
  rewrite wrapper_checks_unfold in Hw.
  do 3 check_passed Hw.
  exists targs. unfold accepted. rewrite Z.eqb_eq in *. auto 10.
Qed.

(** What a mask has gone through when the metadata built from it is
    returned. *)
Lemma returned_mask_inv (targs : TemplateArgs) (tensor_a tensor_b mask : Tensor)
    (trm : list Event) (m : Tensor) :
  let G := Gemm env targs in
  meta_from_mask env targs (to_int (size tensor_a 0)) (to_int (size tensor_b 0))
                 (meta_columns G tensor_b) mask = (trm, inr m) ->
  mask_ok mask = true /\
  (sizeof_ElementE G = 1 \/ sizeof_ElementE G = 2 \/ sizeof_ElementE G = 4) /\
  launch_failed env create_meta_kernel = false /\
  CreateMeta.error (built_meta G tensor_a tensor_b mask) = 0 /\
  launch_failed env reorder_meta_kernel = false /\
  m = reordered_meta G tensor_a tensor_b mask.
Proof.
  intros G H. subst G.
  assert (Hok : mask_ok mask = true /\
                (sizeof_ElementE (Gemm env targs) = 1 \/
                 sizeof_ElementE (Gemm env targs) = 2 \/
                 sizeof_ElementE (Gemm env targs) = 4)).
  { pose proof H as H'. unfold meta_from_mask in H'.
    do 3 check_passed H'.
    split; [unfold mask_ok; rewrite Hpass, Hpass0, Hpass1; reflexivity |].
    destruct (Z.eqb_spec (sizeof_ElementE (Gemm env targs)) 1) as [E1 | E1]; [auto |].
    destruct (Z.eqb_spec (sizeof_ElementE (Gemm env targs)) 2) as [E2 | E2]; [auto |].
    destruct (Z.eqb_spec (sizeof_ElementE (Gemm env targs)) 4) as [E4 | E4]; [auto |].
    rewrite bind_throw in H'. discriminate H'. }
  destruct Hok as [Hok Hsz].
  rewrite (meta_from_mask_outcome env targs tensor_a tensor_b mask Hok Hsz) in H.
  destruct (launch_failed env create_meta_kernel); [discriminate H |].
  destruct (Z.eqb_spec
              (CreateMeta.error (built_meta (Gemm env targs) tensor_a tensor_b mask)) 0)
    as [E | E]; cbn [negb] in H; [| discriminate H].
  destruct (launch_failed env reorder_meta_kernel); [discriminate H |].
  inversion H. auto 10.
Qed.

(** What a call that returns has gone through. *)
Lemma returned_call_inv (tensor_a tensor_b mask_or_meta : Tensor)
    (tr : list Event) (d meta : Tensor) :
  _structured_sparse_linear env tensor_a tensor_b mask_or_meta = (tr, inr (d, meta)) ->
  exists targs trm,
    accepted env tensor_a tensor_b targs /\
    let G := Gemm env targs in
    let args := gemm_arguments G targs tensor_a tensor_b
                  (product_empty tensor_a tensor_b targs) meta in
    (if ScalarType_eqb (scalar_type mask_or_meta) kBool
     then meta_from_mask env targs (to_int (size tensor_a 0)) (to_int (size tensor_b 0))
            (meta_columns G tensor_b) mask_or_meta
     else ret mask_or_meta) = (trm, inr meta) /\
    can_implement G args = kSuccess /\
    initialize G args = kSuccess /\
    fst (run G args) = kSuccess /\
    launch_failed env sparse_gemm_kernel = false /\
    d = with_data (product_empty tensor_a tensor_b targs) (snd (run G args)) /\
    tr = product_allocation tensor_a tensor_b targs
         :: trm ++ [ev_new_empty [get_workspace_size G args] kByte;
                    ev_gemm_initialize args; ev_gemm_run args].
Proof.
  intros H.
  destruct (returned_accepted _ _ _ _ _ _ H) as (targs & Hacc).
  exists targs.
  rewrite (accepted_call env _ _ mask_or_meta _ Hacc) in H. cbv zeta in H.
  match type of H with
  | (_ :: fst ?rest, snd ?rest) = _ =>
      assert (Hrest : rest = (tl tr, inr (d, meta)))
        by (destruct rest as [x y]; cbn [fst snd] in H; inversion H; reflexivity)
  end.
  assert (Htr : tr = product_allocation tensor_a tensor_b targs :: tl tr)
    by (inversion H; reflexivity).
  clear H.
  apply bind_inr_inv in Hrest. destruct Hrest as (trm & m & trg & Hm & Hg & Etr).
  exists trm. split; [exact Hacc |]. cbv zeta.
  rewrite sparse_gemm_outcome in Hg. cbv zeta in Hg.
  destruct (is_success (can_implement _ _)) eqn:E1; cbn [negb] in Hg; [| discriminate Hg].
  destruct (is_success (initialize _ _)) eqn:E2; cbn [negb] in Hg; [| discriminate Hg].
  destruct (is_success (fst (run _ _))) eqn:E3; cbn [negb] in Hg; [| discriminate Hg].
  destruct (launch_failed env sparse_gemm_kernel) eqn:E4; [discriminate Hg |].
  inversion Hg. subst m.
  apply is_success_iff in E1, E2, E3.
  split; [exact Hm |]. repeat (split; [assumption |]).
  split; [reflexivity |]. split; [reflexivity |].
  rewrite Htr. f_equal. rewrite Etr. subst trg. reflexivity.
Qed.

End Returned.

(** X10: a failed launch is reported as such, and only then.  Whatever
    the arguments of the wrapper, a launch error names a kernel whose
    launch the driver reported as failed.  For accepted operands and a
    mask that passes its checks, a failed launch of the builder ends the
    call before the flag is read back, and a failed launch of the
    reorderer, after a builder that left the flag at 0, before the engine
    is asked anything. *)
Theorem launch_failure_reported
    (env : Dispatch.Env) (tensor_a tensor_b mask : Dispatch.Tensor)
    (targs : Dispatch.TemplateArgs) :
  Dispatch.accepted env tensor_a tensor_b targs ->
  Dispatch.scalar_type mask = Dispatch.kBool ->
  Dispatch.mask_ok mask = true ->
  let G := Dispatch.Gemm env targs in
  Dispatch.sizeof_ElementE G = 1 \/ Dispatch.sizeof_ElementE G = 2 \/
  Dispatch.sizeof_ElementE G = 4 ->
  let out := Dispatch._structured_sparse_linear env tensor_a tensor_b mask in
  let built :=
    [Dispatch.product_allocation tensor_a tensor_b targs;
     Dispatch.ev_new_empty
       [to_int (Dispatch.size tensor_a 0); Dispatch.meta_columns G tensor_b]
       (Dispatch.meta_dtype_of (Dispatch.sizeof_ElementE G));
     Dispatch.ev_new_zeros [1] Dispatch.kInt;
     Dispatch.ev_launch Dispatch.create_meta_kernel] in
  (forall sa sb mask_or_meta k,
     snd (Dispatch.two_four_sgemm_cutlass env targs tensor_a sa tensor_b sb mask_or_meta)
     = inl (Dispatch.CudaLaunchError k) ->
     Dispatch.launch_failed env k = true) /\
  (forall k, snd out = inl (Dispatch.CudaLaunchError k) ->
     Dispatch.launch_failed env k = true) /\
  (Dispatch.launch_failed env Dispatch.create_meta_kernel = true ->
   out = (built, inl (Dispatch.CudaLaunchError Dispatch.create_meta_kernel))) /\
  (Dispatch.launch_failed env Dispatch.create_meta_kernel = false ->
   CreateMeta.error (Dispatch.built_meta G tensor_a tensor_b mask) = 0 ->
   Dispatch.launch_failed env Dispatch.reorder_meta_kernel = true ->
   out = (built ++
          [Dispatch.ev_item;
           Dispatch.ev_new_empty
             [to_int (Dispatch.size tensor_a 0); Dispatch.meta_columns G tensor_b]
             (Dispatch.meta_dtype_of (Dispatch.sizeof_ElementE G));
           Dispatch.ev_launch Dispatch.reorder_meta_kernel],
          inl (Dispatch.CudaLaunchError Dispatch.reorder_meta_kernel))).
Proof.
  intros Hacc Hbool Hok G Hsz out built.
  assert (Hsound : forall sa sb mask_or_meta k,
            snd (Dispatch.two_four_sgemm_cutlass env targs tensor_a sa tensor_b sb
                   mask_or_meta)
            = inl (Dispatch.CudaLaunchError k) ->
            Dispatch.launch_failed env k = true).
  { intros sa sb mm k E.
    destruct (wrapper_launch_sound env targs tensor_a sa tensor_b sb mm) as [_ H].
    rewrite E in H. apply H. reflexivity. }
  split; [exact Hsound |]. split.
  { intros k. unfold out.
    destruct Hacc as (Hsm & Ha & Hb & Hsp & _).
    rewrite (dispatch_reduces env _ _ _ Hsm Ha Hb), Hsp. apply Hsound. }
  unfold out. rewrite (accepted_call env _ _ _ _ Hacc). cbv zeta.
  rewrite Hbool. cbn [Dispatch.ScalarType_eqb].
  rewrite (meta_from_mask_outcome env targs tensor_a tensor_b mask Hok Hsz).
  fold G. split.
  - intros Hl. rewrite Hl. reflexivity.
  - intros Hl He Hr. rewrite Hl, He, Hr. reflexivity.
Qed.

(** X11: the steps of the engine for accepted operands and metadata
    passed in as it is.  The engine is asked in turn whether it can
    implement the arguments, to initialise with a workspace of the size it
    asked for, and to run; the first status other than success ends the
    call in a CUTLASS error carrying that status, with none of the later
    steps recorded, then a failed launch ends it in a launch error, and
    otherwise the call returns the product as the run left it together
    with the metadata.  The arguments are the three sizes (rows of the
    sparse operand, columns and rows of the dense one), the operands with
    their own layouts and leading strides, the product both as source and
    as destination, scalars 1 and 0, and one slice. *)
Theorem engine_protocol
    (env : Dispatch.Env) (tensor_a tensor_b meta : Dispatch.Tensor)
    (targs : Dispatch.TemplateArgs) :
  Dispatch.accepted env tensor_a tensor_b targs ->
  Dispatch.ScalarType_eqb (Dispatch.scalar_type meta) Dispatch.kBool = false ->
  let G := Dispatch.Gemm env targs in
  let d := Dispatch.product_empty tensor_a tensor_b targs in
  let args := Dispatch.gemm_arguments G targs tensor_a tensor_b d meta in
  let out := Dispatch._structured_sparse_linear env tensor_a tensor_b meta in
  let allocated := [Dispatch.product_allocation tensor_a tensor_b targs] in
  let initialised :=
    allocated ++ [Dispatch.ev_new_empty [Dispatch.get_workspace_size G args] Dispatch.kByte;
                  Dispatch.ev_gemm_initialize args] in
  let ran := initialised ++ [Dispatch.ev_gemm_run args] in
  (Dispatch.can_implement G args <> Dispatch.kSuccess ->
   out = (allocated, inl (Dispatch.CutlassError (Dispatch.can_implement G args)))) /\
  (Dispatch.can_implement G args = Dispatch.kSuccess ->
   (Dispatch.initialize G args <> Dispatch.kSuccess ->
    out = (initialised, inl (Dispatch.CutlassError (Dispatch.initialize G args)))) /\
   (Dispatch.initialize G args = Dispatch.kSuccess ->
    (fst (Dispatch.run G args) <> Dispatch.kSuccess ->
     out = (ran, inl (Dispatch.CutlassError (fst (Dispatch.run G args))))) /\
    (fst (Dispatch.run G args) = Dispatch.kSuccess ->
     (Dispatch.launch_failed env Dispatch.sparse_gemm_kernel = true ->
      out = (ran, inl (Dispatch.CudaLaunchError Dispatch.sparse_gemm_kernel))) /\
     (Dispatch.launch_failed env Dispatch.sparse_gemm_kernel = false ->
      out = (ran, inr (Dispatch.with_data d (snd (Dispatch.run G args)), meta))))))
  /\
  Dispatch.problem_size args
  = (to_int (Dispatch.size tensor_a 0), to_int (Dispatch.size tensor_b 1),
     to_int (Dispatch.size tensor_b 0)) /\
  Dispatch.ref_A args
  = Dispatch.mkOperandRef (Dispatch.matrix_layout tensor_a) (Dispatch.data tensor_a)
                          (Dispatch.leading_stride tensor_a) /\
  Dispatch.ref_B args
  = Dispatch.mkOperandRef (Dispatch.matrix_layout tensor_b) (Dispatch.data tensor_b)
                          (Dispatch.leading_stride tensor_b) /\
  Dispatch.ref_C args = Dispatch.ref_D args /\
  Dispatch.ref_D args
  = Dispatch.mkOperandRef Dispatch.RowMajor (Dispatch.data d) (Dispatch.stride d 0) /\
  ref_data (Dispatch.ref_E args) = Dispatch.data meta /\
  Dispatch.epilogue args = (1, 0) /\
  Dispatch.split_k_slices args = 1.
Proof.
  intros Hacc Hnb G d args out allocated initialised ran.
  assert (Hout : out
                 = (Dispatch.product_allocation tensor_a tensor_b targs
                    :: fst (Dispatch.sparse_gemm env targs
                              (to_int (Dispatch.size tensor_a 0))
                              (to_int (Dispatch.size tensor_b 1))
                              (to_int (Dispatch.size tensor_b 0))
                              (Dispatch.meta_columns G tensor_b)
                              tensor_a (Dispatch.leading_stride tensor_a)
                              tensor_b (Dispatch.leading_stride tensor_b) d meta),
                    snd (Dispatch.sparse_gemm env targs
                           (to_int (Dispatch.size tensor_a 0))
                           (to_int (Dispatch.size tensor_b 1))
                           (to_int (Dispatch.size tensor_b 0))
                           (Dispatch.meta_columns G tensor_b)
                           tensor_a (Dispatch.leading_stride tensor_a)
                           tensor_b (Dispatch.leading_stride tensor_b) d meta))).
  { unfold out. rewrite (accepted_call env _ _ _ _ Hacc). cbv zeta.
    rewrite Hnb, bind_ret_l. reflexivity. }
  rewrite sparse_gemm_outcome in Hout. cbv zeta in Hout. fold G d args in Hout.
  split; [| split].
  - intros E1. rewrite (proj2 (is_success_false_iff _) E1) in Hout. exact Hout.
  - intros E1; split; [| intros E2; split; [| intros E3; split]].
    + intros E2.
      rewrite (proj2 (is_success_iff _) E1), (proj2 (is_success_false_iff _) E2) in Hout.
      exact Hout.
    + intros E3.
      rewrite (proj2 (is_success_iff _) E1), (proj2 (is_success_iff _) E2),
        (proj2 (is_success_false_iff _) E3) in Hout.
      exact Hout.
    + intros E4.
      rewrite (proj2 (is_success_iff _) E1), (proj2 (is_success_iff _) E2),
        (proj2 (is_success_iff _) E3), E4 in Hout.
      exact Hout.
    + intros E4.
      rewrite (proj2 (is_success_iff _) E1), (proj2 (is_success_iff _) E2),
        (proj2 (is_success_iff _) E3), E4 in Hout.
      exact Hout.
  - destruct (accepted_targs env _ _ _ Hacc) as (HA & HB & _).
    unfold args, Dispatch.gemm_arguments.
    cbn [Dispatch.problem_size Dispatch.ref_A Dispatch.ref_B Dispatch.ref_C Dispatch.ref_D
         Dispatch.ref_E Dispatch.epilogue Dispatch.split_k_slices ref_data].
    rewrite HA, HB. repeat split; reflexivity.
Qed.

(** X13: a call that returns has passed every check: the device is of
    generation 8.x, both operands are strided, two-dimensional and have
    exactly one unit stride, their datatype and layouts are a supported
    combination, and the three sizes are divisible as required.  If the
    third argument is a boolean mask, it passed its own checks, every
    group of four of every row of it that the builder looks at has
    exactly two [true] entries and two [false] ones, and the metadata
    returned is the one the two kernels made of it. *)
Theorem returned_call_was_checked
    (env : Dispatch.Env) (tensor_a tensor_b mask_or_meta : Dispatch.Tensor)
    (tr : list Dispatch.Event) (d meta : Dispatch.Tensor) :
  Dispatch._structured_sparse_linear env tensor_a tensor_b mask_or_meta
  = (tr, inr (d, meta)) ->
  exists targs,
    Dispatch.accepted env tensor_a tensor_b targs /\
    (Dispatch.scalar_type tensor_a = Dispatch.kChar \/
     Dispatch.scalar_type tensor_a = Dispatch.kHalf) /\
    Dispatch.one_unit_stride tensor_a /\ Dispatch.one_unit_stride tensor_b /\
    (Dispatch.scalar_type mask_or_meta = Dispatch.kBool ->
     Dispatch.mask_ok mask_or_meta = true /\
     (forall m k,
        0 <= m < to_int (Dispatch.size tensor_a 0) ->
        0 <= k < Z.quot (to_int (Dispatch.size tensor_b 0)) 4 ->
        CreateMeta.group_two_true (to_int (Dispatch.stride mask_or_meta 0))
                                  (Dispatch.as_bool (Dispatch.data mask_or_meta)) m k
        = true) /\
     meta = Dispatch.reordered_meta (Dispatch.Gemm env targs) tensor_a tensor_b mask_or_meta).
Proof.
  intros H.
  destruct (returned_call_inv env _ _ _ _ _ _ H) as (targs & trm & Hacc & Hm & _).
  exists targs. split; [exact Hacc |].
  pose proof Hacc as (_ & Ha & Hb & Hsp & HM & HK & _).
  split.
  { destruct (Dispatch.scalar_type tensor_a); simpl in Hsp; try discriminate Hsp; auto. }
  split; [apply operand_ok_iff in Ha; apply Ha |].
  split; [apply operand_ok_iff in Hb; apply Hb |].
  intros Hbool. rewrite Hbool in Hm. cbn [Dispatch.ScalarType_eqb] in Hm.
  destruct (returned_mask_inv env targs tensor_a tensor_b mask_or_meta trm meta Hm)
    as (Hok & _ & _ & Herr & _ & Hmeta).
  split; [exact Hok |]. split; [| exact Hmeta].
  intros m k Hmr Hkr.
  unfold Dispatch.built_meta in Herr. rewrite kernel_error in Herr.
  cbn [CreateMeta.error] in Herr.
  destruct (existsb _ _) eqn:Ex; [discriminate Herr |].
  assert (HMr : Z.rem (to_int (Dispatch.size tensor_a 0)) 32 = 0).
  { apply Z.eqb_eq. rewrite rem_to_int_eqb by (apply divides_2_32; auto).
    apply Z.eqb_eq. exact HM. }
  assert (HKr : Z.rem (to_int (Dispatch.size tensor_b 0)) 64 = 0).
  { apply Z.eqb_eq. rewrite rem_to_int_eqb by (apply divides_2_32; auto 6).
    apply Z.eqb_eq.
    destruct (divisor_cases targs) as [[E _] | [E _]]; rewrite E in HK;
      [exact HK |].
    revert HK. Z.div_mod_to_equations. lia. }
  assert (Hint : forall x, - 2 ^ 31 <= to_int x < 2 ^ 31).
  { intros x. unfold to_int. pose proof (Z.mod_pos_bound (x + 2 ^ 31) (2 ^ 32)). lia. }
  pose proof (Hint (Dispatch.size tensor_a 0)) as HMi.
  pose proof (Hint (Dispatch.size tensor_b 0)) as HKi.
  assert (HK0 : 0 <= to_int (Dispatch.size tensor_b 0)).
  { destruct (Z.le_gt_cases 0 (to_int (Dispatch.size tensor_b 0))) as [G0 | G0];
      [exact G0 |].
    exfalso. assert (Z.quot (to_int (Dispatch.size tensor_b 0)) 4 <= 0); [| lia].
    rewrite <- (Z.opp_involutive (to_int (Dispatch.size tensor_b 0))).
    rewrite Z.quot_opp_l by lia.
    assert (0 <= Z.quot (- to_int (Dispatch.size tensor_b 0)) 4)
      by (apply Z.quot_pos; lia).
    lia. }
  assert (HMb : 0 <= to_int (Dispatch.size tensor_a 0) < 2 ^ 31 - 15).
  { split; [lia |]. revert HMr. rewrite Z.rem_mod_nonneg by lia.
    Z.div_mod_to_equations. lia. }
  assert (HKb : 0 <= to_int (Dispatch.size tensor_b 0) < 2 ^ 31 - 63).
  { split; [lia |]. revert HKr. rewrite Z.rem_mod_nonneg by lia.
    Z.div_mod_to_equations. lia. }
  exact (proj1 (flag_not_raised_iff _ _ _ _ HMb HKb) Ex m k Hmr Hkr).
Qed.

(** ** From a valid mask to the metadata of the engine *)

Section ValidMask.

Import Dispatch.
Local Open Scope host_scope.

Variable env : Env.
Variable targs : TemplateArgs.
Variables tensor_a tensor_b mask : Tensor.

Local Abbreviation G := (Gemm env targs).
Local Abbreviation rows := (size tensor_a 0).
Local Abbreviation depth := (size tensor_b 0).
Local Abbreviation sz := (sizeof_ElementE (Gemm env targs)).

Hypothesis Hacc : accepted env tensor_a tensor_b targs.
Hypothesis rows_int : 0 <= rows < 2 ^ 31.
Hypothesis depth_int : 0 <= depth < 2 ^ 31.
Hypothesis Hok : mask_ok mask = true.
Hypothesis Hsz : sz = 1 \/ sz = 2 \/ sz = 4.
Hypothesis sparse_pos : 0 < kSparse G.
Hypothesis elements_pos : 0 < kElementsPerElementE G.
Hypothesis element_covers : kSparse G * kElementsPerElementE G = 8 * sz.
Hypothesis stride_nonneg : 0 <= stride mask 0.
Hypothesis mask_addressable : rows * stride mask 0 + depth <= 2 ^ 32.

Lemma valid_rows : 0 <= rows < 2 ^ 31 - 15 /\ Z.rem rows 32 = 0 /\ to_int rows = rows.
Proof.
  destruct Hacc as (_ & _ & _ & _ & HM & _).
  split; [revert HM; Z.div_mod_to_equations; lia |].
  split; [rewrite Z.rem_mod_nonneg by lia; exact HM | apply to_int_small; lia].
Qed.

Lemma valid_depth :
  0 <= depth < 2 ^ 31 - 63 /\ Z.rem depth 64 = 0 /\ to_int depth = depth.
Proof.
  destruct Hacc as (_ & _ & _ & _ & _ & HK & _).
  assert (H64 : depth mod 64 = 0).
  { destruct (divisor_cases targs) as [[E _] | [E _]]; rewrite E in HK;
      [exact HK | revert HK; Z.div_mod_to_equations; lia]. }
  split; [revert H64; Z.div_mod_to_equations; lia |].
  split; [rewrite Z.rem_mod_nonneg by lia; exact H64 | apply to_int_small; lia].
Qed.

Lemma tile_cases :
  CreateMeta.tile_size sz = 2 \/ CreateMeta.tile_size sz = 4 \/ CreateMeta.tile_size sz = 8.
Proof. unfold CreateMeta.tile_size. lia. Qed.

(** The columns of the metadata matrix are the storage units of a row of
    the builder. *)
Lemma meta_columns_units :
  meta_columns G tensor_b = Z.quot (Z.quot depth 4) (CreateMeta.tile_size sz) /\
  meta_columns G tensor_b = depth / (8 * sz) /\
  0 <= meta_columns G tensor_b < 2 ^ 28 /\
  Z.rem (meta_columns G tensor_b) 2 = 0 /\
  Z.rem (Z.quot depth 4) (CreateMeta.tile_size sz) = 0.
Proof.
  destruct valid_depth as (Hd & H64 & Ed).
  unfold meta_columns. rewrite Ed.
  rewrite !Z.quot_quot by (unfold CreateMeta.tile_size; lia).
  rewrite element_covers.
  replace (4 * CreateMeta.tile_size sz) with (8 * sz) by (unfold CreateMeta.tile_size; lia).
  split; [reflexivity |].
  unfold CreateMeta.tile_size.
  destruct Hsz as [E | [E | E]]; rewrite E; revert H64; repeat split; div_lia.
Qed.

(** The worker of a group reads the entries of that group. *)
Lemma builder_reads_entries (m k : Z) :
  0 <= m < rows -> 0 <= k < Z.quot depth 4 ->
  CreateMeta.group_two_true (to_int (nth 0 (strides mask) 0)) (as_bool (data mask)) m k
  = entries_two_true mask m k /\
  CreateMeta.group_code (to_int (nth 0 (strides mask) 0)) (as_bool (data mask)) m k
  = entries_code mask m k.
Proof.
  intros Hm Hk.
  destruct valid_rows as (Hr & H32 & _). destruct valid_depth as (Hd & _ & _).
  destruct (mask_ok_inv mask Hok) as (_ & _ & Hunit). apply Z.eqb_eq in Hunit.
  assert (Hrows32 : 32 <= rows) by (revert H32; div_lia).
  assert (Hmul : 32 * stride mask 0 <= rows * stride mask 0)
    by (apply Z.mul_le_mono_nonneg_r; lia).
  fold (stride mask 0). rewrite (to_int_small (stride mask 0)) by lia.
  assert (Hk4 : 4 * k + 3 < depth) by (revert Hk; div_lia).
  assert (Hpos : forall j, 0 <= j <= 3 ->
            as_bool (data mask) (to_unsigned (m * stride mask 0 + k * 4 + j))
            = mask_entry mask m (4 * k + j)).
  { intros j Hj. unfold mask_entry. unfold stride at 3. rewrite Hunit.
    rewrite to_unsigned_small by nia. f_equal. lia. }
  unfold CreateMeta.group_two_true, CreateMeta.group_code, entries_two_true, entries_code.
  rewrite !Hpos by lia. rewrite Z.add_0_r. split; reflexivity.
Qed.

Hypothesis valid : forall m k, 0 <= m < rows -> 0 <= k < depth / 4 ->
                               entries_two_true mask m k = true.

Lemma valid_mask_flag : CreateMeta.error (built_meta G tensor_a tensor_b mask) = 0.
Proof.
  destruct valid_rows as (Hr & _ & Er). destruct valid_depth as (Hd & _ & Ed).
  unfold built_meta. rewrite kernel_error, Er, Ed. cbn [CreateMeta.error].
  rewrite (proj2 (flag_not_raised_iff rows depth _ _ Hr Hd)); [reflexivity |].
  intros m k Hm Hk. rewrite (proj1 (builder_reads_entries m k Hm Hk)).
  apply valid; [exact Hm |]. rewrite <- Z.quot_div_nonneg by lia. exact Hk.
Qed.

Hypothesis meta_addressable : rows * meta_columns G tensor_b <= 2 ^ 32.
Hypothesis layout_injective :
  forall c c', ReorderMeta.in_grid rows (meta_columns G tensor_b) c ->
               ReorderMeta.in_grid rows (meta_columns G tensor_b) c' ->
               LayoutE_packed G (rows, meta_columns G tensor_b) c
               = LayoutE_packed G (rows, meta_columns G tensor_b) c' -> c = c'.

(** The reordered metadata holds, at the place the engine expects unit
    [c] of row [m], the codes of the groups of that unit. *)
Lemma reordered_meta_contents (m c : Z) :
  0 <= m < rows -> 0 <= c < meta_columns G tensor_b ->
  data (reordered_meta G tensor_a tensor_b mask)
       (LayoutE_packed G (rows, meta_columns G tensor_b) (ReorderMeta.dst_coord sz m c))
  = Some (packed (fun j => entries_code mask m (c * (2 * sz) + j)) (Z.to_nat (2 * sz))).
Proof.
  intros Hm Hc.
  destruct valid_rows as (Hr & H32 & Er). destruct valid_depth as (Hd & _ & Ed).
  destruct meta_columns_units as (Ecols & _ & Hcols & Heven & Hwhole).
  unfold reordered_meta. cbv zeta. cbn [data]. rewrite Er.
  assert (Hgroups : Z.rem rows (ReorderMeta.group sz) = 0).
  { destruct (group_cases sz) as [[E _] | [E _]]; rewrite E; revert H32; div_lia. }
  rewrite reorder_kernel_at;
    [| exact Hgroups | exact Heven | lia | lia | exact layout_injective
     | split; assumption].
  unfold ref_at, RowMajor_packed. cbn [ref_data ref_offset fst snd].
  unfold built_meta.
  change (nth 0 (contiguous_strides [to_int rows; meta_columns G tensor_b]) 0)
    with (Z.max (meta_columns G tensor_b) 1 * 1).
  rewrite Er, Ed.
  replace (to_int (Z.max (meta_columns G tensor_b) 1 * 1)) with (meta_columns G tensor_b)
    by (rewrite to_int_small; lia).
  rewrite Ecols in Hc |- *.
  rewrite builder_meta_contents; try assumption; try lia.
  f_equal. apply packed_ext. intros j Hj.
  apply builder_reads_entries; [exact Hm |].
  pose proof Hwhole as Hw. revert Hc Hw Hj.
  unfold CreateMeta.tile_size.
  destruct Hsz as [E | [E | E]]; rewrite E; div_lia.
Qed.

Hypothesis Hbool : scalar_type mask = kBool.
Hypothesis create_launched : launch_failed env create_meta_kernel = false.
Hypothesis reorder_launched : launch_failed env reorder_meta_kernel = false.

(** The call up to the engine. *)
Lemma valid_mask_call :
  let meta := reordered_meta G tensor_a tensor_b mask in
  let rest :=
    sparse_gemm env targs (to_int rows) (to_int (size tensor_b 1)) (to_int depth)
                (meta_columns G tensor_b)
                tensor_a (leading_stride tensor_a) tensor_b (leading_stride tensor_b)
                (product_empty tensor_a tensor_b targs) meta in
  _structured_sparse_linear env tensor_a tensor_b mask
  = ([product_allocation tensor_a tensor_b targs;
      ev_new_empty [to_int rows; meta_columns G tensor_b] (meta_dtype_of sz);
      ev_new_zeros [1] kInt;
      ev_launch create_meta_kernel;
      ev_item;
      ev_new_empty [to_int rows; meta_columns G tensor_b] (meta_dtype_of sz);
      ev_launch reorder_meta_kernel] ++ fst rest,
     snd rest).
Proof.
  intros meta rest.
  rewrite (accepted_call env _ _ _ _ Hacc). cbv zeta.
  rewrite Hbool. cbn [ScalarType_eqb].
  rewrite (meta_from_mask_outcome env targs tensor_a tensor_b mask Hok Hsz).
  rewrite create_launched, reorder_launched, valid_mask_flag.
  change (negb (0 =? 0)) with false. cbv iota.
  rewrite bind_pair. reflexivity.
Qed.

End ValidMask.

(** X14: from a valid mask to the metadata of the engine.  The premises
    are: accepted operands whose sizes fit an [int]; a boolean mask that
    passes its checks, whose row stride is not negative, whose entries
    looked at all lie at offsets below [2^32] (rows times row stride plus
    the reduction length is at most [2^32]) and whose groups of four, for
    every row of the sparse operand and along the rows of the dense one,
    all have exactly two [true] entries and two [false] ones, each entry
    being the byte 1 or 0; metadata elements of 1, 2 or 4 bytes each
    covering [8 * size] elements of the reduction dimension; a metadata
    matrix of at most [2^32] elements, which the layout of the engine
    places without collision; and launches of the two kernels that
    succeed.  Then the call is never rejected for its mask: it can only
    end in an error of the engine, and it returns when the engine
    accepts.  The metadata it hands to the engine and returns has as many
    rows as the sparse operand and one column for every [8 * size] rows of
    the dense operand, and it holds, at the place the layout of the engine
    gives to the reordered position of unit [c] of row [m], the codes of
    the [2 * size] groups of four of that unit, the first group in the
    lowest four bits. *)
Theorem valid_mask_builds_metadata
    (env : Dispatch.Env) (tensor_a tensor_b mask : Dispatch.Tensor)
    (targs : Dispatch.TemplateArgs) :
  Dispatch.accepted env tensor_a tensor_b targs ->
  0 <= Dispatch.size tensor_a 0 < 2 ^ 31 ->
  0 <= Dispatch.size tensor_b 0 < 2 ^ 31 ->
  Dispatch.scalar_type mask = Dispatch.kBool ->
  Dispatch.mask_ok mask = true ->
  let G := Dispatch.Gemm env targs in
  let sz := Dispatch.sizeof_ElementE G in
  let rows := Dispatch.size tensor_a 0 in
  let columns := Dispatch.meta_columns G tensor_b in
  let place := Dispatch.LayoutE_packed G (rows, columns) in
  sz = 1 \/ sz = 2 \/ sz = 4 ->
  0 < Dispatch.kSparse G ->
  0 < Dispatch.kElementsPerElementE G ->
  Dispatch.kSparse G * Dispatch.kElementsPerElementE G = 8 * sz ->
  0 <= Dispatch.stride mask 0 ->
  rows * Dispatch.stride mask 0 + Dispatch.size tensor_b 0 <= 2 ^ 32 ->
  rows * columns <= 2 ^ 32 ->
  (forall c c', ReorderMeta.in_grid rows columns c -> ReorderMeta.in_grid rows columns c' ->
                place c = place c' -> c = c') ->
  Dispatch.launch_failed env Dispatch.create_meta_kernel = false ->
  Dispatch.launch_failed env Dispatch.reorder_meta_kernel = false ->
  (forall m k, 0 <= m < rows -> 0 <= k < Dispatch.size tensor_b 0 / 4 ->
               Dispatch.entries_two_true mask m k = true) ->
  let meta := Dispatch.reordered_meta G tensor_a tensor_b mask in
  let d := Dispatch.product_empty tensor_a tensor_b targs in
  let args := Dispatch.gemm_arguments G targs tensor_a tensor_b d meta in
  let out := Dispatch._structured_sparse_linear env tensor_a tensor_b mask in
  columns = Dispatch.size tensor_b 0 / (8 * sz) /\
  Dispatch.sizes meta = [rows; columns] /\
  Dispatch.scalar_type meta = Dispatch.meta_dtype_of sz /\
  (forall m c, 0 <= m < rows -> 0 <= c < columns ->
     Dispatch.data meta (place (ReorderMeta.dst_coord sz m c))
     = Some (packed (fun j => Dispatch.entries_code mask m (c * (2 * sz) + j))
                    (Z.to_nat (2 * sz)))) /\
  (forall e, snd out = inl e ->
     (exists status, status <> Dispatch.kSuccess /\ e = Dispatch.CutlassError status) \/
     e = Dispatch.CudaLaunchError Dispatch.sparse_gemm_kernel) /\
  (Dispatch.can_implement G args = Dispatch.kSuccess ->
   Dispatch.initialize G args = Dispatch.kSuccess ->
   fst (Dispatch.run G args) = Dispatch.kSuccess ->
   Dispatch.launch_failed env Dispatch.sparse_gemm_kernel = false ->
   out = ([Dispatch.product_allocation tensor_a tensor_b targs;
           Dispatch.ev_new_empty [rows; columns] (Dispatch.meta_dtype_of sz);
           Dispatch.ev_new_zeros [1] Dispatch.kInt;
           Dispatch.ev_launch Dispatch.create_meta_kernel;
           Dispatch.ev_item;
           Dispatch.ev_new_empty [rows; columns] (Dispatch.meta_dtype_of sz);
           Dispatch.ev_launch Dispatch.reorder_meta_kernel;
           Dispatch.ev_new_empty [Dispatch.get_workspace_size G args] Dispatch.kByte;
           Dispatch.ev_gemm_initialize args;
           Dispatch.ev_gemm_run args],
          inr (Dispatch.with_data d (snd (Dispatch.run G args)), meta))).
Proof.
  intros Hacc HM HK Hbool Hok G sz rows columns place Hsz HkS HkE Hcov Hs0 Haddr Hmeta
         Hinj Hcreate Hreorder Hvalid meta d args out.
  assert (Er : to_int rows = rows)
    by (apply (valid_rows env targs tensor_a tensor_b); assumption).
  assert (Ecols : columns = Dispatch.size tensor_b 0 / (8 * sz))
    by (apply (meta_columns_units env targs tensor_a tensor_b); assumption).
  assert (Hcall :
    Dispatch._structured_sparse_linear env tensor_a tensor_b mask
    = ([Dispatch.product_allocation tensor_a tensor_b targs;
        Dispatch.ev_new_empty [to_int rows; columns] (Dispatch.meta_dtype_of sz);
        Dispatch.ev_new_zeros [1] Dispatch.kInt;
        Dispatch.ev_launch Dispatch.create_meta_kernel;
        Dispatch.ev_item;
        Dispatch.ev_new_empty [to_int rows; columns] (Dispatch.meta_dtype_of sz);
        Dispatch.ev_launch Dispatch.reorder_meta_kernel]
       ++ fst (Dispatch.sparse_gemm env targs (to_int rows)
                 (to_int (Dispatch.size tensor_b 1)) (to_int (Dispatch.size tensor_b 0))
                 columns tensor_a (Dispatch.leading_stride tensor_a)
                 tensor_b (Dispatch.leading_stride tensor_b) d meta),
       snd (Dispatch.sparse_gemm env targs (to_int rows)
              (to_int (Dispatch.size tensor_b 1)) (to_int (Dispatch.size tensor_b 0))
              columns tensor_a (Dispatch.leading_stride tensor_a)
              tensor_b (Dispatch.leading_stride tensor_b) d meta)))
    by (apply (valid_mask_call env targs tensor_a tensor_b mask); assumption).
  unfold rows, columns in Hcall. rewrite sparse_gemm_outcome in Hcall. cbv zeta in Hcall.
  fold rows in Hcall. rewrite Er in Hcall.
  fold G d meta args in Hcall. fold sz rows columns in Hcall.
  split; [exact Ecols |].
  split.
  { unfold meta, Dispatch.reordered_meta. cbn [Dispatch.sizes].
    fold rows. rewrite Er. reflexivity. }
  split; [reflexivity |].
  split.
  { intros m c Hm Hc.
    apply (reordered_meta_contents env targs tensor_a tensor_b mask); assumption. }
  split.
  - intros e He. unfold out in He. rewrite Hcall in He. cbn [snd] in He.
    destruct (Dispatch.is_success (Dispatch.can_implement G args)) eqn:E1;
      cbn [negb] in He.
    2: { inversion He. left. eexists. split; [| reflexivity].
         apply is_success_false_iff, E1. }
    destruct (Dispatch.is_success (Dispatch.initialize G args)) eqn:E2;
      cbn [negb] in He.
    2: { inversion He. left. eexists. split; [| reflexivity].
         apply is_success_false_iff, E2. }
    destruct (Dispatch.is_success (fst (Dispatch.run G args))) eqn:E3;
      cbn [negb] in He.
    2: { inversion He. left. eexists. split; [| reflexivity].
         apply is_success_false_iff, E3. }
    destruct (Dispatch.launch_failed env Dispatch.sparse_gemm_kernel);
      inversion He. right. reflexivity.
  - intros E1 E2 E3 E4. unfold out. rewrite Hcall.
    rewrite (proj2 (is_success_iff _) E1), (proj2 (is_success_iff _) E2),
      (proj2 (is_success_iff _) E3), E4.
    reflexivity.
Qed.

(** X15: the metadata returned by a call on a mask can be passed back in
    place of the mask.  The premises are: accepted operands whose sizes
    fit an [int]; metadata elements of 1, 2 or 4 bytes; a boolean mask
    that passes its checks, whose row stride is not negative, whose
    entries looked at all lie at offsets below [2^32] (rows times row
    stride plus the reduction length is at most [2^32]) and whose groups
    of four all have exactly two [true] entries and two [false] ones, each
    entry being the byte 1 or 0; and launches of the two kernels that
    succeed.  Then the call on the returned metadata asks of the engine
    exactly what the call on the mask asked of it and has the same
    outcome; its record of device operations is that of the call on the
    mask without the six operations that built the metadata. *)
Theorem metadata_reuse
    (env : Dispatch.Env) (tensor_a tensor_b mask : Dispatch.Tensor)
    (targs : Dispatch.TemplateArgs) :
  Dispatch.accepted env tensor_a tensor_b targs ->
  0 <= Dispatch.size tensor_a 0 < 2 ^ 31 ->
  0 <= Dispatch.size tensor_b 0 < 2 ^ 31 ->
  Dispatch.scalar_type mask = Dispatch.kBool ->
  Dispatch.mask_ok mask = true ->
  let G := Dispatch.Gemm env targs in
  let sz := Dispatch.sizeof_ElementE G in
  let rows := Dispatch.size tensor_a 0 in
  let columns := Dispatch.meta_columns G tensor_b in
  sz = 1 \/ sz = 2 \/ sz = 4 ->
  0 <= Dispatch.stride mask 0 ->
  rows * Dispatch.stride mask 0 + Dispatch.size tensor_b 0 <= 2 ^ 32 ->
  Dispatch.launch_failed env Dispatch.create_meta_kernel = false ->
  Dispatch.launch_failed env Dispatch.reorder_meta_kernel = false ->
  (forall m k, 0 <= m < rows -> 0 <= k < Dispatch.size tensor_b 0 / 4 ->
               Dispatch.entries_two_true mask m k = true) ->
  let meta := Dispatch.reordered_meta G tensor_a tensor_b mask in
  let from_mask := Dispatch._structured_sparse_linear env tensor_a tensor_b mask in
  let from_meta := Dispatch._structured_sparse_linear env tensor_a tensor_b meta in
  snd from_meta = snd from_mask /\
  (forall d meta', snd from_mask = inr (d, meta') -> meta' = meta) /\
  exists engine_steps,
    fst from_meta = Dispatch.product_allocation tensor_a tensor_b targs :: engine_steps /\
    fst from_mask
    = Dispatch.product_allocation tensor_a tensor_b targs
      :: [Dispatch.ev_new_empty [rows; columns] (Dispatch.meta_dtype_of sz);
          Dispatch.ev_new_zeros [1] Dispatch.kInt;
          Dispatch.ev_launch Dispatch.create_meta_kernel;
          Dispatch.ev_item;
          Dispatch.ev_new_empty [rows; columns] (Dispatch.meta_dtype_of sz);
          Dispatch.ev_launch Dispatch.reorder_meta_kernel]
         ++ engine_steps.
Proof.
  intros Hacc HM HK Hbool Hok G sz rows columns Hsz Hs0 Haddr Hcreate Hreorder Hvalid
         meta from_mask from_meta.
  assert (Er : to_int rows = rows)
    by (apply (valid_rows env targs tensor_a tensor_b); assumption).
  assert (Hmask :
    from_mask
    = ([Dispatch.product_allocation tensor_a tensor_b targs;
        Dispatch.ev_new_empty [to_int rows; columns] (Dispatch.meta_dtype_of sz);
        Dispatch.ev_new_zeros [1] Dispatch.kInt;
        Dispatch.ev_launch Dispatch.create_meta_kernel;
        Dispatch.ev_item;
        Dispatch.ev_new_empty [to_int rows; columns] (Dispatch.meta_dtype_of sz);
        Dispatch.ev_launch Dispatch.reorder_meta_kernel]
       ++ fst (Dispatch.sparse_gemm env targs (to_int rows)
                 (to_int (Dispatch.size tensor_b 1)) (to_int (Dispatch.size tensor_b 0))
                 columns tensor_a (Dispatch.leading_stride tensor_a)
                 tensor_b (Dispatch.leading_stride tensor_b)
                 (Dispatch.product_empty tensor_a tensor_b targs) meta),
       snd (Dispatch.sparse_gemm env targs (to_int rows)
              (to_int (Dispatch.size tensor_b 1)) (to_int (Dispatch.size tensor_b 0))
              columns tensor_a (Dispatch.leading_stride tensor_a)
              tensor_b (Dispatch.leading_stride tensor_b)
              (Dispatch.product_empty tensor_a tensor_b targs) meta)))
    by (apply (valid_mask_call env targs tensor_a tensor_b mask); assumption).
  assert (Hnb : Dispatch.ScalarType_eqb (Dispatch.scalar_type meta) Dispatch.kBool = false).
  { unfold meta, Dispatch.reordered_meta, Dispatch.meta_dtype_of.
    cbn [Dispatch.scalar_type]. fold G sz.
    destruct Hsz as [E | [E | E]]; rewrite E; reflexivity. }
  assert (Hmeta : from_meta
                  = (Dispatch.product_allocation tensor_a tensor_b targs
                     :: fst (Dispatch.sparse_gemm env targs (to_int rows)
                               (to_int (Dispatch.size tensor_b 1))
                               (to_int (Dispatch.size tensor_b 0))
                               columns tensor_a (Dispatch.leading_stride tensor_a)
                               tensor_b (Dispatch.leading_stride tensor_b)
                               (Dispatch.product_empty tensor_a tensor_b targs) meta),
                     snd (Dispatch.sparse_gemm env targs (to_int rows)
                            (to_int (Dispatch.size tensor_b 1))
                            (to_int (Dispatch.size tensor_b 0))
                            columns tensor_a (Dispatch.leading_stride tensor_a)
                            tensor_b (Dispatch.leading_stride tensor_b)
                            (Dispatch.product_empty tensor_a tensor_b targs) meta))).
  { unfold from_meta. rewrite (accepted_call env _ _ _ _ Hacc). cbv zeta.
    rewrite Hnb, bind_ret_l. reflexivity. }
  rewrite Hmask, Hmeta. cbn [fst snd].
  split; [reflexivity |]. split.
  - intros d meta' H.
    unfold rows, columns, G in H. rewrite sparse_gemm_outcome in H. cbv zeta in H.
    repeat match type of H with
           | (if ?c then _ else _) = _ => destruct c; cbn [snd] in H; try discriminate H
           | snd (if ?c then _ else _) = _ => destruct c; cbn [snd] in H; try discriminate H
           end.
    inversion H. reflexivity.
  - eexists. split; [reflexivity |]. rewrite Er. reflexivity.
Qed.

(** ** Outcomes that cannot happen *)

Section DeadBranches.

Import Dispatch.
Local Open Scope host_scope.

Variable env : Env.

Lemma wrapper_output_datatype (targs : TemplateArgs)
    (tensor_a : Tensor) (sa : Z) (tensor_b : Tensor) (sb : Z) (mask_or_meta : Tensor) :
  ElementOutput targs = int32_t \/ ElementOutput targs = half_t ->
  Sat (fun _ => True) (fun e => e <> InvalidOutputDatatype)
      (two_four_sgemm_cutlass env targs tensor_a sa tensor_b sb mask_or_meta).
Proof.
  intros Hout.
  assert (Hm : forall length_m length_k meta_ncols,
            Sat (fun _ => True) (fun e => e <> InvalidOutputDatatype)
                (meta_from_mask env targs length_m length_k meta_ncols mask_or_meta))
    by (intros; unfold meta_from_mask; sat; try exact I; discriminate).
  assert (Hg : forall length_m length_n length_k meta_ncols d meta,
            Sat (fun _ => True) (fun e => e <> InvalidOutputDatatype)
                (sparse_gemm env targs length_m length_n length_k meta_ncols
                             tensor_a sa tensor_b sb d meta))
    by (intros; unfold sparse_gemm; sat; try exact I; discriminate).
  unfold two_four_sgemm_cutlass.
  sat; try exact I; try apply Hm; try apply Hg; try discriminate;
    destruct Hout as [E | E]; congruence.
Qed.

End DeadBranches.

(** X16: two branches of the code are never taken.  For operands of one
    of the two datatypes with a specialization, no call ends in the
    "invalid sparse GEMM output datatype" error of the wrapper, whatever
    else is wrong with its arguments; and the four pairings of layouts of
    the half-precision case are all there are, so that a call that returns
    never returns the default-constructed result: the product it returns
    has two dimensions. *)
Theorem no_dead_outcome
    (env : Dispatch.Env) (tensor_a tensor_b mask_or_meta : Dispatch.Tensor) :
  let out := Dispatch._structured_sparse_linear env tensor_a tensor_b mask_or_meta in
  (Dispatch.scalar_type tensor_a = Dispatch.kChar \/
   Dispatch.scalar_type tensor_a = Dispatch.kHalf ->
   snd out <> inl Dispatch.InvalidOutputDatatype) /\
  (forall d meta, snd out = inr (d, meta) ->
     Dispatch.dim d = 2 /\ d <> Dispatch.undefined_tensor).
Proof.
  intros out. split.
  - intros Hst.
    assert (HS : Dispatch.Sat (fun _ => True) (fun e => e <> Dispatch.InvalidOutputDatatype)
                   out).
    { unfold out, Dispatch._structured_sparse_linear.
      sat; try exact I; try discriminate;
        try (apply wrapper_output_datatype; simpl; auto);
        destruct Hst as [E | E]; congruence. }
    destruct HS as [_ HS]. intros E. rewrite E in HS. apply HS. reflexivity.
  - intros d meta Hout.
    assert (H : Dispatch._structured_sparse_linear env tensor_a tensor_b mask_or_meta
                = (fst out, inr (d, meta)))
      by (fold out; rewrite <- Hout; destruct out; reflexivity).
    destruct (dispatch_success env _ _ _ _ _ _ H) as (targs & _ & Hw).
    destruct (wrapper_success env _ _ _ _ _ _ _ _ _ Hw) as (Hsizes & _).
    assert (Hdim : Dispatch.dim d = 2) by (unfold Dispatch.dim; rewrite Hsizes; reflexivity).
    split; [exact Hdim |]. intros ->. discriminate Hdim.
Qed.

(** ** The order of the device operations *)

Section Order.

Import Dispatch.
Local Open Scope host_scope.

Variable env : Env.

(** A check in the goal: it fails, and the call ends there with nothing
    asked of the device, or it passes. *)
Ltac check_or_stop :=
  match goal with
  | |- context [TORCH_CHECK ?c ?e] =>
      destruct c eqn:?;
      [ rewrite TORCH_CHECK_true, bind_ret_l
      | rewrite TORCH_CHECK_false, bind_throw; left; split; [| eexists]; reflexivity ]
  end.

Lemma rejected_or_accepted (tensor_a tensor_b mask_or_meta : Tensor) :
  let out := _structured_sparse_linear env tensor_a tensor_b mask_or_meta in
  (fst out = [] /\ exists e, snd out = inl e) \/
  exists targs, accepted env tensor_a tensor_b targs.
Proof.
  intros out.
  destruct (Z.eqb_spec (major env) 8) as [Hsm | Hsm].
  2: { left. unfold out, _structured_sparse_linear.
       apply Z.eqb_neq in Hsm. rewrite Hsm. split; [| eexists]; reflexivity. }
  destruct (operand_ok tensor_a) eqn:Ha.
  2: { unfold out, _structured_sparse_linear.
       rewrite Hsm. change (8 =? 8) with true. rewrite TORCH_CHECK_true, bind_ret_l.
       unfold operand_ok in Ha.
       do 3 check_or_stop. cbn [andb] in Ha. discriminate Ha. }
  destruct (operand_ok tensor_b) eqn:Hb.
  2: { unfold out, _structured_sparse_linear.
       rewrite Hsm. change (8 =? 8) with true. rewrite TORCH_CHECK_true, bind_ret_l.
       destruct (operand_ok_inv _ Ha) as (A1 & A2 & A3). rewrite A1, A2, A3.
       rewrite !TORCH_CHECK_true, !bind_ret_l.
       unfold operand_ok in Hb.
       do 3 check_or_stop. cbn [andb] in Hb. discriminate Hb. }
  unfold out. rewrite (dispatch_reduces env _ _ _ Hsm Ha Hb).
  destruct (specialization _ _ _) as [targs |] eqn:Hsp.
  2: { left. destruct (scalar_type tensor_a); split; try eexists; reflexivity. }
  rewrite wrapper_checks_unfold.
  do 3 check_or_stop.
  right. exists targs. unfold accepted. rewrite Z.eqb_eq in *. auto 10.
Qed.

Lemma meta_from_mask_cases (targs : TemplateArgs)
    (length_m length_k meta_ncols : Z) (mask : Tensor) :
  (exists e, meta_from_mask env targs length_m length_k meta_ncols mask = ([], inl e)) \/
  (mask_ok mask = true /\
   (sizeof_ElementE (Gemm env targs) = 1 \/ sizeof_ElementE (Gemm env targs) = 2 \/
    sizeof_ElementE (Gemm env targs) = 4)).
Proof.
  unfold meta_from_mask, mask_ok.
  destruct (Layout_eqb (layout mask) Strided); [| left; eexists; reflexivity].
  destruct (dim mask =? 2); [| left; eexists; reflexivity].
  destruct (nth 1 (strides mask) 0 =? 1); [| left; eexists; reflexivity].
  rewrite !TORCH_CHECK_true, !bind_ret_l.
  destruct (Z.eqb_spec (sizeof_ElementE (Gemm env targs)) 1) as [E1 | E1]; [auto |].
  destruct (Z.eqb_spec (sizeof_ElementE (Gemm env targs)) 2) as [E2 | E2]; [auto |].
  destruct (Z.eqb_spec (sizeof_ElementE (Gemm env targs)) 4) as [E4 | E4]; [auto |].
  left. eexists. reflexivity.
Qed.

(** The record of the engine part is the start of its three steps, and
    all three when it returns. *)
Lemma sparse_gemm_in_order (targs : TemplateArgs) (tensor_a tensor_b d meta : Tensor) :
  let G := Gemm env targs in
  let args := gemm_arguments G targs tensor_a tensor_b d meta in
  let run := sparse_gemm env targs (to_int (size tensor_a 0)) (to_int (size tensor_b 1))
               (to_int (size tensor_b 0)) (meta_columns G tensor_b)
               tensor_a (leading_stride tensor_a) tensor_b (leading_stride tensor_b)
               d meta in
  exists rest,
    [ev_new_empty [get_workspace_size G args] kByte;
     ev_gemm_initialize args; ev_gemm_run args] = fst run ++ rest /\
    (forall r, snd run = inr r -> rest = [] /\ snd r = meta).
Proof.
  intros G args run. unfold run. rewrite sparse_gemm_outcome. cbv zeta. fold G args.
  destruct (negb (is_success (can_implement G args)));
    [eexists; split; [reflexivity | discriminate] |].
  destruct (negb (is_success (initialize G args)));
    [eexists; split; [reflexivity | discriminate] |].
  destruct (negb (is_success (fst (Dispatch.run G args))));
    [exists []; split; [reflexivity | discriminate] |].
  destruct (launch_failed env sparse_gemm_kernel);
    [exists []; split; [reflexivity | discriminate] |].
  exists []. split; [reflexivity |].
  intros r Hr. cbn [snd] in Hr. inversion Hr. split; reflexivity.
Qed.

(** A call either ends without a step of the engine, or reaches the
    engine part with operands that were accepted, the product allocated
    and the metadata of the call. *)
Lemma call_reaches_engine (tensor_a tensor_b mask_or_meta : Tensor) :
  let out := _structured_sparse_linear env tensor_a tensor_b mask_or_meta in
  (forallb (fun ev => negb (is_engine_step ev)) (fst out) = true /\
   exists e, snd out = inl e) \/
  exists targs pre,
    accepted env tensor_a tensor_b targs /\
    forallb (fun ev => negb (is_engine_step ev)) pre = true /\
    let G := Gemm env targs in
    let run :=
      sparse_gemm env targs (to_int (size tensor_a 0)) (to_int (size tensor_b 1))
        (to_int (size tensor_b 0)) (meta_columns G tensor_b)
        tensor_a (leading_stride tensor_a) tensor_b (leading_stride tensor_b)
        (product_empty tensor_a tensor_b targs)
        (call_meta G tensor_a tensor_b mask_or_meta) in
    out = (pre ++ fst run, snd run).
Proof.
  intros out.
  destruct (rejected_or_accepted tensor_a tensor_b mask_or_meta) as [[H0 He] | [targs Hacc]].
  { left. fold out in H0. rewrite H0. split; [reflexivity | exact He]. }
  unfold out. rewrite (accepted_call env _ _ _ _ Hacc). cbv zeta.
  unfold call_meta.
  destruct (ScalarType_eqb (scalar_type mask_or_meta) kBool).
  - destruct (meta_from_mask_cases targs (to_int (size tensor_a 0))
                (to_int (size tensor_b 0))
                (meta_columns (Gemm env targs) tensor_b) mask_or_meta)
      as [[e He] | [Hok Hsz]].
    { left. rewrite He. cbn [fst snd bind]. split; [reflexivity | eexists; reflexivity]. }
    rewrite (meta_from_mask_outcome env targs tensor_a tensor_b mask_or_meta Hok Hsz).
    destruct (launch_failed env create_meta_kernel).
    { left. cbn [fst snd bind]. split; [reflexivity | eexists; reflexivity]. }
    destruct (negb (CreateMeta.error _ =? 0)).
    { left. cbn [fst snd bind]. split; [reflexivity | eexists; reflexivity]. }
    destruct (launch_failed env reorder_meta_kernel).
    { left. cbn [fst snd bind]. split; [reflexivity | eexists; reflexivity]. }
    right. exists targs. eexists. split; [exact Hacc |]. split; [| cbv zeta].
    2: { rewrite bind_pair. cbn [fst snd]. rewrite app_comm_cons. reflexivity. }
    reflexivity.
  - right. exists targs, [product_allocation tensor_a tensor_b targs].
    split; [exact Hacc |]. split; [reflexivity |].
    cbv zeta. rewrite bind_ret_l. reflexivity.
Qed.

End Order.

(** X17: the device operations of a call always come in the same order,
    and a failure only cuts the sequence short.  A call either is
    rejected with nothing asked of the device, or its operands are
    accepted and its record is a beginning of the sequence: allocation of
    the product; for a boolean mask, allocation of the metadata and of the
    flag, launch of the builder, read-back of the flag, allocation of the
    reordered metadata, launch of the reorderer; then allocation of the
    workspace, initialisation and run of the engine.  The record of a
    call that returns is the whole sequence. *)
Theorem device_operations_in_order
    (env : Dispatch.Env) (tensor_a tensor_b mask_or_meta : Dispatch.Tensor) :
  let out := Dispatch._structured_sparse_linear env tensor_a tensor_b mask_or_meta in
  (fst out = [] /\ exists e, snd out = inl e) \/
  exists targs rest,
    Dispatch.accepted env tensor_a tensor_b targs /\
    let G := Dispatch.Gemm env targs in
    let meta := if Dispatch.ScalarType_eqb (Dispatch.scalar_type mask_or_meta) Dispatch.kBool
                then Dispatch.reordered_meta G tensor_a tensor_b mask_or_meta
                else mask_or_meta in
    Dispatch.full_record G targs tensor_a tensor_b mask_or_meta meta = fst out ++ rest /\
    (forall d meta', snd out = inr (d, meta') -> rest = [] /\ meta' = meta).
Proof.
  intros out.
  destruct (rejected_or_accepted env tensor_a tensor_b mask_or_meta) as [H | [targs Hacc]];
    [left; exact H |].
  right. exists targs.
  unfold out. rewrite (accepted_call env _ _ _ _ Hacc). cbv zeta.
  unfold Dispatch.full_record. cbv zeta.
  destruct (Dispatch.ScalarType_eqb (Dispatch.scalar_type mask_or_meta) Dispatch.kBool).
  - destruct (meta_from_mask_cases env targs (to_int (Dispatch.size tensor_a 0))
                (to_int (Dispatch.size tensor_b 0))
                (Dispatch.meta_columns (Dispatch.Gemm env targs) tensor_b) mask_or_meta)
      as [[e He] | [Hok Hsz]].
    { rewrite He. eexists. split; [exact Hacc |]. cbn [fst snd Dispatch.bind app].
      split; [reflexivity | discriminate]. }
    rewrite (meta_from_mask_outcome env targs tensor_a tensor_b mask_or_meta Hok Hsz).
    destruct (Dispatch.launch_failed env Dispatch.create_meta_kernel).
    { eexists. split; [exact Hacc |]. cbn [fst snd Dispatch.bind app].
      split; [reflexivity | discriminate]. }
    destruct (negb (CreateMeta.error _ =? 0)).
    { eexists. split; [exact Hacc |]. cbn [fst snd Dispatch.bind app].
      split; [reflexivity | discriminate]. }
    destruct (Dispatch.launch_failed env Dispatch.reorder_meta_kernel).
    { eexists. split; [exact Hacc |]. cbn [fst snd Dispatch.bind app].
      split; [reflexivity | discriminate]. }
    rewrite bind_pair. cbn [fst snd].
    destruct (sparse_gemm_in_order env targs tensor_a tensor_b
                (Dispatch.product_empty tensor_a tensor_b targs)
                (Dispatch.reordered_meta (Dispatch.Gemm env targs) tensor_a tensor_b
                                         mask_or_meta))
      as (rest & Hrest & Hret).
    exists rest. split; [exact Hacc |]. split.
    + cbn [app]. rewrite Hrest. reflexivity.
    + intros d meta' H. destruct (Hret _ H) as [-> Hm]. split; [reflexivity | exact Hm].
  - rewrite bind_ret_l.
    destruct (sparse_gemm_in_order env targs tensor_a tensor_b
                (Dispatch.product_empty tensor_a tensor_b targs) mask_or_meta)
      as (rest & Hrest & Hret).
    exists rest. split; [exact Hacc |]. split.
    + cbn [app fst]. rewrite Hrest. reflexivity.
    + intros d meta' H. destruct (Hret _ H) as [-> Hm]. split; [reflexivity | exact Hm].
Qed.

(** X12: in every call, whatever its outcome, a step of the engine is a
    step of the call's own engine on the call's own arguments, and comes
    only after the steps before it have succeeded.  The operands have
    been accepted, which fixes the specialization [targs] and with it the
    engine [Gemm env targs]; an initialisation that is recorded has the
    arguments of the call, made of the operands, the allocated product and
    the metadata of the call, and this engine has said it can implement
    them; a run that is recorded has these arguments too, was preceded by
    the initialisation with them, and both the feasibility question and
    the initialisation have succeeded on this engine.  A product that is
    returned holds what a run of this engine on these arguments, which
    reported success, left in it, after a feasibility question and an
    initialisation on them that succeeded, with the launch not reported as
    failed. *)
Theorem engine_never_run_unchecked
    (env : Dispatch.Env) (tensor_a tensor_b mask_or_meta : Dispatch.Tensor) :
  let out := Dispatch._structured_sparse_linear env tensor_a tensor_b mask_or_meta in
  let call_args targs :=
    Dispatch.gemm_arguments (Dispatch.Gemm env targs) targs tensor_a tensor_b
      (Dispatch.product_empty tensor_a tensor_b targs)
      (Dispatch.call_meta (Dispatch.Gemm env targs) tensor_a tensor_b mask_or_meta) in
  (forall t1 t2, Dispatch.accepted env tensor_a tensor_b t1 ->
                 Dispatch.accepted env tensor_a tensor_b t2 -> t1 = t2) /\
  (forall args, In (Dispatch.ev_gemm_initialize args) (fst out) ->
     exists targs,
       Dispatch.accepted env tensor_a tensor_b targs /\
       args = call_args targs /\
       Dispatch.can_implement (Dispatch.Gemm env targs) args = Dispatch.kSuccess) /\
  (forall args, In (Dispatch.ev_gemm_run args) (fst out) ->
     exists targs,
       Dispatch.accepted env tensor_a tensor_b targs /\
       args = call_args targs /\
       Dispatch.can_implement (Dispatch.Gemm env targs) args = Dispatch.kSuccess /\
       Dispatch.initialize (Dispatch.Gemm env targs) args = Dispatch.kSuccess /\
       In (Dispatch.ev_gemm_initialize args) (fst out)) /\
  (forall d meta, snd out = inr (d, meta) ->
     exists targs,
       Dispatch.accepted env tensor_a tensor_b targs /\
       let G := Dispatch.Gemm env targs in
       let args := Dispatch.gemm_arguments G targs tensor_a tensor_b
                     (Dispatch.product_empty tensor_a tensor_b targs) meta in
       args = call_args targs /\
       Dispatch.can_implement G args = Dispatch.kSuccess /\
       Dispatch.initialize G args = Dispatch.kSuccess /\
       In (Dispatch.ev_gemm_initialize args) (fst out) /\
       In (Dispatch.ev_gemm_run args) (fst out) /\
       Dispatch.run G args = (Dispatch.kSuccess, Dispatch.data d) /\
       Dispatch.launch_failed env Dispatch.sparse_gemm_kernel = false).
Proof.
  intros out call_args.
  assert (Hnone : forall (l : list Dispatch.Event) ev,
            forallb (fun ev => negb (Dispatch.is_engine_step ev)) l = true ->
            Dispatch.is_engine_step ev = true -> ~ In ev l).
  { intros l ev Hl Hev Hin. rewrite forallb_forall in Hl.
    specialize (Hl ev Hin). rewrite Hev in Hl. discriminate Hl. }
  assert (Hsteps : forall ev, Dispatch.is_engine_step ev = true -> In ev (fst out) ->
            exists targs,
              Dispatch.accepted env tensor_a tensor_b targs /\
              Dispatch.can_implement (Dispatch.Gemm env targs) (call_args targs)
              = Dispatch.kSuccess /\
              In (Dispatch.ev_gemm_initialize (call_args targs)) (fst out) /\
              (ev = Dispatch.ev_gemm_initialize (call_args targs) \/
               ev = Dispatch.ev_gemm_run (call_args targs) /\
               Dispatch.initialize (Dispatch.Gemm env targs) (call_args targs)
               = Dispatch.kSuccess)).
  { intros ev Hev Hin.
    destruct (call_reaches_engine env tensor_a tensor_b mask_or_meta)
      as [[Hno _] | (targs & pre & Hacc & Hpre & Hout)].
    { exfalso. exact (Hnone _ _ Hno Hev Hin). }
    cbv zeta in Hout. fold out in Hout.
    rewrite sparse_gemm_outcome in Hout. cbv zeta in Hout.
    fold (call_args targs) in Hout.
    exists targs. split; [exact Hacc |].
    destruct (Dispatch.is_success (Dispatch.can_implement _ _)) eqn:E1;
      cbn [negb] in Hout.
    2: { exfalso. rewrite Hout in Hin. cbn [fst] in Hin. rewrite app_nil_r in Hin.
         exact (Hnone _ _ Hpre Hev Hin). }
    apply is_success_iff in E1. split; [exact E1 |].
    destruct (Dispatch.is_success (Dispatch.initialize _ _)) eqn:E2;
      cbn [negb] in Hout.
    2: { rewrite Hout in Hin |- *. cbn [fst] in Hin |- *.
         split; [apply in_or_app; right; right; left; reflexivity |].
         apply in_app_or in Hin. destruct Hin as [Hin | Hin];
           [exfalso; exact (Hnone _ _ Hpre Hev Hin) |].
         destruct Hin as [E | [E | []]]; [subst ev; discriminate Hev |].
         left. symmetry. exact E. }
    apply is_success_iff in E2.
    assert (Hrec : fst out
                   = pre ++ [Dispatch.ev_new_empty
                               [Dispatch.get_workspace_size (Dispatch.Gemm env targs)
                                  (call_args targs)] Dispatch.kByte;
                             Dispatch.ev_gemm_initialize (call_args targs);
                             Dispatch.ev_gemm_run (call_args targs)]).
    { rewrite Hout.
      destruct (negb (Dispatch.is_success (fst (Dispatch.run _ _))));
        [| destruct (Dispatch.launch_failed env Dispatch.sparse_gemm_kernel)];
        reflexivity. }
    rewrite Hrec in Hin |- *.
    split; [apply in_or_app; right; right; left; reflexivity |].
    apply in_app_or in Hin. destruct Hin as [Hin | Hin];
      [exfalso; exact (Hnone _ _ Hpre Hev Hin) |].
    destruct Hin as [E | [E | [E | []]]]; [subst ev; discriminate Hev | |].
    - left. symmetry. exact E.
    - right. split; [symmetry; exact E | exact E2]. }
  split; [| split; [| split]].
  - intros t1 t2 (_ & _ & _ & H1 & _) (_ & _ & _ & H2 & _).
    rewrite H1 in H2. inversion H2. reflexivity.
  - intros args Hin.
    destruct (Hsteps (Dispatch.ev_gemm_initialize args) eq_refl Hin)
      as (targs & Hacc & Hc & _ & [E | [E _]]);
      [| discriminate E].
    inversion E. exists targs. auto.
  - intros args Hin.
    destruct (Hsteps (Dispatch.ev_gemm_run args) eq_refl Hin)
      as (targs & Hacc & Hc & Hi & [E | [E Hinit]]);
      [discriminate E |].
    inversion E. exists targs. auto 10.
  - intros d meta Hout.
    assert (H : Dispatch._structured_sparse_linear env tensor_a tensor_b mask_or_meta
                = (fst out, inr (d, meta)))
      by (fold out; rewrite <- Hout; destruct out; reflexivity).
    destruct (returned_call_inv env _ _ _ _ _ _ H)
      as (targs & trm & Hacc & Hm & Hc & Hi & Hrun & Hl & Hd & Htr).
    exists targs. split; [exact Hacc |]. cbv zeta.
    assert (Emeta : meta = Dispatch.call_meta (Dispatch.Gemm env targs)
                             tensor_a tensor_b mask_or_meta).
    { unfold Dispatch.call_meta.
      destruct (Dispatch.ScalarType_eqb (Dispatch.scalar_type mask_or_meta) Dispatch.kBool).
      - destruct (returned_mask_inv env targs tensor_a tensor_b mask_or_meta trm meta Hm)
          as (_ & _ & _ & _ & _ & E). exact E.
      - inversion Hm. reflexivity. }
    split; [unfold call_args; rewrite <- Emeta; reflexivity |].
    split; [exact Hc |]. split; [exact Hi |].
    split; [| split; [| split; [| exact Hl]]].
    + rewrite Htr. right. apply in_or_app. right. right. left. reflexivity.
    + rewrite Htr. right. apply in_or_app. right. right. right. left. reflexivity.
    + rewrite Hd. cbn [Dispatch.data Dispatch.with_data].
      destruct (Dispatch.run _ _) as [st buf]. cbn [fst snd] in *. rewrite Hrun.
      reflexivity.
Qed.

(** X18: the size checks of the host function are what the two kernels
    need.  For accepted operands whose sizes fit an [int] and metadata
    elements of 1, 2 or 4 bytes each covering [8 * size] elements of the
    reduction dimension: the sums in the two launch configurations stay
    within [int]; the groups of four of a row fill whole storage units of
    the builder, and there are as many units as the metadata matrix has
    columns; the rows form whole groups of the reorderer and the number of
    columns is even, so that the index map of the reorderer is a bijection
    of the cells of the metadata matrix. *)
Theorem size_checks_fit_kernels
    (env : Dispatch.Env) (tensor_a tensor_b : Dispatch.Tensor)
    (targs : Dispatch.TemplateArgs) :
  Dispatch.accepted env tensor_a tensor_b targs ->
  0 <= Dispatch.size tensor_a 0 < 2 ^ 31 ->
  0 <= Dispatch.size tensor_b 0 < 2 ^ 31 ->
  let G := Dispatch.Gemm env targs in
  let sz := Dispatch.sizeof_ElementE G in
  let length_m := to_int (Dispatch.size tensor_a 0) in
  let length_k := to_int (Dispatch.size tensor_b 0) in
  let meta_ncols := Dispatch.meta_columns G tensor_b in
  sz = 1 \/ sz = 2 \/ sz = 4 ->
  0 < Dispatch.kSparse G ->
  0 < Dispatch.kElementsPerElementE G ->
  Dispatch.kSparse G * Dispatch.kElementsPerElementE G = 8 * sz ->
  length_m = Dispatch.size tensor_a 0 /\ length_k = Dispatch.size tensor_b 0 /\
  length_k + 63 < 2 ^ 31 /\ length_m + 15 < 2 ^ 31 /\ 0 <= meta_ncols /\
  meta_ncols + 15 < 2 ^ 31 /\
  Z.rem (Z.quot length_k 4) (CreateMeta.tile_size sz) = 0 /\
  meta_ncols = Z.quot (Z.quot length_k 4) (CreateMeta.tile_size sz) /\
  Z.rem length_m (ReorderMeta.group sz) = 0 /\
  Z.rem meta_ncols 2 = 0 /\
  ReorderMeta.bijection_on_grid sz length_m meta_ncols.
Proof.
  intros Hacc HM HK G sz length_m length_k meta_ncols Hsz HkS HkE Hcov.
  assert (Hrows : 0 <= Dispatch.size tensor_a 0 < 2 ^ 31 - 15 /\
                  Z.rem (Dispatch.size tensor_a 0) 32 = 0 /\
                  to_int (Dispatch.size tensor_a 0) = Dispatch.size tensor_a 0)
    by (apply (valid_rows env targs tensor_a tensor_b); assumption).
  assert (Hdepth : 0 <= Dispatch.size tensor_b 0 < 2 ^ 31 - 63 /\
                   Z.rem (Dispatch.size tensor_b 0) 64 = 0 /\
                   to_int (Dispatch.size tensor_b 0) = Dispatch.size tensor_b 0)
    by (apply (valid_depth env targs tensor_a tensor_b); assumption).
  assert (Hcols : Dispatch.meta_columns G tensor_b
                  = Z.quot (Z.quot (Dispatch.size tensor_b 0) 4) (CreateMeta.tile_size sz) /\
                  Dispatch.meta_columns G tensor_b = Dispatch.size tensor_b 0 / (8 * sz) /\
                  0 <= Dispatch.meta_columns G tensor_b < 2 ^ 28 /\
                  Z.rem (Dispatch.meta_columns G tensor_b) 2 = 0 /\
                  Z.rem (Z.quot (Dispatch.size tensor_b 0) 4) (CreateMeta.tile_size sz) = 0)
    by (apply (meta_columns_units env targs tensor_a tensor_b); assumption).
  destruct Hrows as (Hr & H32 & Er). destruct Hdepth as (Hd & H64 & Ed).
  destruct Hcols as (Ecols & _ & Hc & Heven & Hwhole).
  unfold length_m, length_k, meta_ncols. rewrite Er, Ed.
  assert (Hgroups : Z.rem (Dispatch.size tensor_a 0) (ReorderMeta.group sz) = 0).
  { destruct (group_cases sz) as [[E _] | [E _]]; rewrite E; revert H32; div_lia. }
  repeat (split; [first [reflexivity | assumption | lia] |]).
  apply dst_coord_bijection; assumption.
Qed.

(** ** The further properties on the small instance *)

Lemma demo_accepted :
  Dispatch.accepted Dispatch.demo_env Dispatch.demo_a Dispatch.demo_b
                    (Dispatch.half_args Dispatch.RowMajor Dispatch.RowMajor).
Proof. unfold Dispatch.accepted. repeat split. Qed.

Lemma demo_mask_valid (m k : Z) :
  0 <= m < 32 -> 0 <= k < 16 ->
  Dispatch.entries_two_true Dispatch.demo_mask_tensor m k = true.
Proof.
  intros Hm Hk.
  assert (H : forallb (fun m => forallb (fun k =>
                 Dispatch.entries_two_true Dispatch.demo_mask_tensor m k)
                 (range 16)) (range 32) = true) by (vm_compute; reflexivity).
  rewrite forallb_forall in H. specialize (H m (proj2 (in_range_iff 32 m) Hm)).
  rewrite forallb_forall in H. specialize (H k (proj2 (in_range_iff 16 k) Hk)).
  exact H.
Qed.

Lemma demo_layout_injective (c c' : Z * Z) :
  ReorderMeta.in_grid 32 4 c -> ReorderMeta.in_grid 32 4 c' ->
  RowMajor_packed (32, 4) c = RowMajor_packed (32, 4) c' -> c = c'.
Proof.
  destruct c as [r k], c' as [r' k']. intros [H1 H2] [H3 H4] E.
  unfold RowMajor_packed in E. simpl in *. f_equal; lia.
Qed.

(** A mask stored column by column is rejected once the product has
    been allocated. *)
Lemma mask_validation_witness :
  Dispatch._structured_sparse_linear Dispatch.demo_env Dispatch.demo_a Dispatch.demo_b
    (Dispatch.mkTensor Dispatch.kBool Dispatch.Strided [32; 64] [1; 32] (fun _ => Some 0))
  = ([Dispatch.ev_new_empty [32; 8] Dispatch.kHalf],
     inl (Dispatch.InvalidStrides Dispatch.arg_mask 1 32)).
Proof.
  apply (mask_validation Dispatch.demo_env Dispatch.demo_a Dispatch.demo_b
           (Dispatch.mkTensor Dispatch.kBool Dispatch.Strided [32; 64] [1; 32]
                              (fun _ => Some 0))
           (Dispatch.half_args Dispatch.RowMajor Dispatch.RowMajor)
           demo_accepted eq_refl);
    [reflexivity | reflexivity | vm_compute; discriminate].
Defined.

(** A driver that reports the launch of the builder as failed. *)
Lemma launch_failure_reported_witness :
  let env := Dispatch.mkEnv 8 (fun k => match k with
                                        | Dispatch.create_meta_kernel => true
                                        | _ => false
                                        end)
                            (fun _ => Dispatch.demo_gemm) Dispatch.NotImplementedFor in
  Dispatch._structured_sparse_linear env Dispatch.demo_a Dispatch.demo_b
                                     Dispatch.demo_mask_tensor
  = ([Dispatch.ev_new_empty [32; 8] Dispatch.kHalf;
      Dispatch.ev_new_empty [32; 4] Dispatch.kShort;
      Dispatch.ev_new_zeros [1] Dispatch.kInt;
      Dispatch.ev_launch Dispatch.create_meta_kernel],
     inl (Dispatch.CudaLaunchError Dispatch.create_meta_kernel)).
Proof.
  intros env.
  assert (Hacc : Dispatch.accepted env Dispatch.demo_a Dispatch.demo_b
                   (Dispatch.half_args Dispatch.RowMajor Dispatch.RowMajor))
    by (unfold Dispatch.accepted; repeat split).
  destruct (launch_failure_reported env Dispatch.demo_a Dispatch.demo_b
              Dispatch.demo_mask_tensor
              (Dispatch.half_args Dispatch.RowMajor Dispatch.RowMajor)
              Hacc eq_refl eq_refl (or_intror (or_introl eq_refl)))
    as (_ & _ & H & _).
  exact (H eq_refl).
Defined.

(** Metadata passed in, and an engine that accepts everything. *)
Lemma engine_protocol_witness :
  let args := Dispatch.gemm_arguments Dispatch.demo_gemm
                (Dispatch.half_args Dispatch.RowMajor Dispatch.RowMajor)
                Dispatch.demo_a Dispatch.demo_b Dispatch.demo_d Dispatch.demo_meta_tensor in
  Dispatch._structured_sparse_linear Dispatch.demo_env Dispatch.demo_a Dispatch.demo_b
                                     Dispatch.demo_meta_tensor
  = ([Dispatch.ev_new_empty [32; 8] Dispatch.kHalf;
      Dispatch.ev_new_empty [0] Dispatch.kByte;
      Dispatch.ev_gemm_initialize args;
      Dispatch.ev_gemm_run args],
     inr (Dispatch.demo_d, Dispatch.demo_meta_tensor)) /\
  Dispatch.problem_size args = (32, 8, 64).
Proof.
  intros args.
  destruct (engine_protocol Dispatch.demo_env Dispatch.demo_a Dispatch.demo_b
              Dispatch.demo_meta_tensor
              (Dispatch.half_args Dispatch.RowMajor Dispatch.RowMajor)
              demo_accepted eq_refl)
    as (_ & H & Hsize & _).
  split; [| exact Hsize].
  exact (proj2 (proj2 (proj2 (H eq_refl) eq_refl) eq_refl) eq_refl).
Defined.

(** A call on the valid mask returns. *)
Lemma returned_call_was_checked_witness :
  Dispatch.mask_ok Dispatch.demo_mask_tensor = true /\
  CreateMeta.group_two_true 64
    (Dispatch.as_bool (Dispatch.data Dispatch.demo_mask_tensor)) 31 15 = true.
Proof.
  pose (out := Dispatch._structured_sparse_linear Dispatch.demo_env Dispatch.demo_a
                 Dispatch.demo_b Dispatch.demo_mask_tensor).
  assert (Hcall : out
                  = (fst out,
                     inr (Dispatch.demo_d,
                          Dispatch.reordered_meta Dispatch.demo_gemm Dispatch.demo_a
                            Dispatch.demo_b Dispatch.demo_mask_tensor)))
    by (vm_compute; reflexivity).
  destruct (returned_call_was_checked Dispatch.demo_env Dispatch.demo_a Dispatch.demo_b
              Dispatch.demo_mask_tensor _ _ _ Hcall)
    as (targs & _ & _ & _ & _ & H).
  destruct (H eq_refl) as (Hok & Hvalid & _).
  split; [exact Hok |].
  apply (Hvalid 31 15); vm_compute; intuition discriminate.
Defined.

Lemma valid_mask_builds_metadata_witness :
  let meta := Dispatch.reordered_meta Dispatch.demo_gemm Dispatch.demo_a Dispatch.demo_b
                Dispatch.demo_mask_tensor in
  Dispatch.sizes meta = [32; 4] /\
  Dispatch.data meta (RowMajor_packed (32, 4) (ReorderMeta.dst_coord 2 9 2))
  = Some (packed (fun j => Dispatch.entries_code Dispatch.demo_mask_tensor 9 (2 * 4 + j)) 4) /\
  snd (Dispatch._structured_sparse_linear Dispatch.demo_env Dispatch.demo_a Dispatch.demo_b
         Dispatch.demo_mask_tensor)
  = inr (Dispatch.demo_d, meta).
Proof.
  intros meta.
  destruct (valid_mask_builds_metadata Dispatch.demo_env Dispatch.demo_a Dispatch.demo_b
              Dispatch.demo_mask_tensor
              (Dispatch.half_args Dispatch.RowMajor Dispatch.RowMajor)
              demo_accepted
              ltac:(vm_compute; intuition discriminate)
              ltac:(vm_compute; intuition discriminate)
              eq_refl eq_refl
              (or_intror (or_introl eq_refl))
              eq_refl eq_refl eq_refl
              ltac:(vm_compute; discriminate)
              ltac:(vm_compute; discriminate)
              ltac:(vm_compute; discriminate)
              demo_layout_injective eq_refl eq_refl demo_mask_valid)
    as (_ & Hsizes & _ & Hdata & _ & Hret).
  split; [exact Hsizes |].
  split; [apply (Hdata 9 2); vm_compute; intuition discriminate |].
  rewrite (Hret eq_refl eq_refl eq_refl eq_refl). reflexivity.
Defined.

Lemma metadata_reuse_witness :
  let meta := Dispatch.reordered_meta Dispatch.demo_gemm Dispatch.demo_a Dispatch.demo_b
                Dispatch.demo_mask_tensor in
  snd (Dispatch._structured_sparse_linear Dispatch.demo_env Dispatch.demo_a Dispatch.demo_b
         meta)
  = snd (Dispatch._structured_sparse_linear Dispatch.demo_env Dispatch.demo_a
           Dispatch.demo_b Dispatch.demo_mask_tensor).
Proof.
  intros meta.
  apply (metadata_reuse Dispatch.demo_env Dispatch.demo_a Dispatch.demo_b
           Dispatch.demo_mask_tensor
           (Dispatch.half_args Dispatch.RowMajor Dispatch.RowMajor)
           demo_accepted
           ltac:(vm_compute; intuition discriminate)
           ltac:(vm_compute; intuition discriminate)
           eq_refl eq_refl
           (or_intror (or_introl eq_refl))
           ltac:(vm_compute; discriminate)
           ltac:(vm_compute; discriminate)
           eq_refl eq_refl demo_mask_valid).
Defined.

(** A contiguous sparse operand with a single column has both strides
    equal to 1 and is rejected. *)
Lemma operand_validation_witness :
  Dispatch._structured_sparse_linear Dispatch.demo_env
    (Dispatch.mkTensor Dispatch.kHalf Dispatch.Strided [32; 1] [1; 1] (fun _ => Some 0))
    Dispatch.demo_b Dispatch.demo_mask_tensor
  = ([], inl (Dispatch.InvalidStrides Dispatch.arg_tensor_a 1 1)).
Proof.
  apply (proj1 (proj2 (operand_validation Dispatch.demo_env
           (Dispatch.mkTensor Dispatch.kHalf Dispatch.Strided [32; 1] [1; 1]
                              (fun _ => Some 0))
           Dispatch.demo_b Dispatch.demo_mask_tensor))).
  - reflexivity.
  - right. right. split; [reflexivity |]. split; [reflexivity |].
    split; [| reflexivity].
    unfold Dispatch.one_unit_stride. simpl. intros [[_ H] | [H _]]; apply H; reflexivity.
Defined.

Lemma engine_never_run_unchecked_witness :
  let args := Dispatch.gemm_arguments Dispatch.demo_gemm
                (Dispatch.half_args Dispatch.RowMajor Dispatch.RowMajor)
                Dispatch.demo_a Dispatch.demo_b Dispatch.demo_d Dispatch.demo_meta_tensor in
  exists targs,
    Dispatch.accepted Dispatch.demo_env Dispatch.demo_a Dispatch.demo_b targs /\
    args = Dispatch.gemm_arguments (Dispatch.Gemm Dispatch.demo_env targs) targs
             Dispatch.demo_a Dispatch.demo_b
             (Dispatch.product_empty Dispatch.demo_a Dispatch.demo_b targs)
             (Dispatch.call_meta (Dispatch.Gemm Dispatch.demo_env targs)
                Dispatch.demo_a Dispatch.demo_b Dispatch.demo_meta_tensor) /\
    Dispatch.can_implement (Dispatch.Gemm Dispatch.demo_env targs) args
    = Dispatch.kSuccess /\
    Dispatch.initialize (Dispatch.Gemm Dispatch.demo_env targs) args = Dispatch.kSuccess.
Proof.
  intros args.
  destruct (proj1 (proj2 (proj2 (engine_never_run_unchecked Dispatch.demo_env
                                   Dispatch.demo_a Dispatch.demo_b
                                   Dispatch.demo_meta_tensor))) args)
    as (targs & Hacc & Eargs & Hc & Hi & _).
  - right. right. right. left. reflexivity.
  - exists targs. auto.
Defined.

Lemma no_dead_outcome_witness :
  snd (Dispatch._structured_sparse_linear Dispatch.demo_env Dispatch.demo_a Dispatch.demo_b
         Dispatch.demo_bad_mask_tensor)
  <> inl Dispatch.InvalidOutputDatatype.
Proof.
  apply (proj1 (no_dead_outcome Dispatch.demo_env Dispatch.demo_a Dispatch.demo_b
                  Dispatch.demo_bad_mask_tensor)).
  right. reflexivity.
Defined.

Lemma size_checks_fit_kernels_witness :
  Dispatch.meta_columns Dispatch.demo_gemm Dispatch.demo_b = 4 /\
  ReorderMeta.bijection_on_grid 2 32 4.
Proof.
  destruct (size_checks_fit_kernels Dispatch.demo_env Dispatch.demo_a Dispatch.demo_b
              (Dispatch.half_args Dispatch.RowMajor Dispatch.RowMajor)
              demo_accepted
              ltac:(vm_compute; intuition discriminate)
              ltac:(vm_compute; intuition discriminate)
              (or_intror (or_introl eq_refl)) eq_refl eq_refl eq_refl)
    as (_ & _ & _ & _ & _ & _ & _ & Hcols & _ & _ & Hbij).
  split; [reflexivity | exact Hbij].
Defined.
